(** * Promptitude: repository mirror, name resolution and activation

    A shallow embedding of the synchronisation and activation engine of the
    Promptitude extension ([src/storage/repositoryStorage.ts],
    [src/syncManager.ts], [src/configManager.ts], [src/constant.ts]).

    JavaScript strings are sequences of UTF-16 code units and are modelled as
    [list N]; a byte buffer is a [list N] of values below 256.  The file
    system is a finite map from paths to nodes.  Code that can throw lives in
    a small state-and-exception monad. *)

From Stdlib Require Import NArith Lia List Bool Ascii String.
From stdpp Require Import base option list gmap strings.

Local Open Scope N_scope.

(** Division and remainder by constants are handed to [lia]. *)
Ltac Zify.zify_post_hook ::= Z.to_euclidean_division_equations.

(* ===================================================================== *)
(** ** JavaScript strings *)
(* ===================================================================== *)

Module JS.

(** A string is its sequence of UTF-16 code units. *)
Abbreviation jsstring := (list N).

(** An ASCII literal as a JavaScript string. *)
Fixpoint js (s : string) : jsstring :=
  match s with
  | EmptyString => []
  | String a s' => N_of_ascii a :: js s'
  end.

(** [a === b] on strings. *)
Fixpoint str_eqb (a b : jsstring) : bool :=
  match a, b with
  | [], [] => true
  | x :: a', y :: b' => (x =? y) && str_eqb a' b'
  | _, _ => false
  end.

(** [s.startsWith(p)] *)
Fixpoint startsWith (s p : jsstring) : bool :=
  match p, s with
  | [], _ => true
  | _ :: _, [] => false
  | x :: p', y :: s' => (x =? y) && startsWith s' p'
  end.

(** [s.endsWith(p)] *)
Definition endsWith (s p : jsstring) : bool := startsWith (rev s) (rev p).

(** [s.includes(p)] *)
Fixpoint includes (s p : jsstring) : bool :=
  startsWith s p ||
  match s with
  | [] => false
  | _ :: s' => includes s' p
  end.

(** [s.replace(/c/g, d)] for a single code unit [c]. *)
Definition replaceAll1 (c d : N) (s : jsstring) : jsstring :=
  map (fun x => if x =? c then d else x) s.

(** [s.replace(/^c+/, '')]: drop the leading run of [c]. *)
Fixpoint dropLeading (c : N) (s : jsstring) : jsstring :=
  match s with
  | x :: s' => if x =? c then dropLeading c s' else s
  | [] => []
  end.

(** [s.replace(/^p/, '')] for a literal prefix [p]. *)
Fixpoint stripPrefix (p s : jsstring) : option jsstring :=
  match p, s with
  | [], _ => Some s
  | _ :: _, [] => None
  | x :: p', y :: s' => if x =? y then stripPrefix p' s' else None
  end.

Definition removePrefix (p s : jsstring) : jsstring :=
  match stripPrefix p s with
  | Some r => r
  | None => s
  end.

(** [s.replace(/p$/, '')] for a literal suffix [p]. *)
Definition removeSuffix (p s : jsstring) : jsstring :=
  if endsWith s p then take (length s - length p)%nat s else s.

(** [s.split(c)] for a one-unit separator: never empty, one more part than
    there are separators. *)
Fixpoint split1 (c : N) (s : jsstring) : list jsstring :=
  match s with
  | [] => [[]]
  | x :: s' =>
      if x =? c then [] :: split1 c s'
      else match split1 c s' with
           | part :: parts => (x :: part) :: parts
           | [] => [[x]]
           end
  end.

(** [s.split(sep)] for a non-empty literal separator.  [fuel] bounds the
    scan and is taken as the length of the string. *)
Fixpoint splitOn_aux (fuel : nat) (sep : jsstring) (cur s : jsstring)
  : list jsstring :=
  match fuel with
  | O => [rev cur ++ s]
  | S fuel' =>
      match s with
      | [] => [rev cur]
      | x :: s' =>
          match stripPrefix sep s with
          | Some r => rev cur :: splitOn_aux fuel' sep [] r
          | None => splitOn_aux fuel' sep (x :: cur) s'
          end
      end
  end.

Definition splitOn (sep s : jsstring) : list jsstring :=
  splitOn_aux (S (length s)) sep [] s.

(** [s.lastIndexOf(c)], [None] standing for [-1]. *)
Fixpoint lastIndexOf_from (i : nat) (c : N) (s : jsstring) : option nat :=
  match s with
  | [] => None
  | x :: s' =>
      match lastIndexOf_from (S i) c s' with
      | Some j => Some j
      | None => if x =? c then Some i else None
      end
  end.

Definition lastIndexOf (c : N) (s : jsstring) : option nat :=
  lastIndexOf_from 0 c s.

(** [s.substring(a, b)] and [s.substring(a)] for in-range indices. *)
Definition substring (a b : nat) (s : jsstring) : jsstring :=
  take (b - a)%nat (drop a s).
Definition substringFrom (a : nat) (s : jsstring) : jsstring := drop a s.

(** [parts.join(sep)] *)
Fixpoint join (sep : jsstring) (parts : list jsstring) : jsstring :=
  match parts with
  | [] => []
  | [p] => p
  | p :: ps => p ++ sep ++ join sep ps
  end.

End JS.
Import JS.

(* ===================================================================== *)
(** ** Node's Buffer: UTF-8 and base64url *)
(* ===================================================================== *)

Module Buffer.

Definition is_high_surrogate (c : N) : bool := (0xD800 <=? c) && (c <=? 0xDBFF).
Definition is_low_surrogate (c : N) : bool := (0xDC00 <=? c) && (c <=? 0xDFFF).

(** The UTF-8 bytes of one code point. *)
Definition utf8_bytes (cp : N) : list N :=
  if cp <? 0x80 then [cp]
  else if cp <? 0x800 then [0xC0 + cp / 64; 0x80 + cp mod 64]
  else if cp <? 0x10000 then
    [0xE0 + cp / 4096; 0x80 + (cp / 64) mod 64; 0x80 + cp mod 64]
  else
    [0xF0 + cp / 262144; 0x80 + (cp / 4096) mod 64;
     0x80 + (cp / 64) mod 64; 0x80 + cp mod 64].

(** [Buffer.from(s, 'utf8')]: a surrogate pair is one code point, a
    surrogate without its partner is written as U+FFFD. *)
Fixpoint utf8_encode (s : jsstring) : list N :=
  match s with
  | [] => []
  | c :: rest =>
      if is_high_surrogate c then
        match rest with
        | d :: rest' =>
            if is_low_surrogate d then
              utf8_bytes (0x10000 + (c - 0xD800) * 0x400 + (d - 0xDC00))
                ++ utf8_encode rest'
            else utf8_bytes 0xFFFD ++ utf8_encode rest
        | [] => utf8_bytes 0xFFFD
        end
      else if is_low_surrogate c then utf8_bytes 0xFFFD ++ utf8_encode rest
      else utf8_bytes c ++ utf8_encode rest
  end.

(** A well-formed string: every code unit is below 65536 and every
    surrogate is half of a pair, the high one first. *)
Fixpoint well_formed (s : jsstring) : bool :=
  match s with
  | [] => true
  | c :: rest =>
      if is_high_surrogate c then
        match rest with
        | d :: rest' => is_low_surrogate d && well_formed rest'
        | [] => false
        end
      else negb (is_low_surrogate c) && (c <? 0x10000) && well_formed rest
  end.

(** The UTF-16 code units of one code point. *)
Definition utf16_units (cp : N) : jsstring :=
  if cp <? 0x10000 then [cp]
  else [0xD800 + (cp - 0x10000) / 0x400; 0xDC00 + (cp - 0x10000) mod 0x400].

Definition is_continuation (b : N) : bool := (0x80 <=? b) && (b <=? 0xBF).

(** The range allowed for the byte after lead byte [b] (three- and
    four-byte forms): overlong forms, surrogates and values above U+10FFFF
    are excluded here. *)
Definition second_ok (b b2 : N) : bool :=
  if b =? 0xE0 then (0xA0 <=? b2) && (b2 <=? 0xBF)
  else if b =? 0xED then (0x80 <=? b2) && (b2 <=? 0x9F)
  else if b =? 0xF0 then (0x90 <=? b2) && (b2 <=? 0xBF)
  else if b =? 0xF4 then (0x80 <=? b2) && (b2 <=? 0x8F)
  else is_continuation b2.

(** [buf.toString('utf8')] as a list of code points: an ill-formed
    sequence gives U+FFFD and decoding resumes at the offending byte. *)
Fixpoint utf8_decode_points (bs : list N) : list N :=
  match bs with
  | [] => []
  | b :: r1 =>
      if b <? 0x80 then b :: utf8_decode_points r1
      else if (0xC2 <=? b) && (b <=? 0xDF) then
        match r1 with
        | b2 :: r2 =>
            if is_continuation b2
            then ((b - 0xC0) * 64 + (b2 - 0x80)) :: utf8_decode_points r2
            else 0xFFFD :: utf8_decode_points r1
        | [] => [0xFFFD]
        end
      else if (0xE0 <=? b) && (b <=? 0xEF) then
        match r1 with
        | b2 :: r2 =>
            if second_ok b b2 then
              match r2 with
              | b3 :: r3 =>
                  if is_continuation b3
                  then ((b - 0xE0) * 4096 + (b2 - 0x80) * 64 + (b3 - 0x80))
                         :: utf8_decode_points r3
                  else 0xFFFD :: utf8_decode_points r2
              | [] => [0xFFFD]
              end
            else 0xFFFD :: utf8_decode_points r1
        | [] => [0xFFFD]
        end
      else if (0xF0 <=? b) && (b <=? 0xF4) then
        match r1 with
        | b2 :: r2 =>
            if second_ok b b2 then
              match r2 with
              | b3 :: r3 =>
                  if is_continuation b3 then
                    match r3 with
                    | b4 :: r4 =>
                        if is_continuation b4
                        then ((b - 0xF0) * 262144 + (b2 - 0x80) * 4096
                              + (b3 - 0x80) * 64 + (b4 - 0x80))
                               :: utf8_decode_points r4
                        else 0xFFFD :: utf8_decode_points r3
                    | [] => [0xFFFD]
                    end
                  else 0xFFFD :: utf8_decode_points r2
              | [] => [0xFFFD]
              end
            else 0xFFFD :: utf8_decode_points r1
        | [] => [0xFFFD]
        end
      else 0xFFFD :: utf8_decode_points r1
  end.

Definition utf8_decode (bs : list N) : jsstring :=
  flat_map utf16_units (utf8_decode_points bs).

(** The base64url alphabet. *)
Definition alphabet : jsstring :=
  js "ABCDEFGHIJKLMNOPQRSTUVWXYZabcdefghijklmnopqrstuvwxyz0123456789-_".

Definition b64_char (i : N) : N := nth (N.to_nat i) alphabet 0.

(** [buf.toString('base64url')]: three bytes give four characters and no
    padding is written. *)
Fixpoint base64url_encode (bs : list N) : jsstring :=
  match bs with
  | a :: b :: c :: r =>
      b64_char (a / 4) :: b64_char ((a mod 4) * 16 + b / 16)
        :: b64_char ((b mod 16) * 4 + c / 64) :: b64_char (c mod 64)
        :: base64url_encode r
  | [a; b] =>
      [b64_char (a / 4); b64_char ((a mod 4) * 16 + b / 16);
       b64_char ((b mod 16) * 4)]
  | [a] => [b64_char (a / 4); b64_char ((a mod 4) * 16)]
  | [] => []
  end.

(** The value of one character; both the base64 and the base64url forms of
    62 and 63 are read. *)
Definition unbase64 (c : N) : option N :=
  if (65 <=? c) && (c <=? 90) then Some (c - 65)
  else if (97 <=? c) && (c <=? 122) then Some (c - 97 + 26)
  else if (48 <=? c) && (c <=? 57) then Some (c - 48 + 52)
  else if (c =? 45) || (c =? 43) then Some 62
  else if (c =? 95) || (c =? 47) then Some 63
  else None.

(** The six-bit values of a slug: characters outside the alphabets are
    passed over and ['='] ends the data. *)
Fixpoint sextets (s : jsstring) : list N :=
  match s with
  | [] => []
  | c :: r =>
      if c =? 61 then []
      else match unbase64 c with
           | Some v => v :: sextets r
           | None => sextets r
           end
  end.

Fixpoint bytes_of_sextets (l : list N) : list N :=
  match l with
  | a :: b :: c :: d :: r =>
      (a * 4 + b / 16) :: ((b mod 16) * 16 + c / 4) :: ((c mod 4) * 64 + d)
        :: bytes_of_sextets r
  | [a; b; c] => [a * 4 + b / 16; (b mod 16) * 16 + c / 4]
  | [a; b] => [a * 4 + b / 16]
  | _ => []
  end.

(** [Buffer.from(s, 'base64url')] *)
Definition base64url_decode (s : jsstring) : list N :=
  bytes_of_sextets (sextets s).

End Buffer.

(* ===================================================================== *)
(** ** storage/repositoryStorage.ts *)
(* ===================================================================== *)

(** [encodeRepositorySlug]: [Buffer.from(url, 'utf8').toString('base64url')].
    Neither call throws on a string, so the [catch] arm is dead. *)
Definition encodeRepositorySlug (url : jsstring) : jsstring :=
  Buffer.base64url_encode (Buffer.utf8_encode url).

(** [decodeRepositorySlug]: [Buffer.from(slug, 'base64url').toString('utf8')]. *)
Definition decodeRepositorySlug (slug : jsstring) : jsstring :=
  Buffer.utf8_decode (Buffer.base64url_decode slug).

(* ===================================================================== *)
(** ** Exceptions and state *)
(* ===================================================================== *)

(** What a [throw] carries: an [Error] with its message, a system error
    with its [code] (also an [Error] instance, with a message of its own),
    or a value that is not an [Error]. *)
Inductive errcode := EPERM | EEXIST | ENOENT | ELOOP.

Inductive exn :=
  | JsError (message : jsstring)
  | FsError (code : errcode) (path : jsstring)
  | NotAnError.

#[global] Instance errcode_eq_dec : EqDecision errcode.
Proof. solve_decision. Defined.

Definition errcode_name (c : errcode) : jsstring :=
  match c with
  | EPERM => js "EPERM"
  | EEXIST => js "EEXIST"
  | ENOENT => js "ENOENT"
  | ELOOP => js "ELOOP"
  end.

(** [error instanceof Error ? error.message : 'Unknown error'] *)
Definition errorMessage (e : exn) : jsstring :=
  match e with
  | JsError m => m
  | FsError c p => errcode_name c ++ js ": " ++ p
  | NotAnError => js "Unknown error"
  end.

(** [`${error}`] *)
Definition errorText (e : exn) : jsstring :=
  match e with
  | NotAnError => js "undefined"
  | _ => js "Error: " ++ errorMessage e
  end.

Inductive result (A : Type) :=
  | Ok (a : A)
  | Throw (e : exn).
Arguments Ok {A} a.
Arguments Throw {A} e.

#[global] Instance exn_eq_dec : EqDecision exn.
Proof. solve_decision. Defined.

#[global] Instance result_eq_dec {A} `{EqDecision A} : EqDecision (result A).
Proof. solve_decision. Defined.

(** A computation over a state [S] that returns or throws. *)
Definition M (S A : Type) : Type := S -> result A * S.

Definition ret {S A} (a : A) : M S A := fun s => (Ok a, s).
Definition throw {S A} (e : exn) : M S A := fun s => (Throw e, s).
Definition bind {S A B} (m : M S A) (k : A -> M S B) : M S B :=
  fun s =>
    match m s with
    | (Ok a, s') => k a s'
    | (Throw e, s') => (Throw e, s')
    end.
(** [try { m } catch (e) { h e }] *)
Definition try_catch {S A} (m : M S A) (h : exn -> M S A) : M S A :=
  fun s =>
    match m s with
    | (Ok a, s') => (Ok a, s')
    | (Throw e, s') => h e s'
    end.
Definition get {S} : M S S := fun s => (Ok s, s).
Definition modify {S} (f : S -> S) : M S unit := fun s => (Ok tt, f s).
Definition when {S} (b : bool) (m : M S unit) : M S unit :=
  if b then m else ret tt.

Notation "'let!' x ':=' m 'in' k" :=
  (bind m (fun x => k))
  (at level 10, x pattern, m at level 100, k at level 200).

(* ===================================================================== *)
(** ** The file system *)
(* ===================================================================== *)

(** A path holds a regular file with its text or a symbolic link with its
    target.  Directories are implicit: a directory exists as soon as it is
    asked for, so [ensureDirectoryExists] changes nothing here.  Paths are
    told apart as they are written, letter case included. *)
Inductive node :=
  | File (content : jsstring)
  | Symlink (target : jsstring).

#[global] Instance node_eq_dec : EqDecision node.
Proof. solve_decision. Defined.

Abbreviation filesystem := (gmap (list N) node).

Inductive platform := Win32 | Darwin | Linux | OtherPlatform.

#[global] Instance platform_eq_dec : EqDecision platform.
Proof. solve_decision. Defined.

Record RepoConfig := { url : jsstring; branch : jsstring }.

(** What the engine reads and never writes: [process.platform], whether the
    operating system lets this process create symbolic links, and the
    settings of [ConfigManager]. *)
Record Env := {
  process_platform : platform;
  symlink_permitted : bool;
  globalStoragePath : jsstring;
  promptsDirectory : jsstring;
  repositoryConfigs : list RepoConfig;
  syncChatmode : bool;
  syncInstructions : bool;
  syncPrompt : bool;
  hasContext : bool
}.

Module FS.

(** How many links [stat] follows before it gives up. *)
Definition max_links : nat := 40.

(** [fs.lstat]: the node at the path itself. *)
Definition lstat (fs : filesystem) (p : jsstring) : option node := fs !! p.

(** The path reached from [p] through symbolic links. *)
Fixpoint realpath (fuel : nat) (fs : filesystem) (p : jsstring)
  : option jsstring :=
  match fuel with
  | O => None
  | S fuel' =>
      match fs !! p with
      | Some (Symlink t) => realpath fuel' fs t
      | Some (File _) => Some p
      | None => None
      end
  end.

(** [fs.stat]: follows links. *)
Definition stat (fs : filesystem) (p : jsstring) : option jsstring :=
  match realpath max_links fs p with
  | Some q => match fs !! q with Some (File c) => Some c | _ => None end
  | None => None
  end.

(** Modelled from the spec: [FileSystemManager] ([src/utils/fileSystem.ts])
    is not among the sources; the spec lists "existence checks, whole-file
    read/write of text".  [fileExists] is an access check, which follows
    links: a link whose target is gone does not exist. *)
Definition fileExists (p : jsstring) : M filesystem bool :=
  fun fs => (Ok (bool_decide (is_Some (stat fs p))), fs).

(** Modelled from the spec: whole-file read of text. *)
Definition readFileContent (p : jsstring) : M filesystem jsstring :=
  fun fs =>
    match stat fs p with
    | Some c => (Ok c, fs)
    | None => (Throw (FsError ENOENT p), fs)
    end.

(** The path a write lands on: links are followed, and the last one may
    point at a path that holds nothing yet. *)
Fixpoint writepath (fuel : nat) (fs : filesystem) (p : jsstring)
  : option jsstring :=
  match fuel with
  | O => None
  | S fuel' =>
      match fs !! p with
      | Some (Symlink t) => writepath fuel' fs t
      | _ => Some p
      end
  end.

(** Modelled from the spec: whole-file write of text, through a link when
    the path is one. *)
Definition writeFileContent (p content : jsstring) : M filesystem unit :=
  fun fs =>
    match writepath max_links fs p with
    | Some q => (Ok tt, <[q := File content]> fs)
    | None => (Throw (FsError ELOOP p), fs)
    end.

(** Modelled from the spec: [ensureDirectoryExists]; directories are
    implicit, so nothing is created and, other than on a real disk, nothing
    can fail. *)
Definition ensureDirectoryExists (p : jsstring) : M filesystem unit := ret tt.

(** Modelled from the spec: [joinPath] and [path.join] on segments that
    need no normalising. *)
Definition joinPath (a b : jsstring) : jsstring := a ++ js "/" ++ b.

(** Modelled from the spec: [getBasename], the part after the last
    separator. *)
Definition getBasename (p : jsstring) : jsstring := List.last (split1 47 p) [].

(** [path.dirname]: what is in front of the last separator. *)
Definition dirname (p : jsstring) : jsstring :=
  join (js "/") (removelast (split1 47 p)).

(** [vscode.workspace.fs.delete(uri)] and [fs.unlink]: the entry itself.
    A path that holds nothing is the one failure there is here; a disk can
    also refuse to remove an entry that is there. *)
Definition delete (p : jsstring) : M filesystem unit :=
  fun fs =>
    match fs !! p with
    | Some _ => (Ok tt, base.delete p fs)
    | None => (Throw (FsError ENOENT p), fs)
    end.

(** [fs.symlink(source, target, 'file')] *)
Definition symlink (env : Env) (source target : jsstring) : M filesystem unit :=
  fun fs =>
    if negb (symlink_permitted env) then (Throw (FsError EPERM target), fs)
    else match fs !! target with
         | Some _ => (Throw (FsError EEXIST target), fs)
         | None => (Ok tt, <[target := Symlink source]> fs)
         end.

End FS.

(* ===================================================================== *)
(** ** constant.ts *)
(* ===================================================================== *)

Definition REPO_SYNC_CHAT_MODE_PATH : jsstring := js "agents/".
Definition REPO_SYNC_CHAT_MODE_LEGACY_PATH : jsstring := js "chatmodes/".
Definition REPO_SYNC_CHAT_MODE_LEGACY_SINGULAR_PATH : jsstring := js "chatmode/".
Definition REPO_SYNC_INSTRUCTIONS_PATH : jsstring := js "instructions/".
Definition REPO_SYNC_PROMPT_PATH : jsstring := js "prompts/".

(* ===================================================================== *)
(** ** syncManager.ts: paths, names and filters *)
(* ===================================================================== *)

(** One entry of a repository tree. *)
Record GitTreeItem := { path : jsstring; type : jsstring }.

(** [item.path.replace(/\\/g, '/').replace(/^\/+/, '')] *)
Definition normalizePath (p : jsstring) : jsstring :=
  dropLeading 47 (replaceAll1 92 47 p).

Definition allowedPaths (env : Env) : list jsstring :=
  (if syncChatmode env
   then [REPO_SYNC_CHAT_MODE_PATH; REPO_SYNC_CHAT_MODE_LEGACY_PATH;
         REPO_SYNC_CHAT_MODE_LEGACY_SINGULAR_PATH]
   else [])
  ++ (if syncInstructions env then [REPO_SYNC_INSTRUCTIONS_PATH] else [])
  ++ (if syncPrompt env then [REPO_SYNC_PROMPT_PATH] else []).

Definition isRelevantItem (allowed : list jsstring) (item : GitTreeItem) : bool :=
  let isBlob := str_eqb (type item) (js "blob") in
  let normalizedPath := normalizePath (path item) in
  let matchesPath :=
    existsb (fun p => startsWith normalizedPath (normalizePath p)) allowed in
  let isRelevantFile :=
    endsWith (path item) (js ".md") || endsWith (path item) (js ".txt") in
  isBlob && matchesPath && isRelevantFile.

Definition filterRelevantFiles (env : Env) (tree : list GitTreeItem)
  : list GitTreeItem :=
  let allowed := allowedPaths env in
  if (length allowed =? 0)%nat then []
  else List.filter (isRelevantItem allowed) tree.

(** [this.repoStorageDir] *)
Definition repoStorageDir (env : Env) : jsstring :=
  FS.joinPath (globalStoragePath env) (js "repos").

Definition getRepositoryPath (env : Env) (repositoryUrl : jsstring) : jsstring :=
  let slug := encodeRepositorySlug repositoryUrl in
  FS.joinPath (repoStorageDir env) slug.

(** [p => p] as a filter on strings: the empty string is falsy. *)
Definition truthy (p : jsstring) : bool := negb (str_eqb p []).

(** [url.replace(/^https?:\/\//, '')] *)
Definition removeProtocol (s : jsstring) : jsstring :=
  match stripPrefix (js "https://") s with
  | Some r => r
  | None => removePrefix (js "http://") s
  end.

Definition dash (a b : jsstring) : jsstring := a ++ js "-" ++ b.

Definition getRepositoryIdentifier (repositoryUrl : jsstring) : jsstring :=
  let identifier :=
    removeSuffix (js ".git") (removePrefix (js "www.") (removeProtocol repositoryUrl)) in
  let github :=
    if includes identifier (js "github.com/") then
      match splitOn (js "github.com/") identifier with
      | _ :: after :: _ =>
          match split1 47 after with
          | p0 :: p1 :: _ => Some (dash p0 p1)
          | _ => None
          end
      | _ => None
      end
    else None in
  match github with
  | Some r => r
  | None =>
      let azure :=
        if includes identifier (js "dev.azure.com/") then
          match List.filter (fun p => truthy p && negb (str_eqb p (js "_git")))
                  (split1 47 identifier) with
          | _ :: p1 :: p2 :: p3 :: _ => Some (dash p1 (dash p2 p3))
          | _ => None
          end
        else None in
      match azure with
      | Some r => r
      | None =>
          let pathParts := List.filter truthy (split1 47 identifier) in
          match rev pathParts with
          | last :: prev :: _ => dash prev last
          | [last] => last
          | [] => js "repo"
          end
      end
  end.

(** The suffixed name: the identifier goes in front of the last dot. *)
Definition suffixedName (fileName repoIdentifier : jsstring) : jsstring :=
  match lastIndexOf 46 fileName with
  | Some (S i) =>
      let baseName := substring 0 (S i) fileName in
      let extension := substringFrom (S i) fileName in
      baseName ++ js "@" ++ repoIdentifier ++ extension
  | _ => fileName ++ js "@" ++ repoIdentifier
  end.

(** The loop of [getUniqueWorkspaceName] over the configured repositories. *)
Fixpoint reposWithFile (env : Env) (fileName : jsstring)
    (repositories : list RepoConfig) (acc : list jsstring)
  : M filesystem (list jsstring) :=
  match repositories with
  | [] => ret acc
  | repoConfig :: rest =>
      let repoPath := getRepositoryPath env (url repoConfig) in
      let filePath := FS.joinPath repoPath fileName in
      let! found := FS.fileExists filePath in
      reposWithFile env fileName rest
        (if found then acc ++ [url repoConfig] else acc)
  end.

Definition getUniqueWorkspaceName (env : Env) (fileName repositoryUrl : jsstring)
  : M filesystem jsstring :=
  let! withFile := reposWithFile env fileName (repositoryConfigs env) [] in
  if (length withFile <=? 1)%nat then ret fileName
  else ret (suffixedName fileName (getRepositoryIdentifier repositoryUrl)).

(** [parts.findIndex(part => part === s)], [None] standing for [-1]. *)
Fixpoint findIndex (s : jsstring) (parts : list jsstring) : option nat :=
  match parts with
  | [] => None
  | p :: rest =>
      if str_eqb p s then Some 0%nat
      else match findIndex s rest with
           | Some i => Some (S i)
           | None => None
           end
  end.

(** [extractRepositoryUrlFromTargetPath]: the segment after [repos], with
    every underscore turned into a slash and [https://] put in front. *)
Definition extractRepositoryUrlFromTargetPath (targetPath : jsstring)
  : option jsstring :=
  let normalizedPath := replaceAll1 92 47 targetPath in
  let pathParts := split1 47 normalizedPath in
  match findIndex (js "repos") pathParts with
  | Some reposIndex =>
      match pathParts !! S reposIndex with
      | Some encodedRepoUrl =>
          Some (js "https://" ++ replaceAll1 95 47 encodedRepoUrl)
      | None => None
      end
  | None => None
  end.

(* ===================================================================== *)
(** ** syncManager.ts: activation *)
(* ===================================================================== *)

Definition isWin32 (env : Env) : bool :=
  bool_decide (process_platform env = Win32).

Definition isEPERM (e : exn) : bool :=
  match e with
  | FsError EPERM _ => true
  | _ => false
  end.

Definition createPromptSymlink (env : Env) (sourcePath targetPath : jsstring)
  : M filesystem unit :=
  let targetDir := FS.dirname targetPath in
  let! _ := FS.ensureDirectoryExists targetDir in
  let! present := FS.fileExists targetPath in
  let! _ := when present (FS.delete targetPath) in
  let! _ :=
    try_catch (FS.symlink env sourcePath targetPath)
      (fun symlinkError =>
         if isWin32 env && isEPERM symlinkError then
           try_catch
             (let! content := FS.readFileContent sourcePath in
              FS.writeFileContent targetPath content)
             (fun copyError => throw copyError)
         else throw symlinkError) in
  let! targetExists := FS.fileExists targetPath in
  if negb targetExists
  then throw (JsError (js "Failed to create file at: " ++ targetPath))
  else ret tt.

Definition removePromptSymlink (env : Env) (targetPath : jsstring)
  : M filesystem unit :=
  try_catch
    (let! present := FS.fileExists targetPath in
     if present then
       let! fs := get in
       match FS.lstat fs targetPath with
       | Some (Symlink _) => FS.delete targetPath
       | Some (File _) =>
           if isWin32 env then FS.delete targetPath else ret tt
       | None => throw (FsError ENOENT targetPath)
       end
     else ret tt)
    (fun error => throw error).

(** [activatePrompt(promptPath, repositoryUrl?)]; [None] is an absent
    argument, and the empty string is falsy as well. *)
Definition activatePrompt (env : Env) (promptPath : jsstring)
    (repositoryUrl : option jsstring) : M filesystem jsstring :=
  match repositoryUrl with
  | None =>
      throw (JsError (js "Repository URL is required to activate prompt: "
                        ++ promptPath))
  | Some repositoryUrl =>
      if negb (truthy repositoryUrl) then
        throw (JsError (js "Repository URL is required to activate prompt: "
                          ++ promptPath))
      else
        try_catch
          (let repoPath := getRepositoryPath env repositoryUrl in
           let sourcePath := FS.joinPath repoPath promptPath in
           let! sourceExists := FS.fileExists sourcePath in
           if negb sourceExists then
             throw (JsError (js "Source file does not exist: " ++ sourcePath))
           else
             let! workspaceName :=
               getUniqueWorkspaceName env promptPath repositoryUrl in
             let promptsDir := promptsDirectory env in
             let targetPath := FS.joinPath promptsDir workspaceName in
             let! _ := createPromptSymlink env sourcePath targetPath in
             let! targetExists := FS.fileExists targetPath in
             if negb targetExists then
               throw (JsError (js "Target file was not created: " ++ targetPath))
             else ret workspaceName)
          (fun error => throw error)
  end.

Definition deactivatePrompt (env : Env) (promptPath : jsstring)
  : M filesystem unit :=
  try_catch
    (let promptsDir := promptsDirectory env in
     let targetPath := FS.joinPath promptsDir promptPath in
     removePromptSymlink env targetPath)
    (fun error => throw error).

(** [updateActivePromptSymlink]: every error is logged and dropped. *)
Definition updateActivePromptSymlink (env : Env) (fileName repositoryUrl : jsstring)
  : M filesystem unit :=
  try_catch
    (let! workspaceName := getUniqueWorkspaceName env fileName repositoryUrl in
     let workspacePath := FS.joinPath (promptsDirectory env) workspaceName in
     let! present := FS.fileExists workspacePath in
     if present then
       let! fs := get in
       match FS.lstat fs workspacePath with
       | Some (Symlink _) =>
           let repoPath := getRepositoryPath env repositoryUrl in
           let newSourcePath := FS.joinPath repoPath fileName in
           let! _ := removePromptSymlink env workspacePath in
           createPromptSymlink env newSourcePath workspacePath
       | Some (File _) => ret tt
       | None => throw (FsError ENOENT workspacePath)
       end
     else ret tt)
    (fun _ => ret tt).

(** One entry of the scan in [fixBrokenSymlinks]; the answer says whether
    the link was repaired. *)
Definition fixBrokenSymlink (env : Env) (name : jsstring) : M filesystem bool :=
  if startsWith name (js ".") then ret false
  else
    let fullPath := FS.joinPath (promptsDirectory env) name in
    try_catch
      (let! fs := get in
       match FS.lstat fs fullPath with
       | Some (Symlink targetPath) =>
           let normalizedTargetPath := replaceAll1 92 47 targetPath in
           match FS.stat fs fullPath with
           | Some _ => ret false
           | None =>
               match extractRepositoryUrlFromTargetPath normalizedTargetPath with
               | Some repositoryUrl =>
                   if truthy repositoryUrl then
                     let repoPath := getRepositoryPath env repositoryUrl in
                     let newSourcePath := FS.joinPath repoPath name in
                     let! found := FS.fileExists newSourcePath in
                     if found then
                       let! _ := FS.delete fullPath in
                       let! _ := createPromptSymlink env newSourcePath fullPath in
                       ret true
                     else ret false
                   else ret false
               | None => ret false
               end
           end
       | Some (File _) => ret false
       | None => throw (FsError ENOENT fullPath)
       end)
      (fun _ => ret false).

(* ===================================================================== *)
(** ** syncManager.ts: the sync pass *)
(* ===================================================================== *)

(** The provider collaborator ([GitApiManager], [GitProviderFactory]) and
    the notifications, over their own state [E].  A provider object is named
    by the URL it was created from.  None of them touches the file system. *)
Class GitApi (E : Type) := {
  createFromUrl : jsstring -> result unit;
  getProviderName : jsstring -> jsstring;
  checkAuthentication : jsstring -> M E bool;
  requestAuthentication : jsstring -> M E bool;
  showAuthenticationRequired : M E unit;
  parseRepositoryUrl : jsstring -> jsstring -> result (jsstring * jsstring);
  getRepositoryTree :
    jsstring -> jsstring -> jsstring -> jsstring -> M E (list GitTreeItem);
  getFileContent :
    jsstring -> jsstring -> jsstring -> jsstring -> jsstring -> M E jsstring;
  showSyncError : jsstring -> E -> E
}.

Record RepositorySyncResult := {
  repository : jsstring;
  success : bool;
  itemsUpdated : nat;
  error : option jsstring
}.

Record MultiRepositorySyncResult := {
  overallSuccess : bool;
  totalItemsUpdated : nat;
  repositories : list RepositorySyncResult;
  errors : list jsstring
}.

(** The mutable state of a pass: the disk, the collaborators and the
    [gitProviders] cache of the manager. *)
Record World (E : Type) := {
  files : filesystem;
  ext : E;
  gitProviders : gset (list N)
}.
Arguments files {E} w.
Arguments ext {E} w.
Arguments gitProviders {E} w.

#[global] Instance RepositorySyncResult_eq_dec : EqDecision RepositorySyncResult.
Proof. solve_decision. Defined.

#[global] Instance MultiRepositorySyncResult_eq_dec :
  EqDecision MultiRepositorySyncResult.
Proof. solve_decision. Defined.

#[global] Instance World_eq_dec {E} `{EqDecision E} : EqDecision (World E).
Proof. solve_decision. Defined.

Section Sync.
Context {E : Type} {api : GitApi E}.

(** Run a file-system computation in the world. *)
Definition onFiles {A} (m : M filesystem A) : M (World E) A :=
  fun w =>
    let '(r, fs) := m (files w) in
    (r, {| files := fs; ext := ext w; gitProviders := gitProviders w |}).

(** Run a collaborator in the world. *)
Definition onExt {A} (m : M E A) : M (World E) A :=
  fun w =>
    let '(r, e) := m (ext w) in
    (r, {| files := files w; ext := e; gitProviders := gitProviders w |}).

Definition shouldUpdateFile (localPath newContent : jsstring) : M filesystem bool :=
  try_catch
    (let! present := FS.fileExists localPath in
     if negb present then ret true
     else
       let! existingContent := FS.readFileContent localPath in
       ret (negb (str_eqb existingContent newContent)))
    (fun _ => ret true).

Definition syncedRepositoryUrl (gitApi owner repo : jsstring) : jsstring :=
  let providerName := getProviderName gitApi in
  if str_eqb providerName (js "github") then
    js "https://github.com/" ++ owner ++ js "/" ++ repo
  else if str_eqb providerName (js "azure") then
    js "https://dev.azure.com/" ++ owner ++ js "/" ++ repo
  else providerName ++ js "/" ++ owner ++ js "/" ++ repo.

(** The [for] loop of [syncFiles]; [itemsUpdated] is its counter. *)
Fixpoint syncFilesLoop (env : Env) (gitApi owner repo branch repositoryUrl : jsstring)
    (filesToSync : list GitTreeItem) (itemsUpdated : nat) : M (World E) nat :=
  match filesToSync with
  | [] => ret itemsUpdated
  | file :: rest =>
      let! fetched :=
        try_catch
          (let! content :=
             onExt (getFileContent gitApi owner repo (path file) branch) in
           ret (Some content))
          (fun error =>
             let! _ :=
               onExt (modify (showSyncError
                                (js "Failed to fetch content for " ++ path file
                                   ++ js " branch:" ++ branch ++ js ": "
                                   ++ errorText error ++ js "."))) in
             ret None) in
      match fetched with
      | None => ret itemsUpdated
      | Some content =>
          let! itemsUpdated' :=
            try_catch
              (let fileName := FS.getBasename (path file) in
               let repoStoragePath := getRepositoryPath env repositoryUrl in
               let repoFilePath := FS.joinPath repoStoragePath fileName in
               if negb (truthy content) then ret itemsUpdated
               else
                 let! needsUpdate := onFiles (shouldUpdateFile repoFilePath content) in
                 if needsUpdate then
                   let! _ := onFiles (FS.writeFileContent repoFilePath content) in
                   let! _ := onFiles (updateActivePromptSymlink env fileName repositoryUrl) in
                   ret (S itemsUpdated)
                 else ret itemsUpdated)
              (fun _ => ret itemsUpdated) in
          syncFilesLoop env gitApi owner repo branch repositoryUrl rest itemsUpdated'
      end
  end.

Definition syncFiles (env : Env) (gitApi owner repo : jsstring)
    (filesToSync : list GitTreeItem) (branch : jsstring) : M (World E) nat :=
  let repositoryUrl := syncedRepositoryUrl gitApi owner repo in
  let repoStoragePath := getRepositoryPath env repositoryUrl in
  let! _ := onFiles (FS.ensureDirectoryExists repoStoragePath) in
  syncFilesLoop env gitApi owner repo branch repositoryUrl filesToSync 0.

Definition promptLocation : jsstring :=
  REPO_SYNC_CHAT_MODE_PATH ++ js ", " ++ REPO_SYNC_CHAT_MODE_LEGACY_PATH
    ++ js ", " ++ REPO_SYNC_CHAT_MODE_LEGACY_SINGULAR_PATH
    ++ js ", " ++ REPO_SYNC_INSTRUCTIONS_PATH ++ js ", " ++ REPO_SYNC_PROMPT_PATH.

Definition noRelevantFilesError : jsstring :=
  js "No relevant files found, make sure prompts are in valid directories: "
    ++ promptLocation.

(** What one turn of the loop in [syncMultipleRepositories] adds: the entry
    pushed on [results], the amount added to [totalItemsUpdated] and what is
    pushed on [errors]. *)
Record Turn := {
  pushed : RepositorySyncResult;
  added : nat;
  reported : list jsstring
}.

(** [this.gitProviders.get(repoUrl)], creating and caching the provider
    when it is not there. *)
Definition getOrCreateProvider (env : Env) (repoUrl : jsstring)
  : M (World E) jsstring :=
  fun w =>
    if bool_decide (repoUrl ∈ gitProviders w) then (Ok repoUrl, w)
    else if negb (hasContext env) then
      (Throw (JsError
                (js "Extension context not available for git provider initialization")),
       w)
    else
      match createFromUrl repoUrl with
      | Ok _ =>
          (Ok repoUrl,
           {| files := files w; ext := ext w;
              gitProviders := {[repoUrl]} ∪ gitProviders w |})
      | Throw e => (Throw e, w)
      end.

Definition authenticate (gitApi : jsstring) : M (World E) unit :=
  let! isAuthenticated := onExt (checkAuthentication gitApi) in
  if negb isAuthenticated then
    let! _ := onExt showAuthenticationRequired in
    let! isAuthenticated := onExt (checkAuthentication gitApi) in
    if negb isAuthenticated then
      let! authSuccess := onExt (requestAuthentication gitApi) in
      if negb authSuccess then
        throw (JsError (getProviderName gitApi ++ js " authentication failed"))
      else ret tt
    else ret tt
  else ret tt.

(** The steps of a turn up to the fetched tree. *)
Definition fetchTree (env : Env) (entry : RepoConfig)
  : M (World E) (jsstring * jsstring * jsstring * list GitTreeItem) :=
  let repoUrl := url entry in
  let! gitApi := getOrCreateProvider env repoUrl in
  let! _ := authenticate gitApi in
  let! (owner, repo) := (fun w => (parseRepositoryUrl gitApi repoUrl, w)) in
  let! tree := onExt (getRepositoryTree gitApi owner repo (branch entry)) in
  ret (gitApi, owner, repo, tree).

Definition noRelevantFiles (repoUrl : jsstring) : Turn :=
  {| pushed := {| repository := repoUrl; success := false;
                  itemsUpdated := 0; error := Some noRelevantFilesError |};
     added := 0;
     reported := [repoUrl ++ js ": No relevant files found"] |}.

Definition synced (repoUrl : jsstring) (n : nat) : Turn :=
  {| pushed := {| repository := repoUrl; success := true;
                  itemsUpdated := n; error := None |};
     added := n;
     reported := [] |}.

Definition failed (repoUrl message : jsstring) : Turn :=
  {| pushed := {| repository := repoUrl; success := false;
                  itemsUpdated := 0; error := Some message |};
     added := 0;
     reported := [repoUrl ++ js ": " ++ message] |}.

(** The [try] block of a turn. *)
Definition syncRepositoryBody (env : Env) (entry : RepoConfig) : M (World E) Turn :=
  let repoUrl := url entry in
  let! (gitApi, owner, repo, tree) := fetchTree env entry in
  let relevantFiles := filterRelevantFiles env tree in
  if (length relevantFiles =? 0)%nat then ret (noRelevantFiles repoUrl)
  else
    let! n := syncFiles env gitApi owner repo relevantFiles (branch entry) in
    ret (synced repoUrl n).

(** A turn with its [catch] block. *)
Definition syncRepository (env : Env) (entry : RepoConfig) : M (World E) Turn :=
  let repoUrl := url entry in
  try_catch (syncRepositoryBody env entry)
    (fun error => ret (failed repoUrl (errorMessage error))).

Fixpoint syncRepositoriesLoop (env : Env) (entries : list RepoConfig)
    (results : list RepositorySyncResult) (total : nat) (errs : list jsstring)
  : M (World E) (list RepositorySyncResult * nat * list jsstring) :=
  match entries with
  | [] => ret (results, total, errs)
  | entry :: rest =>
      let! turn := syncRepository env entry in
      syncRepositoriesLoop env rest (results ++ [pushed turn])
        (total + added turn)%nat (errs ++ reported turn)
  end.

(** [syncMultipleRepositories(repositories)]: the argument is not read, the
    loop runs over [this.config.repositoryConfigs]. *)
Definition syncMultipleRepositories (env : Env) (repositories' : list jsstring)
  : M (World E) MultiRepositorySyncResult :=
  let repoConfigs := repositoryConfigs env in
  let! (results, total, errs) := syncRepositoriesLoop env repoConfigs [] 0%nat [] in
  let overall := forallb success results in
  ret {| overallSuccess := overall; totalItemsUpdated := total;
         repositories := results; errors := errs |}.

End Sync.

(* ===================================================================== *)
(** ** Notions used in the statements *)
(* ===================================================================== *)

(** The mirror of repository [u] holds a file named [f]: the very test that
    [getUniqueWorkspaceName] and [activatePrompt] make. *)
Definition mirrorHas (env : Env) (fs : filesystem) (u f : jsstring) : bool :=
  bool_decide (is_Some (FS.stat fs (FS.joinPath (getRepositoryPath env u) f))).

(** [u] is the URL of a configured repository. *)
Definition configured (env : Env) (u : jsstring) : Prop :=
  In u (map url (repositoryConfigs env)).

(** The path of [name] in the activation directory. *)
Definition activationPath (env : Env) (name : jsstring) : jsstring :=
  FS.joinPath (promptsDirectory env) name.








(** The entry a turn of the sync loop pushes when its [try] block throws. *)
Definition captured (entry : RepoConfig) (err : exn) : RepositorySyncResult :=
  {| repository := url entry; success := false; itemsUpdated := 0;
     error := Some (errorMessage err) |}.

(* ===================================================================== *)
(** ** Concrete configurations *)
(* ===================================================================== *)

Module Examples.

Definition repo (u : string) : RepoConfig :=
  {| url := js u; branch := js "main" |}.

(** A machine with the mirror under [/g/repos] and the activation
    directory [/p]. *)
Definition machine (os : platform) (links : bool) (repos : list RepoConfig) : Env :=
  {| process_platform := os;
     symlink_permitted := links;
     globalStoragePath := js "/g";
     promptsDirectory := js "/p";
     repositoryConfigs := repos;
     syncChatmode := true;
     syncInstructions := false;
     syncPrompt := true;
     hasContext := true |}.

(** The path of [f] in the mirror of [u]. *)
Definition mirrored (env : Env) (u f : string) : jsstring :=
  FS.joinPath (getRepositoryPath env (js u)) (js f).

(** Scenario B: two repositories publish [x.prompt.md]. *)
Definition R1 : string := "https://github.com/org1/prompts".
Definition R2 : string := "https://github.com/org2/prompts".
Definition envB : Env := machine Linux true [repo R1; repo R2].
Definition fsB : filesystem :=
  <[mirrored envB R1 "x.prompt.md" := File (js "one")]>
    (<[mirrored envB R2 "x.prompt.md" := File (js "two")]> ∅).

(** Two GitHub repositories whose owner and name join to the same text. *)
Definition Ra : string := "https://github.com/a-b/c".
Definition Rb : string := "https://github.com/a/b-c".
Definition envAB : Env := machine Linux true [repo Ra; repo Rb].
Definition fsAB : filesystem :=
  <[mirrored envAB Ra "f.md" := File (js "from a-b/c")]>
    (<[mirrored envAB Rb "f.md" := File (js "from a/b-c")]> ∅).

(** A link left behind by a relocated mirror: it points into [/old/repos],
    the mirror now lives in [/g/repos] and holds the file. *)
Definition Ru : string := "https://github.com/o/r".
Definition envU : Env := machine Linux true [repo Ru].
Definition staleTarget : jsstring :=
  js "/old/repos/" ++ encodeRepositorySlug (js Ru) ++ js "/x.prompt.md".
Definition fsStale : filesystem :=
  <[activationPath envU (js "x.prompt.md") := Symlink staleTarget]>
    (<[mirrored envU Ru "x.prompt.md" := File (js "text")]> ∅).

(** A Windows machine without the right to create links, and a note the
    user wrote in the activation directory; no mirror holds anything. *)
Definition envWin : Env := machine Win32 false [repo Ru].
Definition fsNote : filesystem :=
  <[activationPath envWin (js "notes.md") := File (js "mine")]> ∅.

(** A file of the user's at the name an activation will take. *)
Definition fsTaken : filesystem :=
  <[activationPath envU (js "x.prompt.md") := File (js "mine")]>
    (<[mirrored envU Ru "x.prompt.md" := File (js "text")]> ∅).

(** The mirror alone. *)
Definition fsMirror : filesystem :=
  <[mirrored envU Ru "x.prompt.md" := File (js "text")]> ∅.

(** The mirror and the link an activation of [x.prompt.md] makes. *)
Definition fsActive : filesystem :=
  <[activationPath envU (js "x.prompt.md")
      := Symlink (mirrored envU Ru "x.prompt.md")]> fsMirror.

(** A provider without state: the repository is on GitHub, the session is
    authenticated, and the tree is the one given, each file with the text
    [content] gives for its path. *)
Definition staticApi (tree : list GitTreeItem) (content : jsstring -> jsstring)
  : GitApi unit :=
  {| createFromUrl := fun _ => Ok tt;
     getProviderName := fun _ => js "github";
     checkAuthentication := fun _ => ret true;
     requestAuthentication := fun _ => ret true;
     showAuthenticationRequired := ret tt;
     parseRepositoryUrl := fun _ _ => Ok (js "o", js "r");
     getRepositoryTree := fun _ _ _ _ => ret tree;
     getFileContent := fun _ _ _ p _ => ret (content p);
     showSyncError := fun _ e => e |}.

Definition blob (p : string) : GitTreeItem := {| path := js p; type := js "blob" |}.


(** A repository that keeps its prompts in [docs/]. *)
Definition docsTree : list GitTreeItem :=
  [blob "docs/x.prompt.md"; blob "README.md"].
Definition docsApi : GitApi unit := staticApi docsTree (fun _ => js "text").


(** The report of a pass that wrote two files. *)
Definition twoUpdated : MultiRepositorySyncResult :=
  {| overallSuccess := true;
     totalItemsUpdated := 2;
     repositories := [ {| repository := js Ru; success := true;
                          itemsUpdated := 2; error := None |} ];
     errors := [] |}.

(** A repository with one agent and one prompt. *)
Definition pairTree : list GitTreeItem :=
  [blob "agents/a.md"; blob "prompts/b.md"].
Definition pairText (p : jsstring) : jsstring :=
  if str_eqb p (js "agents/a.md") then js "An agent." else js "A prompt.".
Definition pairApi : GitApi unit := staticApi pairTree pairText.

(** The mirror with a link in it: [a.md] points at [b.md], which is not
    there yet. *)
Definition linkedWorld : World unit :=
  {| files := <[mirrored envU Ru "a.md" := Symlink (mirrored envU Ru "b.md")]> ∅;
     ext := tt;
     gitProviders := ∅ |}.

(** What a pass over the pair repository leaves of it: both texts went to
    [b.md], the one fetched last stays. *)
Definition linkedAfter : World unit :=
  {| files := <[mirrored envU Ru "b.md" := File (js "A prompt.")]>
                (<[mirrored envU Ru "a.md" := Symlink (mirrored envU Ru "b.md")]> ∅);
     ext := tt;
     gitProviders := {[js Ru]} |}.




(** Nothing on disk, no provider created yet. *)
Definition emptyWorld : World unit :=
  {| files := ∅; ext := tt; gitProviders := ∅ |}.

End Examples.

(* ===================================================================== *)
(** ** ui/promptTreeProvider.ts: names and the reverse lookup *)
(* ===================================================================== *)

Module Tree.

(** [decodeRepositoryUrl] *)
Definition decodeRepositoryUrl (encodedUrl : jsstring) : jsstring :=
  decodeRepositorySlug encodedUrl.

(** [extractRepositoryUrlFromPath]: the segment after [repos], read back
    with the slug decoder. *)
Definition extractRepositoryUrlFromPath (targetPath : jsstring)
  : option jsstring :=
  let normalizedPath := replaceAll1 92 47 targetPath in
  let pathParts := split1 47 normalizedPath in
  match findIndex (js "repos") pathParts with
  | Some reposIndex =>
      match pathParts !! S reposIndex with
      | Some encodedRepoUrl => Some (decodeRepositoryUrl encodedRepoUrl)
      | None => None
      end
  | None => None
  end.

(** [isPromptFile] of the tree: hidden names and names with a leading
    underscore are left out. *)
Definition isPromptFile (fileName : jsstring) : bool :=
  negb (startsWith fileName (js ".")) && negb (startsWith fileName (js "_"))
  && (endsWith fileName (js ".md") || endsWith fileName (js ".txt")).

End Tree.

(* ===================================================================== *)
(** ** syncManager.ts: the remaining helpers *)
(* ===================================================================== *)

(** [isPromptFile] of the sync manager. *)
Definition isPromptFile (fileName : jsstring) : bool :=
  endsWith fileName (js ".md") || endsWith fileName (js ".txt").

(* ===================================================================== *)
(** ** Notions used in the statements about a pass *)
(* ===================================================================== *)

(** A computation in the world that leaves the disk as it finds it. *)
Definition keeps_files {E A : Type} (m : M (World E) A) : Prop :=
  forall w, files (m w).2 = files w.

(** The three accumulators of the loop over the repositories agree: the
    total is the sum of the counts of the entries, there is one message per
    failed entry, a failed entry counts nothing and carries an error, and an
    entry that succeeded carries none. *)
Definition tallied (results : list RepositorySyncResult) (total : nat)
    (errs : list jsstring) : Prop :=
  total = list_sum (map itemsUpdated results)
  /\ length errs = length (List.filter (fun r => negb (success r)) results)
  /\ Forall (fun r => if success r then error r = None
                      else itemsUpdated r = 0%nat /\ is_Some (error r)) results.

(** What a pass may do to a path: leave it as it is, or leave a regular
    file with a text that is not empty. *)
Definition kept_or_written (before after : filesystem) (p : jsstring) : Prop :=
  after !! p = before !! p
  \/ exists c, c <> [] /\ after !! p = Some (File c).

Module Cases.

(** A provider whose every fetch of a file fails. *)
Definition failingApi (tree : list GitTreeItem) : GitApi unit :=
  {| createFromUrl := fun _ => Ok tt;
     getProviderName := fun _ => js "github";
     checkAuthentication := fun _ => ret true;
     requestAuthentication := fun _ => ret true;
     showAuthenticationRequired := ret tt;
     parseRepositoryUrl := fun _ _ => Ok (js "o", js "r");
     getRepositoryTree := fun _ _ _ _ => ret tree;
     getFileContent := fun _ _ _ _ _ => throw (JsError (js "rate limit exceeded"));
     showSyncError := fun _ e => e |}.



End Cases.

(** The shapes an identifier takes: two or three segments joined by
    dashes, or one segment, none of them holding a slash. *)
Inductive identifier_shape : jsstring -> Prop :=
  | shape_two (a b : jsstring) :
      ~ In 47 a -> ~ In 47 b -> identifier_shape (dash a b)
  | shape_three (a b c : jsstring) :
      ~ In 47 a -> ~ In 47 b -> ~ In 47 c -> identifier_shape (dash a (dash b c))
  | shape_one (a : jsstring) :
      a <> [] -> ~ In 47 a -> identifier_shape a.

(** The disk [createPromptSymlink] works on once it has cleared its target:
    what is readable there is removed first. *)
Definition cleared (target : jsstring) (fs : filesystem) : filesystem :=
  if bool_decide (is_Some (FS.stat fs target)) then delete target fs else fs.

(* ===================================================================== *)
(** ** syncManager.ts: the cleanup of orphaned copies *)
(* ===================================================================== *)

(** A prompt as the tree holds it ([PromptInfo]); of its fields those that
    the code below reads or writes. *)
Module PromptInfo.
Record t := {
  name : jsstring;
  path : jsstring;
  active : bool;
  repositoryUrl : option jsstring;
  workspaceName : option jsstring
}.
End PromptInfo.

(** An entry of a directory listing ([fs.Dirent]). *)
Module Dirent.
Record t := { name : jsstring; isDirectory : bool }.
End Dirent.

(** The loop of [cleanupOrphanedPrompts] over the configured repositories:
    is there a file of that name in some mirror? *)
Fixpoint existsInRepo (env : Env) (entryName : jsstring)
    (repos : list RepoConfig) : M filesystem bool :=
  match repos with
  | [] => ret false
  | repoConfig :: rest =>
      let repoPath := getRepositoryPath env (url repoConfig) in
      let repoFilePath := FS.joinPath repoPath entryName in
      let! found := FS.fileExists repoFilePath in
      if found then ret true else existsInRepo env entryName rest
  end.

(** [allPrompts.some(p => p.name === entry.name && p.active)] *)
Definition isActiveInTree (allPrompts : list PromptInfo.t) (entryName : jsstring)
  : bool :=
  existsb (fun p => str_eqb (PromptInfo.name p) entryName && PromptInfo.active p)
    allPrompts.

(** One turn of the loop of [cleanupOrphanedPrompts]; [treeProvider] is
    what [getAllPrompts] answers when there is a tree, [removed] and [errors]
    are the two accumulators. *)
Definition cleanupOrphanedEntry (env : Env)
    (treeProvider : option (list PromptInfo.t)) (entry : Dirent.t)
    (removed : nat) (errors : list jsstring)
  : M filesystem (nat * list jsstring) :=
  if Dirent.isDirectory entry || startsWith (Dirent.name entry) (js ".")
  then ret (removed, errors)
  else
    let fullPath := FS.joinPath (promptsDirectory env) (Dirent.name entry) in
    try_catch
      (let! fs := get in
       match FS.lstat fs fullPath with
       | None => throw (FsError ENOENT fullPath)
       | Some (Symlink _) => ret (removed, errors)
       | Some (File _) =>
           let! inRepo :=
             existsInRepo env (Dirent.name entry) (repositoryConfigs env) in
           if inRepo then
             let keep :=
               isWin32 env
               && match treeProvider with
                  | Some allPrompts => isActiveInTree allPrompts (Dirent.name entry)
                  | None => false
                  end in
             if keep then ret (removed, errors)
             else
               let! _ := FS.delete fullPath in
               ret (S removed, errors)
           else ret (removed, errors)
       end)
      (fun error =>
         let errorMsg :=
           js "Failed to process " ++ Dirent.name entry ++ js ": "
             ++ errorText error in
         ret (removed, errors ++ [errorMsg])).

Fixpoint cleanupOrphanedLoop (env : Env)
    (treeProvider : option (list PromptInfo.t)) (entries : list Dirent.t)
    (removed : nat) (errors : list jsstring)
  : M filesystem (nat * list jsstring) :=
  match entries with
  | [] => ret (removed, errors)
  | entry :: rest =>
      let! (removed', errors') :=
        cleanupOrphanedEntry env treeProvider entry removed errors in
      cleanupOrphanedLoop env treeProvider rest removed' errors'
  end.

(** [cleanupOrphanedPrompts]; [entries] is the listing that [readdir]
    gives of the prompts directory. *)
Definition cleanupOrphanedPrompts (env : Env)
    (treeProvider : option (list PromptInfo.t)) (entries : list Dirent.t)
  : M filesystem (nat * list jsstring) :=
  try_catch
    (let promptsDir := promptsDirectory env in
     let! _ := FS.ensureDirectoryExists promptsDir in
     cleanupOrphanedLoop env treeProvider entries 0%nat [])
    (fun error => throw error).

(** What the cleanup may do to a path: leave it as it is, or remove the
    regular file of a listed entry that is neither a directory nor hidden. *)
Definition kept_or_removed (env : Env) (entries : list Dirent.t)
    (before after : filesystem) (p : jsstring) : Prop :=
  after !! p = before !! p
  \/ (after !! p = None
      /\ exists entry c,
           In entry entries
           /\ Dirent.isDirectory entry = false
           /\ startsWith (Dirent.name entry) (js ".") = false
           /\ p = activationPath env (Dirent.name entry)
           /\ before !! p = Some (File c)).

(** Whatever can be read on [after] reads the same on [before]. *)
Definition reads_within (before after : filesystem) : Prop :=
  forall p c, FS.stat after p = Some c -> FS.stat before p = Some c.

(* ===================================================================== *)
(** ** configManager.ts: the list of repositories *)
(* ===================================================================== *)

Module Config.

(** The code units [String.prototype.trim] removes: white space and line
    terminators. *)
Definition isWhiteSpace (c : N) : bool :=
  (c =? 9) || (c =? 10) || (c =? 11) || (c =? 12) || (c =? 13) || (c =? 32)
  || (c =? 0xA0) || (c =? 0x1680) || ((0x2000 <=? c) && (c <=? 0x200A))
  || (c =? 0x2028) || (c =? 0x2029) || (c =? 0x202F) || (c =? 0x205F)
  || (c =? 0x3000) || (c =? 0xFEFF).

Fixpoint trimStart (s : jsstring) : jsstring :=
  match s with
  | c :: r => if isWhiteSpace c then trimStart r else s
  | [] => []
  end.

Definition trimEnd (s : jsstring) : jsstring := rev (trimStart (rev s)).

(** [s.trim()] *)
Definition trim (s : jsstring) : jsstring := trimEnd (trimStart s).

(** [Array.from(new Set(l))]: the first occurrence of each string, in
    order; [seen] is what the set holds so far. *)
Fixpoint uniqueFrom (seen l : list jsstring) : list jsstring :=
  match l with
  | [] => []
  | x :: r =>
      if existsb (str_eqb x) seen then uniqueFrom seen r
      else x :: uniqueFrom (x :: seen) r
  end.

(** The getter [repositories] on the stored setting, an array whose
    entries are strings or [null]: the list it returns and whether it asks
    for the setting to be rewritten with that list. *)
Definition repositories (repository : list (option jsstring))
  : list jsstring * bool :=
  let sanitized :=
    List.filter (fun r => (0 <? length r)%nat)
      (map (fun r => trim (default [] r)) repository) in
  let uniqueArray := uniqueFrom [] sanitized in
  (uniqueArray, negb (length uniqueArray =? length repository)%nat).

(** One entry of [repositoryConfigs]: [url|branch], the branch [main] when
    there is none.  [split] never gives an empty array, so the URL is there. *)
Definition repositoryConfig (entry : jsstring) : RepoConfig :=
  let parts := split1 124 entry in
  let url := nth 0 parts [] in
  let branch := parts !! 1%nat in
  {| url := url;
     branch := match branch with
               | Some b => if truthy b && truthy (trim b) then trim b else js "main"
               | None => js "main"
               end |}.

(** The getter [repositoryConfigs]. *)
Definition repositoryConfigs (repository : list (option jsstring))
  : list RepoConfig :=
  map repositoryConfig (repositories repository).1.

End Config.

(* ===================================================================== *)
(** ** ui/promptCommands.ts: toggling a prompt *)
(* ===================================================================== *)

Module Commands.

(** What the command works on: the disk, the prompt object it is handed
    and the [activePrompts] set of the tree.  Status-bar messages,
    notifications, the refresh of the tree and the update of the details view
    touch none of the three and are left out. *)
Record Session := {
  disk : filesystem;
  prompt : PromptInfo.t;
  activePrompts : gset (list N)
}.

Definition withActive (b : bool) (p : PromptInfo.t) : PromptInfo.t :=
  {| PromptInfo.name := PromptInfo.name p;
     PromptInfo.path := PromptInfo.path p;
     PromptInfo.active := b;
     PromptInfo.repositoryUrl := PromptInfo.repositoryUrl p;
     PromptInfo.workspaceName := PromptInfo.workspaceName p |}.

(** [PromptTreeDataProvider.toggleSelection(promptInfo)] *)
Definition treeToggleSelection : M Session unit :=
  modify (fun s =>
    let promptInfo := prompt s in
    if PromptInfo.active promptInfo then
      {| disk := disk s;
         prompt := withActive false promptInfo;
         activePrompts := activePrompts s ∖ {[PromptInfo.path promptInfo]} |}
    else
      {| disk := disk s;
         prompt := withActive true promptInfo;
         activePrompts := {[PromptInfo.path promptInfo]} ∪ activePrompts s |}).

(** Run a file-system computation in the session. *)
Definition onDisk {A} (m : M filesystem A) : M Session A :=
  fun s =>
    let '(r, fs) := m (disk s) in
    (r, {| disk := fs; prompt := prompt s; activePrompts := activePrompts s |}).

(** The update of the prompt after an activation under another name. *)
Definition renamed (env : Env) (actualWorkspaceName : jsstring) (s : Session)
  : Session :=
  {| disk := disk s;
     prompt :=
       {| PromptInfo.name := PromptInfo.name (prompt s);
          PromptInfo.path := FS.joinPath (promptsDirectory env) actualWorkspaceName;
          PromptInfo.active := PromptInfo.active (prompt s);
          PromptInfo.repositoryUrl := PromptInfo.repositoryUrl (prompt s);
          PromptInfo.workspaceName := Some actualWorkspaceName |};
     activePrompts := activePrompts s |}.

(** [promptInfo.workspaceName || promptInfo.name] *)
Definition nameToDeactivate (promptInfo : PromptInfo.t) : jsstring :=
  match PromptInfo.workspaceName promptInfo with
  | Some w => if truthy w then w else PromptInfo.name promptInfo
  | None => PromptInfo.name promptInfo
  end.

(** [PromptCommandManager.toggleSelection(item)] on an item that is a
    prompt; [syncManager] says whether the manager was given one. *)
Definition toggleSelection (env : Env) (syncManager : bool) : M Session unit :=
  try_catch
    (let! _ := treeToggleSelection in
     if syncManager then
       let! s := get in
       let promptInfo := prompt s in
       if PromptInfo.active promptInfo then
         match PromptInfo.repositoryUrl promptInfo with
         | Some repositoryUrl =>
             if truthy repositoryUrl then
               try_catch
                 (let! actualWorkspaceName :=
                    onDisk (activatePrompt env (PromptInfo.name promptInfo)
                              (Some repositoryUrl)) in
                  when (negb (str_eqb actualWorkspaceName
                                (PromptInfo.name promptInfo)))
                    (modify (renamed env actualWorkspaceName)))
                 (fun activationError =>
                    let! _ := treeToggleSelection in
                    throw activationError)
             else treeToggleSelection
         | None => treeToggleSelection
         end
       else
         try_catch
           (onDisk (deactivatePrompt env (nameToDeactivate promptInfo)))
           (fun deactivationError =>
              let! _ := treeToggleSelection in
              throw deactivationError)
     else treeToggleSelection)
    (fun error => try_catch treeToggleSelection (fun _ => ret tt)).

(** [`${counter}`] for a counter: its decimal digits. *)
Fixpoint uintChars (d : Decimal.uint) : jsstring :=
  match d with
  | Decimal.Nil => []
  | Decimal.D0 d' => 48 :: uintChars d'
  | Decimal.D1 d' => 49 :: uintChars d'
  | Decimal.D2 d' => 50 :: uintChars d'
  | Decimal.D3 d' => 51 :: uintChars d'
  | Decimal.D4 d' => 52 :: uintChars d'
  | Decimal.D5 d' => 53 :: uintChars d'
  | Decimal.D6 d' => 54 :: uintChars d'
  | Decimal.D7 d' => 55 :: uintChars d'
  | Decimal.D8 d' => 56 :: uintChars d'
  | Decimal.D9 d' => 57 :: uintChars d'
  end.

Definition decimal (n : nat) : jsstring := uintChars (Nat.to_uint n).

(** [name.replace(/\.[^/.]+$/, '')]: the last dot and what follows it are
    cut when something follows and no slash is in it. *)
Definition stripExtension (name : jsstring) : jsstring :=
  match lastIndexOf 46 name with
  | Some i =>
      let after := drop (S i) name in
      if (0 <? length after)%nat && forallb (fun c => negb (c =? 47)) after
      then take i name
      else name
  | None => name
  end.

(** The [while] loop of [duplicatePrompt]: [fuel] bounds the number of turns,
    and the answer is [None] when they are used up. *)
Fixpoint uniqueCopyName (fuel : nat) (env : Env)
    (baseName extension newName : jsstring) (counter : nat)
  : M filesystem (option jsstring) :=
  match fuel with
  | O => ret None
  | S fuel' =>
      let! taken := FS.fileExists (FS.joinPath (promptsDirectory env) newName) in
      if taken then
        uniqueCopyName fuel' env baseName extension
          (baseName ++ js "_copy" ++ decimal counter ++ extension) (S counter)
      else ret (Some newName)
  end.

(** [PromptCommandManager.duplicatePrompt(item)] on an item that is a
    prompt.  The answer is what the command shows: the new name, or the
    error it caught; [None] when the loop did not end within [fuel] turns. *)
Definition duplicatePrompt (fuel : nat) (env : Env) (promptInfo : PromptInfo.t)
  : M filesystem (option (result jsstring)) :=
  try_catch
    (let baseName := stripExtension (PromptInfo.name promptInfo) in
     let extension :=
       substringFrom (length baseName) (PromptInfo.name promptInfo) in
     let newName := baseName ++ js "_copy" ++ extension in
     let promptsDir := promptsDirectory env in
     let! found := uniqueCopyName fuel env baseName extension newName 1 in
     match found with
     | None => ret None
     | Some newName =>
         let newPath := FS.joinPath promptsDir newName in
         let! content := FS.readFileContent (PromptInfo.path promptInfo) in
         let! _ := FS.writeFileContent newPath content in
         ret (Some (Ok newName))
     end)
    (fun error => ret (Some (Throw error))).

(** The part of the [i]-th name tried between [_copy] and the extension. *)
Definition copyMark (i : nat) : jsstring :=
  match i with
  | O => []
  | S _ => decimal i
  end.

End Commands.

(** A code unit as a volume that does not tell upper case from lower case
    compares it: a capital Latin letter becomes the small one. *)
Definition foldCase (c : N) : N :=
  if (65 <=? c) && (c <=? 90) then c + 32 else c.

(* ===================================================================== *)
(** * Properties *)
(* ===================================================================== *)

(** ** Lists and strings *)

(** Induction three elements at a time, as the base64 encoder consumes its
    input. *)
Lemma list_ind3 {A} (P : list A -> Prop) :
  P [] -> (forall a, P [a]) -> (forall a b, P [a; b]) ->
  (forall a b c l, P l -> P (a :: b :: c :: l)) ->
  forall l, P l.
Proof.
  intros H0 H1 H2 H3 l.
  assert (Hall : P l /\ (forall a, P (a :: l)) /\ (forall a b, P (a :: b :: l))).
  { induction l as [|x l (IH0 & IH1 & IH2)]; [auto|].
    split; [apply IH1|]. split; intros; [apply IH2 | apply H3, IH0]. }
  apply Hall.
Qed.

Lemma str_eqb_true (a b : jsstring) : str_eqb a b = true <-> a = b.
Proof.
  revert b. induction a as [|x a IH]; intros [|y b]; cbn; try easy.
  rewrite andb_true_iff, N.eqb_eq, IH. split; [now intros [-> ->] | now intros [= -> ->]].
Qed.

Lemma str_eqb_false (a b : jsstring) : str_eqb a b = false <-> a <> b.
Proof. rewrite <- str_eqb_true. now destruct (str_eqb a b). Qed.

(** ** Base64url *)

Module BufferFacts.
Import Buffer.

Lemma unbase64_b64_char (i : N) :
  i < 64 -> (b64_char i =? 61) = false /\ unbase64 (b64_char i) = Some i.
Proof.
  intros Hi.
  assert (Hall : forallb (fun n =>
            negb (b64_char (N.of_nat n) =? 61)
            && bool_decide (unbase64 (b64_char (N.of_nat n)) = Some (N.of_nat n)))
            (seq 0 64) = true) by (vm_compute; reflexivity).
  rewrite forallb_forall in Hall.
  specialize (Hall (N.to_nat i)).
  rewrite N2Nat.id in Hall.
  assert (Hin : In (N.to_nat i) (seq 0 64)) by (apply in_seq; lia).
  apply Hall, andb_prop in Hin as [H1 H2].
  split; [now apply negb_true_iff | now apply bool_decide_eq_true in H2].
Qed.

Lemma sextets_b64_char (i : N) (r : jsstring) :
  i < 64 -> sextets (b64_char i :: r) = i :: sextets r.
Proof.
  intros Hi. destruct (unbase64_b64_char i Hi) as [H1 H2].
  simpl. now rewrite H1, H2.
Qed.

Lemma base64url_roundtrip (bs : list N) :
  Forall (fun b => b < 256) bs ->
  base64url_decode (base64url_encode bs) = bs.
Proof.
  unfold base64url_decode.
  induction bs as [|a|a b|a b c l IH] using list_ind3; intros Hb.
  - reflexivity.
  - apply Forall_cons_1 in Hb as [Ha _].
    cbn [base64url_encode].
    rewrite !sextets_b64_char by lia.
    cbn [sextets bytes_of_sextets]. f_equal. lia.
  - apply Forall_cons_1 in Hb as [Ha [Hb' _]%Forall_cons_1].
    cbn [base64url_encode].
    rewrite !sextets_b64_char by lia.
    cbn [sextets bytes_of_sextets]. repeat f_equal; lia.
  - apply Forall_cons_1 in Hb as [Ha [Hb' [Hc Hl]%Forall_cons_1]%Forall_cons_1].
    cbn [base64url_encode].
    rewrite !sextets_b64_char by lia.
    cbn [bytes_of_sextets]. rewrite (IH Hl). repeat f_equal; lia.
Qed.

End BufferFacts.

(** ** UTF-8 *)

Module Utf8Facts.
Import Buffer.

(** Settle the comparisons of a decoder step by arithmetic. *)
Ltac settle1 :=
  match goal with
  | |- context [N.ltb ?a ?b] =>
      first [ rewrite (proj2 (N.ltb_lt a b)) by lia
            | rewrite (proj2 (N.ltb_ge a b)) by lia ]
  | |- context [N.leb ?a ?b] =>
      first [ rewrite (proj2 (N.leb_le a b)) by lia
            | rewrite (proj2 (N.leb_gt a b)) by lia ]
  | |- context [N.eqb ?a ?b] =>
      first [ rewrite (proj2 (N.eqb_eq a b)) by lia
            | rewrite (proj2 (N.eqb_neq a b)) by lia
            | destruct (N.eqb_spec a b) ]
  end.
Ltac settle := repeat (cbn [andb orb negb]; settle1); cbn [andb orb negb].

Lemma decode_two (q r : N) (rest : list N) :
  2 <= q -> q < 32 -> r < 64 ->
  utf8_decode_points (0xC0 + q :: 0x80 + r :: rest)
  = (q * 64 + r) :: utf8_decode_points rest.
Proof.
  intros. cbn [utf8_decode_points]. unfold is_continuation.
  settle. f_equal. lia.
Qed.

Lemma decode_three (q1 q2 r : N) (rest : list N) :
  q1 < 16 -> q2 < 64 -> r < 64 ->
  (q1 = 0 -> 32 <= q2) -> (q1 = 13 -> q2 < 32) ->
  utf8_decode_points (0xE0 + q1 :: 0x80 + q2 :: 0x80 + r :: rest)
  = (q1 * 4096 + q2 * 64 + r) :: utf8_decode_points rest.
Proof.
  intros. cbn [utf8_decode_points]. unfold second_ok, is_continuation.
  settle; f_equal; lia.
Qed.

Lemma decode_four (q1 q2 q3 r : N) (rest : list N) :
  q1 <= 4 -> q2 < 64 -> q3 < 64 -> r < 64 ->
  (q1 = 0 -> 16 <= q2) -> (q1 = 4 -> q2 < 16) ->
  utf8_decode_points (0xF0 + q1 :: 0x80 + q2 :: 0x80 + q3 :: 0x80 + r :: rest)
  = (q1 * 262144 + q2 * 4096 + q3 * 64 + r) :: utf8_decode_points rest.
Proof.
  intros. cbn [utf8_decode_points]. unfold second_ok, is_continuation.
  settle; f_equal; lia.
Qed.

Lemma utf8_bytes_bound (cp : N) :
  cp < 0x110000 -> Forall (fun b => b < 256) (utf8_bytes cp).
Proof.
  intros Hcp. unfold utf8_bytes.
  destruct (N.ltb_spec cp 0x80); [|destruct (N.ltb_spec cp 0x800);
    [|destruct (N.ltb_spec cp 0x10000)]];
    repeat constructor; lia.
Qed.

(** The decoder reads back the bytes of a scalar value. *)
Lemma decode_utf8_bytes (cp : N) (rest : list N) :
  cp < 0x110000 -> (cp < 0xD800 \/ 0xDFFF < cp) ->
  utf8_decode_points (utf8_bytes cp ++ rest) = cp :: utf8_decode_points rest.
Proof.
  intros Hcp Hs. unfold utf8_bytes.
  destruct (N.ltb_spec cp 0x80); [|destruct (N.ltb_spec cp 0x800);
    [|destruct (N.ltb_spec cp 0x10000)]]; cbn [app].
  - cbn [utf8_decode_points]. settle. reflexivity.
  - rewrite decode_two by lia. f_equal. lia.
  - rewrite decode_three by lia. f_equal. lia.
  - rewrite decode_four by lia. f_equal. lia.
Qed.

End Utf8Facts.

Module SlugFacts.
Import Buffer Utf8Facts.

Lemma surrogate_pair_units (c d : N) :
  is_high_surrogate c = true -> is_low_surrogate d = true ->
  let cp := 0x10000 + (c - 0xD800) * 0x400 + (d - 0xDC00) in
  cp < 0x110000 /\ 0xDFFF < cp /\ utf16_units cp = [c; d].
Proof.
  unfold is_high_surrogate, is_low_surrogate.
  intros [Hc1%N.leb_le Hc2%N.leb_le]%andb_prop [Hd1%N.leb_le Hd2%N.leb_le]%andb_prop.
  cbv zeta. split; [lia|]. split; [lia|].
  unfold utf16_units. rewrite (proj2 (N.ltb_ge _ _)) by lia.
  repeat f_equal; lia.
Qed.

Lemma unit_units (c : N) :
  c < 0x10000 -> utf16_units c = [c].
Proof. intros H. unfold utf16_units. now rewrite (proj2 (N.ltb_lt _ _)). Qed.

(** Encoding then decoding a well-formed string by length. *)
Lemma utf8_roundtrip_upto (n : nat) (s : jsstring) :
  (length s <= n)%nat -> well_formed s = true ->
  utf8_decode (utf8_encode s) = s
  /\ Forall (fun b => b < 256) (utf8_encode s).
Proof.
  unfold utf8_decode. revert s.
  induction n as [|n IH]; intros s Hlen Hwf.
  - destruct s; [split; [reflexivity | constructor] | simpl in Hlen; lia].
  - destruct s as [|c rest]; [split; [reflexivity | constructor]|].
    cbn [well_formed utf8_encode] in *.
    destruct (is_high_surrogate c) eqn:Hhi.
    + destruct rest as [|d rest']; [discriminate|].
      apply andb_prop in Hwf as [Hlo Hwf]. rewrite Hlo.
      destruct (surrogate_pair_units c d Hhi Hlo) as (Hb & Hs & Hu).
      destruct (IH rest') as [IH1 IH2]; [simpl in Hlen; lia | assumption |].
      split.
      * rewrite decode_utf8_bytes by (assumption || now right).
        cbn [flat_map]. rewrite Hu, IH1. reflexivity.
      * apply Forall_app. split; [now apply utf8_bytes_bound | assumption].
    + apply andb_prop in Hwf as [[Hlo Hlt]%andb_prop Hwf].
      apply negb_true_iff in Hlo. rewrite Hlo. apply N.ltb_lt in Hlt.
      destruct (IH rest) as [IH1 IH2]; [simpl in Hlen; lia | assumption |].
      assert (Hs : c < 0xD800 \/ 0xDFFF < c).
      { unfold is_high_surrogate, is_low_surrogate in Hhi, Hlo.
        apply andb_false_iff in Hhi, Hlo.
        rewrite !N.leb_gt in Hhi, Hlo. lia. }
      split.
      * rewrite decode_utf8_bytes by (assumption || lia).
        cbn [flat_map]. rewrite unit_units, IH1 by assumption. reflexivity.
      * apply Forall_app. split; [apply utf8_bytes_bound; lia | assumption].
Qed.

Lemma utf8_roundtrip (s : jsstring) :
  well_formed s = true -> utf8_decode (utf8_encode s) = s.
Proof. intros H. now apply (utf8_roundtrip_upto (length s) s). Qed.

Lemma utf8_encode_bytes (s : jsstring) :
  well_formed s = true -> Forall (fun b => b < 256) (utf8_encode s).
Proof. intros H. now apply (utf8_roundtrip_upto (length s) s). Qed.

(** A string of ASCII characters, as a URL is, is well-formed. *)
Lemma ascii_well_formed (s : jsstring) :
  Forall (fun c => c < 0x80) s -> well_formed s = true.
Proof.
  induction 1 as [|c rest Hc _ IH]; [reflexivity|].
  cbn [well_formed]. unfold is_high_surrogate, is_low_surrogate.
  rewrite (proj2 (N.leb_gt 0xD800 c)) by lia.
  rewrite (proj2 (N.leb_gt 0xDC00 c)) by lia.
  rewrite (proj2 (N.ltb_lt c 0x10000)) by lia.
  cbn [andb negb]. exact IH.
Qed.

End SlugFacts.

(** C2: for every repository URL [u], decoding the slug of [u] gives [u]
    back.  A URL is text: as a JavaScript string it is well-formed UTF-16,
    every surrogate code unit being half of a pair, which is what
    [Buffer.well_formed] says of the string; a URL written in ASCII is such
    a string ([SlugFacts.ascii_well_formed]), and so is one that holds
    letters of any script. *)
Theorem slug_roundtrip_well_formed (u : jsstring) :
  Buffer.well_formed u = true ->
  decodeRepositorySlug (encodeRepositorySlug u) = u.
Proof.
  intros Hwf. unfold decodeRepositorySlug, encodeRepositorySlug.
  rewrite BufferFacts.base64url_roundtrip
    by now apply SlugFacts.utf8_encode_bytes.
  now apply SlugFacts.utf8_roundtrip.
Qed.

Lemma slug_roundtrip_well_formed_witness :
  Buffer.well_formed (js "https://github.com/o/r") = true
  /\ decodeRepositorySlug (encodeRepositorySlug (js "https://github.com/o/r"))
     = js "https://github.com/o/r".
Proof.
  split; [reflexivity|].
  apply (slug_roundtrip_well_formed (js "https://github.com/o/r")).
  reflexivity.
Defined.

(** Where the domain ends: a string with an unpaired surrogate is no URL
    and no text; its lone surrogate is written as U+FFFD, so the slug of the
    one-unit string [0xD800] decodes to another string. *)
Lemma slug_roundtrip_lone_surrogate :
  decodeRepositorySlug (encodeRepositorySlug [0xD800]) = [0xFFFD]
  /\ decodeRepositorySlug (encodeRepositorySlug [0xD800]) <> [0xD800].
Proof. split; [reflexivity | discriminate]. Qed.

(** ** Workspace names *)

Module NameFacts.

Lemma reposWithFile_spec (env : Env) (f : jsstring) (repos : list RepoConfig)
    (acc : list jsstring) (fs : filesystem) :
  reposWithFile env f repos acc fs
  = (Ok (acc ++ map url (List.filter (fun rc => mirrorHas env fs (url rc) f) repos)), fs).
Proof.
  revert acc. induction repos as [|rc rest IH]; intros acc.
  - cbn. now rewrite app_nil_r.
  - cbn [reposWithFile]. unfold bind at 1. unfold FS.fileExists at 1.
    rewrite IH. cbn [List.filter]. unfold mirrorHas at 2.
    destruct (bool_decide _); [|reflexivity].
    cbn [map]. now rewrite <- app_assoc.
Qed.

Lemma two_distinct_length {A} (x y : A) (l : list A) :
  In x l -> In y l -> x <> y -> (2 <= length l)%nat.
Proof.
  intros Hx Hy Hne.
  destruct l as [|a [|b l]]; cbn in *; [tauto | | lia].
  destruct Hx as [->|[]], Hy as [->|[]]. congruence.
Qed.

(** With the file in the mirrors of two configured repositories, the name
    is the suffixed one. *)
Lemma getUniqueWorkspaceName_collision (env : Env) (fs : filesystem)
    (u1 u2 u f : jsstring) :
  u1 <> u2 -> configured env u1 -> configured env u2 ->
  mirrorHas env fs u1 f = true -> mirrorHas env fs u2 f = true ->
  getUniqueWorkspaceName env f u fs
  = (Ok (suffixedName f (getRepositoryIdentifier u)), fs).
Proof.
  intros Hne H1 H2 M1 M2. unfold getUniqueWorkspaceName, bind.
  rewrite reposWithFile_spec. cbn [app].
  assert (Hin : forall v, configured env v -> mirrorHas env fs v f = true ->
            In v (map url (List.filter (fun rc => mirrorHas env fs (url rc) f)
                             (repositoryConfigs env)))).
  { intros v Hv Mv. apply in_map_iff in Hv as (rc & <- & Hrc).
    apply in_map, filter_In. now split. }
  pose proof (two_distinct_length u1 u2 _ (Hin _ H1 M1) (Hin _ H2 M2) Hne) as Hlen.
  destruct (Nat.leb_spec (length (map url (List.filter
              (fun rc => mirrorHas env fs (url rc) f) (repositoryConfigs env)))) 1);
    [lia | reflexivity].
Qed.

(** The suffixed name is the file name with ["@" ++ id] put in at a place
    that depends on the file name alone. *)
Lemma suffixedName_shape (f : jsstring) :
  exists pre post, pre ++ post = f
    /\ forall id, suffixedName f id = pre ++ js "@" ++ id ++ post.
Proof.
  unfold suffixedName. destruct (lastIndexOf 46 f) as [[|i]|].
  - exists f, []. split; [apply app_nil_r|]. intros id. now rewrite app_nil_r.
  - exists (take (S i) f), (drop (S i) f). split; [apply take_drop|].
    intros id. unfold substring, substringFrom. now rewrite Nat.sub_0_r.
  - exists f, []. split; [apply app_nil_r|]. intros id. now rewrite app_nil_r.
Qed.

Lemma suffixedName_changes (f id : jsstring) : suffixedName f id <> f.
Proof.
  destruct (suffixedName_shape f) as (pre & post & Hf & Hs).
  rewrite Hs. intros Heq. apply (f_equal (@length N)) in Heq.
  rewrite <- Hf in Heq. rewrite !length_app in Heq. cbn in Heq. lia.
Qed.

Lemma suffixedName_inj (f id1 id2 : jsstring) :
  suffixedName f id1 = suffixedName f id2 <-> id1 = id2.
Proof.
  split; [|now intros ->].
  destruct (suffixedName_shape f) as (pre & post & Hf & Hs).
  rewrite !Hs. intros Heq.
  apply app_inv_head in Heq. apply app_inv_head in Heq.
  now apply app_inv_tail in Heq.
Qed.

Lemma lastIndexOf_from_absent (i : nat) (c : N) (s : jsstring) :
  ~ In c s -> lastIndexOf_from i c s = None.
Proof.
  revert i. induction s as [|x s IH]; intros i Hc; [reflexivity|].
  cbn. rewrite IH by (intros H; apply Hc; now right).
  destruct (N.eqb_spec x c); [|reflexivity]. exfalso. apply Hc. now left.
Qed.

Lemma lastIndexOf_from_last (i : nat) (c : N) (base ext : jsstring) :
  ~ In c ext ->
  lastIndexOf_from i c (base ++ c :: ext) = Some (i + length base)%nat.
Proof.
  intros Hc. revert i. induction base as [|x base IH]; intros i.
  - cbn. rewrite lastIndexOf_from_absent by assumption.
    rewrite N.eqb_refl. f_equal. lia.
  - cbn. rewrite IH. f_equal. lia.
Qed.

(** A name [base.ext] whose [ext] has no dot gets the identifier between
    [base] and [.ext]. *)
Lemma suffixedName_last_dot (base ext id : jsstring) :
  base <> [] -> ~ In 46 ext ->
  suffixedName (base ++ js "." ++ ext) id = base ++ js "@" ++ id ++ js "." ++ ext.
Proof.
  intros Hb Hc. unfold suffixedName, lastIndexOf.
  change (js "." ++ ext) with (46 :: ext).
  rewrite lastIndexOf_from_last by assumption. cbn [Nat.add].
  destruct (length base) as [|n] eqn:Hlen.
  { apply length_zero_iff_nil in Hlen. congruence. }
  unfold substring, substringFrom. rewrite Nat.sub_0_r, <- Hlen.
  now rewrite drop_0, take_app_length, drop_app_length.
Qed.

End NameFacts.

(** C3, as amended: when two configured repositories both have a file
    [base.ext] in their mirrors, [ext] being the part after the last dot, the
    workspace name computed for a repository is [base@<id>.ext]: the
    identifier goes in front of the last extension only.  For [x.prompt.md]
    the names are [x.prompt@<id1>.md] and [x.prompt@<id2>.md]. *)
Theorem workspace_name_before_last_extension (env : Env) (fs : filesystem)
    (u1 u2 u base ext : jsstring) :
  base <> [] -> ~ In 46 ext ->
  u1 <> u2 -> configured env u1 -> configured env u2 ->
  mirrorHas env fs u1 (base ++ js "." ++ ext) = true ->
  mirrorHas env fs u2 (base ++ js "." ++ ext) = true ->
  getUniqueWorkspaceName env (base ++ js "." ++ ext) u fs
  = (Ok (base ++ js "@" ++ getRepositoryIdentifier u ++ js "." ++ ext), fs).
Proof.
  intros Hb Hc Hne H1 H2 M1 M2.
  rewrite (NameFacts.getUniqueWorkspaceName_collision env fs u1 u2) by assumption.
  now rewrite NameFacts.suffixedName_last_dot.
Qed.

Lemma workspace_name_before_last_extension_witness :
  getUniqueWorkspaceName Examples.envB (js "x.prompt.md") (js Examples.R1) Examples.fsB
  = (Ok (js "x.prompt@org1-prompts.md"), Examples.fsB).
Proof.
  apply (workspace_name_before_last_extension Examples.envB Examples.fsB
           (js Examples.R1) (js Examples.R2) (js Examples.R1)
           (js "x.prompt") (js "md")).
  - discriminate.
  - cbn. intuition discriminate.
  - discriminate.
  - cbn. tauto.
  - cbn. tauto.
  - compute_done.
  - compute_done.
Defined.

(** C3, as stated, fails in scenario B: the names computed for
    [x.prompt.md] are [x.prompt@org1-prompts.md] and
    [x.prompt@org2-prompts.md], not [x@org1-prompts.prompt.md] and
    [x@org2-prompts.prompt.md]. *)
Lemma scenario_B_names :
  (getUniqueWorkspaceName Examples.envB (js "x.prompt.md") (js Examples.R1) Examples.fsB).1
    = Ok (js "x.prompt@org1-prompts.md")
  /\ (getUniqueWorkspaceName Examples.envB (js "x.prompt.md") (js Examples.R2) Examples.fsB).1
    = Ok (js "x.prompt@org2-prompts.md")
  /\ (getUniqueWorkspaceName Examples.envB (js "x.prompt.md") (js Examples.R1) Examples.fsB).1
    <> Ok (js "x@org1-prompts.prompt.md")
  /\ (getUniqueWorkspaceName Examples.envB (js "x.prompt.md") (js Examples.R2) Examples.fsB).1
    <> Ok (js "x@org2-prompts.prompt.md").
Proof.
  assert (H1 : (getUniqueWorkspaceName Examples.envB (js "x.prompt.md")
                  (js Examples.R1) Examples.fsB).1
               = Ok (js "x.prompt@org1-prompts.md")) by (compute_done).
  assert (H2 : (getUniqueWorkspaceName Examples.envB (js "x.prompt.md")
                  (js Examples.R2) Examples.fsB).1
               = Ok (js "x.prompt@org2-prompts.md")) by (compute_done).
  rewrite H1, H2. repeat split; discriminate.
Qed.

(** What does hold of two colliding repositories: for distinct configured
    repositories whose mirrors both hold [f], neither computed workspace name
    is the bare [f], and the two names differ whenever the identifiers that
    [getRepositoryIdentifier] derives from the two URLs differ. *)
Theorem workspace_names_differ_when_identifiers_differ (env : Env)
    (fs : filesystem) (u1 u2 f : jsstring) :
  u1 <> u2 -> configured env u1 -> configured env u2 ->
  mirrorHas env fs u1 f = true -> mirrorHas env fs u2 f = true ->
  exists n1 n2,
    getUniqueWorkspaceName env f u1 fs = (Ok n1, fs)
    /\ getUniqueWorkspaceName env f u2 fs = (Ok n2, fs)
    /\ n1 <> f /\ n2 <> f
    /\ (getRepositoryIdentifier u1 <> getRepositoryIdentifier u2 -> n1 <> n2).
Proof.
  intros Hne H1 H2 M1 M2.
  exists (suffixedName f (getRepositoryIdentifier u1)),
         (suffixedName f (getRepositoryIdentifier u2)).
  rewrite !(NameFacts.getUniqueWorkspaceName_collision env fs u1 u2) by assumption.
  repeat split; try apply NameFacts.suffixedName_changes.
  now rewrite NameFacts.suffixedName_inj.
Qed.

Lemma workspace_names_differ_when_identifiers_differ_witness :
  getRepositoryIdentifier (js Examples.R1) <> getRepositoryIdentifier (js Examples.R2)
  /\ exists n1 n2,
    getUniqueWorkspaceName Examples.envB (js "x.prompt.md") (js Examples.R1) Examples.fsB
      = (Ok n1, Examples.fsB)
    /\ getUniqueWorkspaceName Examples.envB (js "x.prompt.md") (js Examples.R2) Examples.fsB
      = (Ok n2, Examples.fsB)
    /\ n1 <> js "x.prompt.md" /\ n2 <> js "x.prompt.md"
    /\ (getRepositoryIdentifier (js Examples.R1)
          <> getRepositoryIdentifier (js Examples.R2) -> n1 <> n2).
Proof.
  split; [compute_done|].
  apply (workspace_names_differ_when_identifiers_differ Examples.envB Examples.fsB
           (js Examples.R1) (js Examples.R2) (js "x.prompt.md")).
  - discriminate.
  - cbn. tauto.
  - cbn. tauto.
  - compute_done.
  - compute_done.
Defined.

(** C4: the names are not unique.  [github.com/a-b/c] and
    [github.com/a/b-c] are distinct repositories, both configured, both
    mirrors hold [f.md], and both get the workspace name [f@a-b-c.md]:
    [getRepositoryIdentifier] joins owner and name with a dash, which either
    may hold, so the "unique workspace filename" of the docstring of
    [getUniqueWorkspaceName] is one name for two files. *)
Lemma same_identifier_same_name :
  js Examples.Ra <> js Examples.Rb
  /\ mirrorHas Examples.envAB Examples.fsAB (js Examples.Ra) (js "f.md") = true
  /\ mirrorHas Examples.envAB Examples.fsAB (js Examples.Rb) (js "f.md") = true
  /\ (getUniqueWorkspaceName Examples.envAB (js "f.md") (js Examples.Ra) Examples.fsAB).1
     = Ok (js "f@a-b-c.md")
  /\ (getUniqueWorkspaceName Examples.envAB (js "f.md") (js Examples.Rb) Examples.fsAB).1
     = Ok (js "f@a-b-c.md").
Proof.
  split; [discriminate|]. repeat split; compute_done.
Qed.

(** Two spellings of one repository, [.../o/r] and [.../o/r.git], are two
    URLs with one identifier: the [.git] ending is dropped on purpose. *)
Lemma git_suffix_same_identifier :
  js "https://github.com/o/r" <> js "https://github.com/o/r.git"
  /\ getRepositoryIdentifier (js "https://github.com/o/r") = js "o-r"
  /\ getRepositoryIdentifier (js "https://github.com/o/r.git") = js "o-r".
Proof. split; [discriminate|]. split; compute_done. Qed.

(** ** Activation and deactivation *)

Module ActivationFacts.

Lemma stat_absent (fs : filesystem) (p : jsstring) :
  fs !! p = None -> FS.stat fs p = None.
Proof. intros H. unfold FS.stat. cbn. now rewrite H. Qed.

Lemma fileExists_eq (p : jsstring) (fs : filesystem) :
  FS.fileExists p fs = (Ok (bool_decide (is_Some (FS.stat fs p))), fs).
Proof. reflexivity. Qed.

Lemma stat_is_Some_lookup (fs : filesystem) (p : jsstring) :
  is_Some (FS.stat fs p) -> is_Some (fs !! p).
Proof.
  intros [c Hc]. destruct (fs !! p) eqn:Hp; [eauto|].
  now rewrite stat_absent in Hc.
Qed.

(** [getUniqueWorkspaceName] reads and never writes. *)
Lemma getUniqueWorkspaceName_reads (env : Env) (f u : jsstring) (fs : filesystem) :
  exists name, getUniqueWorkspaceName env f u fs = (Ok name, fs).
Proof.
  unfold getUniqueWorkspaceName, bind. rewrite NameFacts.reposWithFile_spec.
  destruct (_ <=? _)%nat; eauto.
Qed.

(** What [removePromptSymlink] does, case by case. *)
Lemma removePromptSymlink_cases (env : Env) (target : jsstring) (fs : filesystem) :
  removePromptSymlink env target fs =
    if bool_decide (is_Some (FS.stat fs target)) then
      match fs !! target with
      | Some (Symlink _) => (Ok tt, delete target fs)
      | Some (File _) =>
          if isWin32 env then (Ok tt, delete target fs) else (Ok tt, fs)
      | None => (Throw (FsError ENOENT target), fs)
      end
    else (Ok tt, fs).
Proof.
  unfold removePromptSymlink, try_catch, bind. rewrite fileExists_eq.
  destruct (bool_decide _); [|reflexivity].
  unfold get, FS.lstat.
  destruct (fs !! target) as [[c|t]|] eqn:Hl; unfold FS.delete, throw, ret;
    rewrite ?Hl; try reflexivity.
  destruct (isWin32 env); [now rewrite Hl | reflexivity].
Qed.

Lemma deactivatePrompt_eq (env : Env) (name : jsstring) (fs : filesystem) :
  deactivatePrompt env name fs = removePromptSymlink env (activationPath env name) fs.
Proof.
  unfold deactivatePrompt, try_catch, activationPath.
  destruct (removePromptSymlink _ _ fs) as [[|e] fs']; reflexivity.
Qed.

Lemma stat_file (fs : filesystem) (p c : jsstring) :
  fs !! p = Some (File c) -> FS.stat fs p = Some c.
Proof. intros H. unfold FS.stat. cbn. now rewrite H, H. Qed.

(** Creating the projection at a name that holds nothing: a link, or on
    win32 a copy. *)
Lemma createPromptSymlink_fresh (env : Env) (source target : jsstring)
    (fs fs1 : filesystem) :
  fs !! target = None ->
  createPromptSymlink env source target fs = (Ok tt, fs1) ->
  (fs1 = <[target := Symlink source]> fs /\ is_Some (FS.stat fs1 target))
  \/ (exists c, fs1 = <[target := File c]> fs /\ isWin32 env = true).
Proof.
  intros Hnone. unfold createPromptSymlink, bind, FS.ensureDirectoryExists, ret.
  rewrite fileExists_eq, (stat_absent _ _ Hnone).
  cbn [bool_decide decide_rel is_Some_dec when ret].
  unfold try_catch at 1. unfold FS.symlink.
  destruct (symlink_permitted env); cbn [negb].
  - rewrite Hnone, fileExists_eq.
    destruct (bool_decide_reflect
                (is_Some (FS.stat (<[target:=Symlink source]> fs) target)));
      cbn [negb]; intros [= <-]; left; auto.
  - cbn [isEPERM]. rewrite andb_true_r.
    destruct (isWin32 env); [|discriminate].
    unfold try_catch, bind, FS.readFileContent.
    destruct (FS.stat fs source) as [c|]; [|discriminate].
    unfold FS.writeFileContent. cbn [FS.writepath FS.max_links].
    rewrite Hnone, fileExists_eq.
    rewrite (stat_file _ target c) by apply lookup_insert_eq.
    cbn. intros [= <-]. right. eauto.
Qed.

End ActivationFacts.

(** C10: when the repository URL is missing (absent or empty) or the source
    file is not in that repository's mirror, [activatePrompt] throws and the
    file system, activation directory included, is what it was. *)
Theorem activate_without_source_throws (env : Env) (promptPath : jsstring)
    (repositoryUrl : option jsstring) (fs : filesystem) :
  repositoryUrl = None \/ repositoryUrl = Some []
  \/ (exists u, repositoryUrl = Some u /\ mirrorHas env fs u promptPath = false) ->
  exists e, activatePrompt env promptPath repositoryUrl fs = (Throw e, fs).
Proof.
  intros [->|[->|(u & -> & Hm)]]; [cbn; eauto | cbn; eauto|].
  unfold activatePrompt. destruct (truthy u); [|cbn; eauto].
  cbn [negb]. unfold try_catch, bind. rewrite ActivationFacts.fileExists_eq.
  unfold mirrorHas in Hm. rewrite Hm. cbn. eauto.
Qed.

Lemma activate_without_source_throws_witness :
  exists e, activatePrompt Examples.envU (js "y.prompt.md") (Some (js Examples.Ru))
              Examples.fsTaken = (Throw e, Examples.fsTaken).
Proof.
  apply (activate_without_source_throws Examples.envU (js "y.prompt.md")
           (Some (js Examples.Ru)) Examples.fsTaken).
  right. right. exists (js Examples.Ru). split; [reflexivity|].
  compute_done.
Defined.

(** C7, as amended: [deactivatePrompt] changes nothing but the entry at the
    target name, and it removes that entry only when it is a symbolic link,
    or a plain file while the platform is win32.  On win32 a plain file at
    the name is removed, whoever wrote it; on any other platform a plain
    file stays; and a link whose target can be read is removed on every
    platform. *)
Theorem deactivate_removes_link_or_win32_file (env : Env) (name : jsstring)
    (fs : filesystem) :
  exists r fs',
    deactivatePrompt env name fs = (r, fs')
    /\ (forall p, p <> activationPath env name -> fs' !! p = fs !! p)
    /\ (fs' = fs
        \/ fs' = delete (activationPath env name) fs
           /\ ((exists t, fs !! activationPath env name = Some (Symlink t))
               \/ (exists c, fs !! activationPath env name = Some (File c))
                  /\ process_platform env = Win32))
    /\ (process_platform env = Win32 ->
        forall c, fs !! activationPath env name = Some (File c) ->
          fs' = delete (activationPath env name) fs
          /\ fs' !! activationPath env name = None)
    /\ (process_platform env <> Win32 ->
        forall c, fs !! activationPath env name = Some (File c) -> fs' = fs)
    /\ (forall t, fs !! activationPath env name = Some (Symlink t) ->
        is_Some (FS.stat fs (activationPath env name)) ->
          fs' = delete (activationPath env name) fs
          /\ fs' !! activationPath env name = None).
Proof.
  rewrite ActivationFacts.deactivatePrompt_eq,
    ActivationFacts.removePromptSymlink_cases.
  set (target := activationPath env name).
  assert (Hdel : forall p, p <> target -> delete target fs !! p = fs !! p).
  { intros p Hp. now apply lookup_delete_ne. }
  assert (Hgone : delete target fs !! target = None) by apply lookup_delete_eq.
  destruct (bool_decide_reflect (is_Some (FS.stat fs target))) as [Hread|Hread].
  - destruct (fs !! target) as [[c|t]|] eqn:Hl.
    + unfold isWin32.
      destruct (bool_decide_reflect (process_platform env = Win32)) as [Hwin|Hwin].
      * eexists _, _. split; [reflexivity|]. split; [exact Hdel|].
        split; [right; eauto|]. split; [auto|]. split; [tauto|].
        intros t [=].
      * eexists _, _. split; [reflexivity|]. split; [auto|].
        split; [auto|]. split; [tauto|]. split; [auto|]. intros t [=].
    + eexists _, _. split; [reflexivity|]. split; [exact Hdel|].
      split; [right; eauto|]. split; [intros _ c [=]|].
      split; [intros _ c [=] | auto].
    + eexists _, _. split; [reflexivity|]. split; [auto|]. split; [auto|].
      split; [intros _ c [=]|]. split; [auto | intros t [=]].
  - eexists _, _. split; [reflexivity|]. split; [auto|]. split; [auto|].
    split.
    + intros _ c Hc. destruct Hread. rewrite (ActivationFacts.stat_file _ _ c Hc).
      eauto.
    + split; [auto | tauto].
Qed.

(** C7, as stated, fails: on win32 a note the user wrote in the activation
    directory, never copied from any mirror, is deleted by
    [deactivatePrompt]. *)
Lemma deactivate_deletes_user_file_on_win32 :
  Examples.fsNote !! activationPath Examples.envWin (js "notes.md")
    = Some (File (js "mine"))
  /\ (forall u f, mirrorHas Examples.envWin Examples.fsNote u f = false)
  /\ (deactivatePrompt Examples.envWin (js "notes.md") Examples.fsNote).1 = Ok tt
  /\ (deactivatePrompt Examples.envWin (js "notes.md") Examples.fsNote).2
       !! activationPath Examples.envWin (js "notes.md") = None.
Proof.
  split; [compute_done|].
  split.
  - intros u f. unfold mirrorHas. apply bool_decide_eq_false. intros Hm.
    apply ActivationFacts.stat_is_Some_lookup in Hm.
    unfold Examples.fsNote in Hm.
    apply lookup_insert_is_Some in Hm as [Heq|[_ Hm]]; [discriminate Heq|].
    rewrite lookup_empty in Hm. now destruct Hm.
  - split; compute_done.
Qed.

(** C8, as amended: when nothing is at the target workspace name before
    the activation, [activatePrompt] followed by [deactivatePrompt] of the
    name it returned gives back the very file system it started from, so the
    activation directory is as before and the mirror is untouched.  An entry
    that was at the target name is removed by the activation and does not
    come back. *)
Theorem activate_then_deactivate_restores (env : Env) (fs fs' : filesystem)
    (f u name : jsstring) :
  activatePrompt env f (Some u) fs = (Ok name, fs') ->
  fs !! activationPath env name = None ->
  deactivatePrompt env name fs' = (Ok tt, fs).
Proof.
  intros Hact Hnone. unfold activatePrompt in Hact.
  destruct (truthy u); cbn [negb] in Hact; [|discriminate].
  unfold try_catch, bind in Hact. rewrite ActivationFacts.fileExists_eq in Hact.
  destruct (bool_decide _); cbn [negb] in Hact; [|discriminate].
  destruct (ActivationFacts.getUniqueWorkspaceName_reads env f u fs) as [nm Hnm].
  rewrite Hnm in Hact.
  destruct (createPromptSymlink env _ _ fs) as [[[]|e] fs1] eqn:Hc;
    [|discriminate].
  rewrite ActivationFacts.fileExists_eq in Hact.
  destruct (bool_decide_reflect (is_Some (FS.stat fs1 (FS.joinPath (promptsDirectory env) nm))))
    as [Hex|]; cbn [negb] in Hact; [|discriminate].
  injection Hact as -> ->.
  rewrite ActivationFacts.deactivatePrompt_eq,
    ActivationFacts.removePromptSymlink_cases.
  fold (activationPath env name) in Hc, Hex.
  rewrite (bool_decide_eq_true_2 _ Hex).
  apply ActivationFacts.createPromptSymlink_fresh in Hc
    as [[-> _]|(c & -> & Hwin)]; [| |assumption].
  - rewrite lookup_insert_eq. now rewrite delete_insert_id.
  - rewrite lookup_insert_eq, Hwin. now rewrite delete_insert_id.
Qed.

Lemma activate_then_deactivate_restores_witness :
  activatePrompt Examples.envU (js "x.prompt.md") (Some (js Examples.Ru))
    Examples.fsMirror = (Ok (js "x.prompt.md"), Examples.fsActive)
  /\ Examples.fsMirror !! activationPath Examples.envU (js "x.prompt.md") = None
  /\ deactivatePrompt Examples.envU (js "x.prompt.md") Examples.fsActive
     = (Ok tt, Examples.fsMirror).
Proof.
  assert (Hact : activatePrompt Examples.envU (js "x.prompt.md")
                   (Some (js Examples.Ru)) Examples.fsMirror
                 = (Ok (js "x.prompt.md"), Examples.fsActive))
    by (compute_done).
  assert (Hnone : Examples.fsMirror
                    !! activationPath Examples.envU (js "x.prompt.md") = None)
    by (compute_done).
  split; [exact Hact|]. split; [exact Hnone|].
  exact (activate_then_deactivate_restores Examples.envU Examples.fsMirror
           Examples.fsActive (js "x.prompt.md") (js Examples.Ru)
           (js "x.prompt.md") Hact Hnone).
Defined.

(** C8, as stated, fails: a file of the user's sits at the name the
    activation takes; the activation replaces it by a link, the deactivation
    removes the link, and the file is gone while the mirror is as before. *)
Lemma activate_then_deactivate_loses_previous_file :
  let target := activationPath Examples.envU (js "x.prompt.md") in
  let activated :=
    activatePrompt Examples.envU (js "x.prompt.md") (Some (js Examples.Ru))
      Examples.fsTaken in
  let deactivated := deactivatePrompt Examples.envU (js "x.prompt.md") activated.2 in
  Examples.fsTaken !! target = Some (File (js "mine"))
  /\ activated.1 = Ok (js "x.prompt.md")
  /\ deactivated.1 = Ok tt
  /\ deactivated.2 !! target = None
  /\ deactivated.2 <> Examples.fsTaken.
Proof. cbv zeta. repeat split; compute_done. Qed.

(** ** The sync pass *)

Section SyncFacts.
Context {E : Type} {api : GitApi E}.

Lemma syncRepositoryBody_repository (env : Env) (entry : RepoConfig)
    (w w' : World E) (turn : Turn) :
  syncRepositoryBody env entry w = (Ok turn, w') ->
  repository (pushed turn) = url entry.
Proof.
  unfold syncRepositoryBody, bind.
  destruct (fetchTree env entry w) as [[[[[g o] r] tree]|err] w1]; [|discriminate].
  destruct (length (filterRelevantFiles env tree) =? 0)%nat.
  - intros [= <- _]. reflexivity.
  - destruct (syncFiles env g o r _ (branch entry) w1) as [[n|err] w2];
      [|discriminate].
    intros [= <- _]. reflexivity.
Qed.

(** A turn never throws: what its [try] block throws becomes its entry. *)
Lemma syncRepository_total (env : Env) (entry : RepoConfig) (w : World E) :
  exists turn w',
    syncRepository env entry w = (Ok turn, w')
    /\ repository (pushed turn) = url entry
    /\ (forall err w1, syncRepositoryBody env entry w = (Throw err, w1) ->
          pushed turn = captured entry err).
Proof.
  unfold syncRepository, try_catch.
  destruct (syncRepositoryBody env entry w) as [[turn|err] w1] eqn:Hbody.
  - exists turn, w1. split; [reflexivity|]. split; [|discriminate].
    now apply (syncRepositoryBody_repository env entry w w1).
  - eexists _, w1. split; [reflexivity|]. split; [reflexivity|].
    intros err' w2 [= <- _]. reflexivity.
Qed.

(** The loop over a list that is two lists one after the other. *)
Lemma syncRepositoriesLoop_app (env : Env) (pre post : list RepoConfig)
    (results : list RepositorySyncResult) (total : nat) (errs : list jsstring)
    (w : World E) :
  syncRepositoriesLoop env (pre ++ post) results total errs w
  = match syncRepositoriesLoop env pre results total errs w with
    | (Ok (results1, total1, errs1), w1) =>
        syncRepositoriesLoop env post results1 total1 errs1 w1
    | (Throw e, w1) => (Throw e, w1)
    end.
Proof.
  revert results total errs w.
  induction pre as [|entry pre IH]; intros results total errs w; [reflexivity|].
  cbn [app syncRepositoriesLoop]. unfold bind.
  destruct (syncRepository env entry w) as [[turn|e] w1]; [apply IH | reflexivity].
Qed.

(** The loop returns, and adds one entry per repository, in order. *)
Lemma syncRepositoriesLoop_total (env : Env) (entries : list RepoConfig)
    (results : list RepositorySyncResult) (total : nat) (errs : list jsstring)
    (w : World E) :
  exists more total' errs' w',
    syncRepositoriesLoop env entries results total errs w
    = (Ok (results ++ more, total', errs ++ errs'), w')
    /\ map repository more = map url entries.
Proof.
  revert results total errs w.
  induction entries as [|entry rest IH]; intros results total errs w.
  - exists [], total, [], w. cbn. now rewrite !app_nil_r.
  - cbn [syncRepositoriesLoop]. unfold bind.
    destruct (syncRepository_total env entry w) as (turn & w1 & -> & Hrepo & _).
    destruct (IH (results ++ [pushed turn]) (total + added turn)%nat
                 (errs ++ reported turn) w1)
      as (more & total' & errs' & w' & -> & Hmap).
    exists (pushed turn :: more), total', (reported turn ++ errs'), w'.
    rewrite <- !app_assoc. split; [reflexivity|].
    cbn [map]. now rewrite Hrepo, Hmap.
Qed.


Lemma syncMultipleRepositories_eq (env : Env) (repos : list jsstring)
    (w w' : World E) (results : list RepositorySyncResult) (total : nat)
    (errs : list jsstring) :
  syncRepositoriesLoop env (repositoryConfigs env) [] 0%nat [] w
  = (Ok (results, total, errs), w') ->
  syncMultipleRepositories env repos w
  = (Ok {| overallSuccess := forallb success results;
           totalItemsUpdated := total;
           repositories := results;
           errors := errs |}, w').
Proof. intros H. unfold syncMultipleRepositories, bind. now rewrite H. Qed.



(** C6: a repository whose fetched tree has no file that passes the filter
    gets a failed entry (no success, zero items, the no-relevant-files
    error) at its index, the error is listed and the pass is not a success;
    the loop goes on with the repositories after it, from the world the fetch
    left, and every configured repository has its entry in the report. *)
Theorem no_relevant_files_is_reported_failure (env : Env) (repos : list jsstring)
    (w w1 w2 : World E) (pre post : list RepoConfig) (entry : RepoConfig)
    (before : list RepositorySyncResult) (total : nat) (errs : list jsstring)
    (gitApi owner repo : jsstring) (tree : list GitTreeItem) :
  repositoryConfigs env = pre ++ entry :: post ->
  syncRepositoriesLoop env pre [] 0%nat [] w = (Ok (before, total, errs), w1) ->
  fetchTree env entry w1 = (Ok (gitApi, owner, repo, tree), w2) ->
  filterRelevantFiles env tree = [] ->
  let failure :=
    {| repository := url entry; success := false; itemsUpdated := 0;
       error := Some noRelevantFilesError |} in
  let message := url entry ++ js ": No relevant files found" in
  exists report w',
    syncMultipleRepositories env repos w = (Ok report, w')
    /\ syncRepositoriesLoop env post (before ++ [failure]) total (errs ++ [message]) w2
       = (Ok (repositories report, totalItemsUpdated report, errors report), w')
    /\ repositories report !! length pre = Some failure
    /\ In message (errors report)
    /\ overallSuccess report = false
    /\ map repository (repositories report) = map url (repositoryConfigs env).
Proof.
  intros Hsplit Hpre Hfetch Hnone failure message.
  assert (Hturn : syncRepository env entry w1 = (Ok (noRelevantFiles (url entry)), w2)).
  { unfold syncRepository, try_catch, syncRepositoryBody, bind.
    now rewrite Hfetch, Hnone. }
  destruct (syncRepositoriesLoop_total env pre [] 0%nat [] w)
    as (before' & t0 & e0 & w0 & Hpre' & Hmap).
  cbn [app] in Hpre'. rewrite Hpre in Hpre'. injection Hpre' as <- _ _ _.
  destruct (syncRepositoriesLoop_total env post (before ++ [failure]) total
              (errs ++ [message]) w2)
    as (after & total' & errs' & w' & Hpost & Hmap').
  assert (Hall : syncRepositoriesLoop env (repositoryConfigs env) [] 0%nat [] w
                 = (Ok ((before ++ [failure]) ++ after, total',
                        (errs ++ [message]) ++ errs'), w')).
  { rewrite Hsplit, syncRepositoriesLoop_app, Hpre.
    cbn [syncRepositoriesLoop]. unfold bind. rewrite Hturn.
    cbn [noRelevantFiles pushed added reported]. fold failure message.
    now rewrite Nat.add_0_r. }
  eexists _, w'.
  split; [exact (syncMultipleRepositories_eq env repos _ _ _ _ _ Hall)|].
  cbn [repositories overallSuccess errors totalItemsUpdated].
  split; [exact Hpost|].
  assert (Hlen : length before = length pre).
  { rewrite <- (length_map repository), Hmap. apply length_map. }
  split; [rewrite <- app_assoc; cbn [app]; now apply list_lookup_middle|].
  split; [apply in_or_app; left; apply in_or_app; right; now left|].
  split.
  - rewrite !forallb_app. cbn. now rewrite andb_false_r, andb_false_l.
  - rewrite Hsplit, !map_app. cbn [map].
    now rewrite Hmap, Hmap', <- app_assoc.
Qed.

End SyncFacts.

Lemma no_relevant_files_is_reported_failure_witness :
  filterRelevantFiles Examples.envU Examples.docsTree = []
  /\ exists report w',
    syncMultipleRepositories (api := Examples.docsApi) Examples.envU []
      Examples.emptyWorld = (Ok report, w')
    /\ syncRepositoriesLoop (api := Examples.docsApi) Examples.envU []
         ([] ++ [captured (Examples.repo Examples.Ru) (JsError noRelevantFilesError)])
         0%nat ([] ++ [js Examples.Ru ++ js ": No relevant files found"])
         {| files := ∅; ext := tt; gitProviders := {[js Examples.Ru]} |}
       = (Ok (repositories report, totalItemsUpdated report, errors report), w')
    /\ repositories report !! 0%nat
       = Some (captured (Examples.repo Examples.Ru) (JsError noRelevantFilesError))
    /\ In (js Examples.Ru ++ js ": No relevant files found") (errors report)
    /\ overallSuccess report = false
    /\ map repository (repositories report) = [js Examples.Ru].
Proof.
  assert (Hnone : filterRelevantFiles Examples.envU Examples.docsTree = [])
    by (compute_done).
  split; [exact Hnone|].
  apply (no_relevant_files_is_reported_failure (api := Examples.docsApi)
           Examples.envU [] Examples.emptyWorld Examples.emptyWorld
           {| files := ∅; ext := tt; gitProviders := {[js Examples.Ru]} |}
           [] [] (Examples.repo Examples.Ru) [] 0%nat []
           (js Examples.Ru) (js "o") (js "r") Examples.docsTree).
  - reflexivity.
  - reflexivity.
  - compute_done.
  - exact Hnone.
Defined.



(** ** Updates *)

(** A file counts as needing an update exactly when nothing readable is at
    its path or what is read differs from the fetched text. *)
Lemma shouldUpdateFile_spec (localPath newContent : jsstring) (fs : filesystem) :
  shouldUpdateFile localPath newContent fs
  = (Ok (negb (bool_decide (FS.stat fs localPath = Some newContent))), fs).
Proof.
  unfold shouldUpdateFile, try_catch, bind.
  rewrite ActivationFacts.fileExists_eq. unfold FS.readFileContent.
  destruct (FS.stat fs localPath) as [c|] eqn:Hstat; cbn; rewrite ?Hstat.
  - unfold ret. f_equal. f_equal. f_equal.
    destruct (str_eqb c newContent) eqn:Heq.
    + apply str_eqb_true in Heq as ->. now rewrite bool_decide_eq_true_2.
    + apply str_eqb_false in Heq.
      rewrite bool_decide_eq_false_2; [reflexivity | congruence].
  - reflexivity.
Qed.

(** Right after a file is written, it does not need an update. *)
Lemma written_file_is_up_to_date (p content : jsstring) (fs fs' : filesystem) :
  FS.writeFileContent p content fs = (Ok tt, fs') ->
  (forall t, fs !! p <> Some (Symlink t)) ->
  shouldUpdateFile p content fs' = (Ok false, fs').
Proof.
  intros Hwrite Hplain. rewrite shouldUpdateFile_spec.
  unfold FS.writeFileContent in Hwrite. cbn [FS.writepath FS.max_links] in Hwrite.
  destruct (fs !! p) as [[c|t]|] eqn:Hp; try (now destruct (Hplain t));
    injection Hwrite as <-;
    rewrite (ActivationFacts.stat_file _ p content) by apply lookup_insert_eq;
    now rewrite bool_decide_eq_true_2.
Qed.

(** ** Link repair *)

Module RepairFacts.
Import Buffer.

Lemma split1_nonempty (c : N) (s : jsstring) : split1 c s <> [].
Proof.
  destruct s as [|x s]; cbn; [discriminate|].
  destruct (x =? c); [discriminate|]. destruct (split1 c s); discriminate.
Qed.

(** Splitting around a separator. *)
Lemma split1_app_sep (c : N) (a b : jsstring) :
  split1 c (a ++ c :: b) = split1 c a ++ split1 c b.
Proof.
  induction a as [|x a IH]; cbn [app split1].
  - now rewrite N.eqb_refl.
  - destruct (x =? c); [now rewrite IH|].
    rewrite IH. pose proof (split1_nonempty c a) as Hne.
    destruct (split1 c a); [congruence | reflexivity].
Qed.

Lemma split1_no_sep (c : N) (s : jsstring) :
  Forall (fun x => x <> c) s -> split1 c s = [s].
Proof.
  induction 1 as [|x s Hx _ IH]; [reflexivity|].
  cbn. rewrite (proj2 (N.eqb_neq x c) Hx). now rewrite IH.
Qed.

Lemma replaceAll1_absent (c d : N) (s : jsstring) :
  Forall (fun x => x <> c) s -> replaceAll1 c d s = s.
Proof.
  unfold replaceAll1. induction 1 as [|x s Hx _ IH]; [reflexivity|].
  cbn. now rewrite (proj2 (N.eqb_neq x c) Hx), IH.
Qed.

Lemma replaceAll1_app (c d : N) (a b : jsstring) :
  replaceAll1 c d (a ++ b) = replaceAll1 c d a ++ replaceAll1 c d b.
Proof. apply map_app. Qed.

(** The segments of a mirror path whose slug holds no separator. *)
Lemma mirror_path_segments (storage slug f : jsstring) :
  Forall (fun x => x <> 47 /\ x <> 92) slug ->
  split1 47 (replaceAll1 92 47 (storage ++ js "/repos/" ++ slug ++ js "/" ++ f))
  = split1 47 (replaceAll1 92 47 storage)
      ++ js "repos" :: slug :: split1 47 (replaceAll1 92 47 f).
Proof.
  intros Hslug.
  rewrite !replaceAll1_app.
  rewrite (replaceAll1_absent 92 47 slug)
    by (eapply Forall_impl; [exact Hslug | now intros x [_ H]]).
  change (replaceAll1 92 47 (js "/repos/")) with (47 :: js "repos" ++ [47]).
  change (replaceAll1 92 47 (js "/")) with [47].
  cbn [app]. rewrite (split1_app_sep 47 (replaceAll1 92 47 storage)). f_equal.
  rewrite <- (app_assoc (js "repos") [47]). cbn [app].
  rewrite (split1_app_sep 47 (js "repos")), (split1_app_sep 47 slug).
  rewrite (split1_no_sep 47 (js "repos")) by (cbn; repeat constructor; discriminate).
  rewrite (split1_no_sep 47 slug)
    by (eapply Forall_impl; [exact Hslug | now intros x [H _]]).
  reflexivity.
Qed.

Lemma replaceAll1_length (c d : N) (s : jsstring) :
  length (replaceAll1 c d s) = length s.
Proof. apply length_map. Qed.

Lemma findIndex_app (s : jsstring) (l1 l2 : list jsstring) :
  findIndex s l1 = None ->
  findIndex s (l1 ++ s :: l2) = Some (length l1).
Proof.
  induction l1 as [|p l1 IH]; cbn [app findIndex length].
  - intros _. now rewrite (proj2 (str_eqb_true s s) eq_refl).
  - destruct (str_eqb p s); [discriminate|].
    destruct (findIndex s l1); [discriminate|].
    intros _. now rewrite IH.
Qed.

(** No character of the alphabet is a slash or a backslash. *)
Lemma b64_char_not_separator (i : N) :
  b64_char i <> 47 /\ b64_char i <> 92.
Proof.
  unfold b64_char.
  destruct (nth_in_or_default (N.to_nat i) alphabet 0) as [Hin| ->];
    [|split; discriminate].
  revert Hin. generalize (nth (N.to_nat i) alphabet 0). intros x Hin.
  assert (Hall : Forall (fun x => x <> 47 /\ x <> 92) alphabet).
  { unfold alphabet. cbn. repeat constructor; discriminate. }
  rewrite Forall_forall in Hall. apply Hall. now apply list_elem_of_In.
Qed.

Lemma base64url_encode_no_separator (bs : list N) :
  Forall (fun x => x <> 47 /\ x <> 92) (base64url_encode bs).
Proof.
  induction bs as [|a|a b|a b c l IH] using list_ind3; cbn [base64url_encode];
    repeat constructor; try apply b64_char_not_separator; assumption.
Qed.

Lemma base64url_encode_length (bs : list N) :
  (length bs <= length (base64url_encode bs))%nat.
Proof.
  induction bs as [|a|a b|a b c l IH] using list_ind3; cbn in *; lia.
Qed.

Lemma utf8_bytes_length (cp : N) : (1 <= length (utf8_bytes cp))%nat.
Proof.
  unfold utf8_bytes.
  destruct (cp <? 0x80), (cp <? 0x800), (cp <? 0x10000); cbn; lia.
Qed.

Lemma utf8_bytes_pair_length (c d : N) :
  (2 <= length (utf8_bytes (0x10000 + (c - 0xD800) * 0x400 + (d - 0xDC00))))%nat.
Proof.
  unfold utf8_bytes.
  rewrite !(proj2 (N.ltb_ge _ _)) by lia. cbn. lia.
Qed.

Lemma utf8_encode_length_upto (n : nat) (s : jsstring) :
  (length s <= n)%nat -> (length s <= length (utf8_encode s))%nat.
Proof.
  revert s. induction n as [|n IH]; intros s Hn.
  - destruct s; [cbn; lia | cbn in Hn; lia].
  - destruct s as [|c rest]; [cbn; lia|].
    cbn [utf8_encode]. destruct (is_high_surrogate c).
    + destruct rest as [|d rest']; [cbn; lia|].
      destruct (is_low_surrogate d); rewrite length_app.
      * pose proof (utf8_bytes_pair_length c d).
        pose proof (IH rest'). cbn [length] in *. lia.
      * pose proof (utf8_bytes_length 0xFFFD).
        pose proof (IH (d :: rest')). cbn [length] in *. lia.
    + pose proof (IH rest).
      destruct (is_low_surrogate c); rewrite length_app; cbn [length] in *.
      * pose proof (utf8_bytes_length 0xFFFD). lia.
      * pose proof (utf8_bytes_length c). lia.
Qed.

(** A slug is at least as long as its URL. *)
Lemma encodeRepositorySlug_length (u : jsstring) :
  (length u <= length (encodeRepositorySlug u))%nat.
Proof.
  unfold encodeRepositorySlug.
  pose proof (utf8_encode_length_upto (length u) u (Nat.le_refl _)).
  pose proof (base64url_encode_length (utf8_encode u)). lia.
Qed.

End RepairFacts.

(** C1: for every URL [u], file name [f] and storage path without a
    [repos] segment of its own, the reverse lookup of the link repair, given
    the stale target [<storage>/repos/<slug(u)>/f], answers [https://]
    followed by the slug with its underscores turned into slashes.  That is
    the reading of the legacy directory names, not the inverse of the
    base64url slug, and it is never [u]. *)
Theorem stale_link_owner_not_recovered (storage u f : jsstring) :
  findIndex (js "repos") (split1 47 (replaceAll1 92 47 storage)) = None ->
  extractRepositoryUrlFromTargetPath
    (storage ++ js "/repos/" ++ encodeRepositorySlug u ++ js "/" ++ f)
  = Some (js "https://" ++ replaceAll1 95 47 (encodeRepositorySlug u))
  /\ extractRepositoryUrlFromTargetPath
       (storage ++ js "/repos/" ++ encodeRepositorySlug u ++ js "/" ++ f)
     <> Some u.
Proof.
  intros Hstorage.
  assert (Hslug : Forall (fun x => x <> 47 /\ x <> 92) (encodeRepositorySlug u))
    by apply RepairFacts.base64url_encode_no_separator.
  assert (Hextract : extractRepositoryUrlFromTargetPath
            (storage ++ js "/repos/" ++ encodeRepositorySlug u ++ js "/" ++ f)
          = Some (js "https://" ++ replaceAll1 95 47 (encodeRepositorySlug u))).
  { unfold extractRepositoryUrlFromTargetPath. cbv zeta.
    rewrite (RepairFacts.mirror_path_segments storage _ f Hslug).
    rewrite RepairFacts.findIndex_app by exact Hstorage.
    rewrite lookup_app_r by lia.
    replace (S (length (split1 47 (replaceAll1 92 47 storage)))
             - length (split1 47 (replaceAll1 92 47 storage)))%nat with 1%nat by lia.
    reflexivity. }
  split; [exact Hextract|].
  rewrite Hextract. intros [= Heq].
  apply (f_equal (@length N)) in Heq.
  rewrite ?length_app in Heq. cbn [length js app] in Heq.
  rewrite RepairFacts.replaceAll1_length in Heq.
  pose proof (RepairFacts.encodeRepositorySlug_length u). lia.
Qed.

Lemma stale_link_owner_not_recovered_witness :
  extractRepositoryUrlFromTargetPath Examples.staleTarget
  = Some (js "https://aHR0cHM6Ly9naXRodWIuY29tL28vcg")
  /\ extractRepositoryUrlFromTargetPath Examples.staleTarget
     <> Some (js Examples.Ru).
Proof.
  apply (stale_link_owner_not_recovered (js "/old") (js Examples.Ru)
           (js "x.prompt.md")).
  reflexivity.
Defined.

(** The repair on the stale link of the example: the slug decoder gives the
    URL back and the current mirror holds the file, yet the repair, misled
    by its reverse lookup, repairs nothing and leaves the link broken. *)
Lemma stale_link_left_broken :
  decodeRepositorySlug (encodeRepositorySlug (js Examples.Ru)) = js Examples.Ru
  /\ mirrorHas Examples.envU Examples.fsStale (js Examples.Ru) (js "x.prompt.md") = true
  /\ FS.stat Examples.fsStale (activationPath Examples.envU (js "x.prompt.md")) = None
  /\ fixBrokenSymlink Examples.envU (js "x.prompt.md") Examples.fsStale
     = (Ok false, Examples.fsStale).
Proof. repeat split; compute_done. Qed.

(* ===================================================================== *)
(** ** Steps that leave the disk alone *)
(* ===================================================================== *)

Section KeepsFiles.
Context {E : Type} {api : GitApi E}.

Lemma keeps_files_bind {A B} (m : M (World E) A) (k : A -> M (World E) B) :
  keeps_files m -> (forall a, keeps_files (k a)) -> keeps_files (bind m k).
Proof.
  intros Hm Hk w. unfold bind. specialize (Hm w).
  destruct (m w) as [[a|e] w1]; cbn in *; [|exact Hm].
  now rewrite Hk.
Qed.

Lemma keeps_files_onExt {A} (m : M E A) : keeps_files (onExt m).
Proof. intros w. unfold onExt. now destruct (m (ext w)). Qed.

Lemma keeps_files_ret {A} (a : A) : keeps_files (E := E) (ret a).
Proof. now intros w. Qed.

Lemma keeps_files_throw {A} (e : exn) : keeps_files (E := E) (A := A) (throw e).
Proof. now intros w. Qed.

(** The steps of a turn up to the fetched tree leave the disk alone. *)
Lemma fetchTree_keeps_files (env : Env) (entry : RepoConfig) :
  keeps_files (fetchTree env entry).
Proof.
  unfold fetchTree.
  apply keeps_files_bind.
  { intros w. unfold getOrCreateProvider.
    destruct (bool_decide _); [reflexivity|].
    destruct (negb (hasContext env)); [reflexivity|].
    now destruct (createFromUrl (url entry)). }
  intros gitApi. apply keeps_files_bind.
  { unfold authenticate.
    apply keeps_files_bind; [apply keeps_files_onExt|]. intros [|]; cbn [negb];
      [apply keeps_files_ret|].
    apply keeps_files_bind; [apply keeps_files_onExt|]. intros _.
    apply keeps_files_bind; [apply keeps_files_onExt|]. intros [|]; cbn [negb];
      [apply keeps_files_ret|].
    apply keeps_files_bind; [apply keeps_files_onExt|]. intros [|]; cbn [negb];
      [apply keeps_files_ret | apply keeps_files_throw]. }
  intros _. apply keeps_files_bind.
  { intros w. now destruct (parseRepositoryUrl gitApi (url entry)). }
  intros [owner repo]. apply keeps_files_bind; [apply keeps_files_onExt|].
  intros tree. apply keeps_files_ret.
Qed.

End KeepsFiles.

(** ** A second pass with nothing changed upstream *)

Module FrameFacts.

(** [createPromptSymlink] at a name that holds nothing changes that name
    alone, whether it returns or throws. *)
Lemma createPromptSymlink_frame (env : Env) (source target : jsstring)
    (fs : filesystem) :
  fs !! target = None ->
  forall p, p <> target ->
    (createPromptSymlink env source target fs).2 !! p = fs !! p.
Proof.
  intros Hnone p Hp.
  unfold createPromptSymlink, bind, FS.ensureDirectoryExists, ret.
  rewrite ActivationFacts.fileExists_eq, (ActivationFacts.stat_absent _ _ Hnone).
  cbn [bool_decide decide_rel is_Some_dec when ret].
  unfold try_catch at 1. unfold FS.symlink.
  destruct (symlink_permitted env); cbn [negb].
  - rewrite Hnone, ActivationFacts.fileExists_eq.
    destruct (bool_decide _); cbn; now rewrite lookup_insert_ne.
  - cbn [isEPERM]. rewrite andb_true_r.
    destruct (isWin32 env); [|reflexivity].
    unfold try_catch, bind, FS.readFileContent.
    destruct (FS.stat fs source) as [c|]; [|reflexivity].
    unfold FS.writeFileContent. cbn [FS.writepath FS.max_links].
    rewrite Hnone, ActivationFacts.fileExists_eq.
    destruct (bool_decide _); cbn; now rewrite lookup_insert_ne.
Qed.

(** [updateActivePromptSymlink] returns, and changes no path outside the
    activation directory. *)
Lemma updateActivePromptSymlink_frame (env : Env) (fileName repositoryUrl : jsstring)
    (fs : filesystem) :
  exists fs',
    updateActivePromptSymlink env fileName repositoryUrl fs = (Ok tt, fs')
    /\ forall p, (forall name, p <> activationPath env name) -> fs' !! p = fs !! p.
Proof.
  unfold updateActivePromptSymlink, try_catch at 1, bind at 1.
  destruct (ActivationFacts.getUniqueWorkspaceName_reads env fileName repositoryUrl fs)
    as [name ->].
  unfold bind at 1. rewrite ActivationFacts.fileExists_eq.
  fold (activationPath env name).
  destruct (bool_decide_reflect (is_Some (FS.stat fs (activationPath env name))))
    as [Hex|_]; [|exists fs; split; [reflexivity | auto]].
  unfold bind at 1, get, FS.lstat.
  destruct (fs !! activationPath env name) as [[c|t]|] eqn:Hl;
    [exists fs; split; [reflexivity | auto] | | exists fs; split; [reflexivity | auto]].
  unfold bind. rewrite ActivationFacts.removePromptSymlink_cases, Hl.
  rewrite (bool_decide_eq_true_2 _ Hex).
  pose proof (createPromptSymlink_frame env
                (FS.joinPath (getRepositoryPath env repositoryUrl) fileName)
                (activationPath env name) (delete (activationPath env name) fs)
                (lookup_delete_eq _ _)) as Hframe.
  destruct (createPromptSymlink env _ (activationPath env name)
              (delete (activationPath env name) fs)) as [[[]|e] fs1];
    cbn [snd] in Hframe; exists fs1; (split; [reflexivity|]);
    intros p Hp; rewrite Hframe by apply Hp; apply lookup_delete_ne;
    apply not_eq_sym, Hp.
Qed.


End FrameFacts.


Section QuietRerun.
Context {E : Type} {api : GitApi E}.
Variables (env : Env) (gitApi owner repo branch repositoryUrl : jsstring).
Variable content : jsstring -> result jsstring.
Variable steady : E -> Prop.

(** Nothing changes upstream: in the states of the collaborators that
    [steady] holds of, the fetch of a path answers what [content] has for it
    and leaves such a state, and so does a notice of a failed fetch. *)
Hypothesis content_steady :
  forall p e, steady e ->
    exists e', getFileContent gitApi owner repo p branch e = (content p, e')
               /\ steady e'.
Hypothesis notice_steady : forall msg e, steady e -> steady (showSyncError msg e).






End QuietRerun.

Section QuietPass.
Context {E : Type} {api : GitApi E}.
Variable env : Env.
Variable fetched :
  RepoConfig -> result (jsstring * jsstring * jsstring * list GitTreeItem).
Variable content :
  jsstring -> jsstring -> jsstring -> jsstring -> jsstring -> result jsstring.
Variable steady : E -> gset (list N) -> Prop.

(** Nothing changes upstream: where [steady] holds of the collaborators
    and the cache of providers, the steps up to the tree and the fetch of a
    file give the same answer every time, and [steady] holds after them, as
    it does after a notice of a failed fetch. *)
Hypothesis tree_steady :
  forall entry w, steady (ext w) (gitProviders w) ->
    exists w', fetchTree env entry w = (fetched entry, w')
               /\ steady (ext w') (gitProviders w').
Hypothesis content_steady :
  forall g o r p b e gp, steady e gp ->
    exists e', getFileContent g o r p b e = (content g o r p b, e')
               /\ steady e' gp.
Hypothesis notice_steady :
  forall msg e gp, steady e gp -> steady (showSyncError msg e) gp.







End QuietPass.




(** Why no place may hold a link: in the mirror of [linkedWorld] the place
    of [a.md] is a link to the place of [b.md].  The agent and the prompt
    are stored at two places, each with its own text, yet both writes land on
    [b.md]: the first pass reports two updates and leaves [linkedAfter], and
    a pass started there reports two updates again. *)
Lemma second_pass_through_link_counts_again :
  files Examples.linkedWorld !! Examples.mirrored Examples.envU Examples.Ru "a.md"
    = Some (Symlink (Examples.mirrored Examples.envU Examples.Ru "b.md"))
  /\ syncMultipleRepositories (api := Examples.pairApi) Examples.envU []
       Examples.linkedWorld = (Ok Examples.twoUpdated, Examples.linkedAfter)
  /\ syncMultipleRepositories (api := Examples.pairApi) Examples.envU []
       Examples.linkedAfter = (Ok Examples.twoUpdated, Examples.linkedAfter)
  /\ map itemsUpdated (repositories Examples.twoUpdated) = [2%nat].
Proof. repeat split; compute_done. Qed.

(* ===================================================================== *)
(** ** The mirror directory of a repository *)
(* ===================================================================== *)

Module MirrorFacts.
Import Buffer.

(** The bytes written for a string of code units. *)
Lemma utf8_encode_bytes_upto (n : nat) (s : jsstring) :
  (length s <= n)%nat -> Forall (fun c => c < 0x10000) s ->
  Forall (fun b => b < 256) (utf8_encode s).
Proof.
  assert (Hfffd : Forall (fun b => b < 256) (utf8_bytes 0xFFFD))
    by (apply Utf8Facts.utf8_bytes_bound; lia).
  revert s. induction n as [|n IH]; intros s Hlen Hs.
  - destruct s; [constructor | simpl in Hlen; lia].
  - destruct s as [|c rest]; [constructor|].
    apply Forall_cons in Hs as [Hc Hrest]. cbn [utf8_encode].
    destruct (is_high_surrogate c) eqn:Hhi.
    + destruct rest as [|d rest']; [assumption|].
      destruct (is_low_surrogate d) eqn:Hlo.
      * apply Forall_app. split.
        -- apply Utf8Facts.utf8_bytes_bound.
           apply (SlugFacts.surrogate_pair_units c d Hhi Hlo).
        -- apply IH; [cbn [length] in *; lia|].
           now apply Forall_cons in Hrest as [_ ?].
      * apply Forall_app. split; [assumption|].
        apply IH; [cbn [length] in *; lia | assumption].
    + destruct (is_low_surrogate c); apply Forall_app; split;
        try assumption; try (apply IH; [cbn [length] in *; lia | assumption]).
      apply Utf8Facts.utf8_bytes_bound. lia.
Qed.

Lemma b64_char_alphabet (i : N) : i < 64 -> In (b64_char i) alphabet.
Proof.
  intros H. unfold b64_char. apply nth_In.
  change (length alphabet) with 64%nat. lia.
Qed.

Lemma base64url_encode_alphabet (bs : list N) :
  Forall (fun b => b < 256) bs ->
  Forall (fun c => In c alphabet) (base64url_encode bs).
Proof.
  induction bs as [|a|a b|a b c l IH] using list_ind3; intros H;
    cbn [base64url_encode].
  - constructor.
  - apply Forall_cons in H as [Ha _].
    repeat (apply Forall_cons; split; [apply b64_char_alphabet; lia|]).
    constructor.
  - apply Forall_cons in H as [Ha [Hb _]%Forall_cons].
    repeat (apply Forall_cons; split; [apply b64_char_alphabet; lia|]).
    constructor.
  - apply Forall_cons in H as [Ha [Hb [Hc Hl]%Forall_cons]%Forall_cons].
    do 4 (apply Forall_cons; split; [apply b64_char_alphabet; lia|]).
    now apply IH.
Qed.

(** Two texts cut at their first slash. *)
Lemma first_separator_inj (c : N) (a b x y : jsstring) :
  ~ In c a -> ~ In c b -> a ++ c :: x = b ++ c :: y -> a = b /\ x = y.
Proof.
  revert b. induction a as [|a0 a IH]; intros [|b0 b] Ha Hb Heq; cbn in *.
  - now injection Heq.
  - injection Heq as <- _. destruct Hb. now left.
  - injection Heq as -> _. destruct Ha. now left.
  - injection Heq as <- Heq.
    destruct (IH b) as [-> ->]; auto.
Qed.

(** Decoding the slug of a well-formed URL. *)
Lemma decode_encode_slug (u : jsstring) :
  well_formed u = true -> decodeRepositorySlug (encodeRepositorySlug u) = u.
Proof.
  intros Hwf. unfold decodeRepositorySlug, encodeRepositorySlug.
  rewrite BufferFacts.base64url_roundtrip
    by now apply SlugFacts.utf8_encode_bytes.
  now apply SlugFacts.utf8_roundtrip.
Qed.

Lemma slug_no_slash (u : jsstring) : ~ In 47 (encodeRepositorySlug u).
Proof.
  intros Hin.
  pose proof (RepairFacts.base64url_encode_no_separator (utf8_encode u)) as Hall.
  rewrite Forall_forall in Hall.
  apply list_elem_of_In in Hin. now destruct (Hall _ Hin).
Qed.

(** The path of a mirrored file, laid out. *)
Lemma mirror_path_eq (env : Env) (u f : jsstring) :
  FS.joinPath (getRepositoryPath env u) f
  = globalStoragePath env ++ js "/repos/" ++ encodeRepositorySlug u ++ js "/" ++ f.
Proof.
  unfold FS.joinPath, getRepositoryPath, repoStorageDir, FS.joinPath.
  now rewrite <- !app_assoc.
Qed.

End MirrorFacts.

(** X1: the directory name of a mirror is made of letters, digits, [-] and
    [_] alone: whatever the URL holds, its slug has no separator, no dot and
    no padding sign in it.  It is empty exactly when the URL is, so the slug
    of a URL that is not empty is one path segment, and the slug of the empty
    URL is none. *)
Theorem slug_is_made_of_the_alphabet (u : jsstring) :
  Forall (fun c => c < 0x10000) u ->
  Forall (fun c => In c Buffer.alphabet) (encodeRepositorySlug u)
  /\ ~ In 47 (encodeRepositorySlug u)
  /\ ~ In 92 (encodeRepositorySlug u)
  /\ ~ In 46 (encodeRepositorySlug u)
  /\ ~ In 61 (encodeRepositorySlug u)
  /\ (encodeRepositorySlug u = [] <-> u = []).
Proof.
  intros Hu.
  assert (Hin : Forall (fun c => In c Buffer.alphabet) (encodeRepositorySlug u)).
  { unfold encodeRepositorySlug.
    apply MirrorFacts.base64url_encode_alphabet.
    now apply (MirrorFacts.utf8_encode_bytes_upto (length u)). }
  assert (Hout : forall c, ~ In c Buffer.alphabet -> ~ In c (encodeRepositorySlug u)).
  { intros c Hc Hslug. apply Hc.
    exact (proj1 (List.Forall_forall _ _) Hin c Hslug). }
  split; [exact Hin|].
  split; [apply Hout; vm_compute; intuition discriminate|].
  split; [apply Hout; vm_compute; intuition discriminate|].
  split; [apply Hout; vm_compute; intuition discriminate|].
  split; [apply Hout; vm_compute; intuition discriminate|].
  split.
  - intros Hnil. pose proof (RepairFacts.encodeRepositorySlug_length u) as Hlen.
    rewrite Hnil in Hlen. destruct u; [reflexivity | cbn [length] in Hlen; lia].
  - intros ->. reflexivity.
Qed.

Lemma slug_is_made_of_the_alphabet_witness :
  Forall (fun c => c < 0x10000) (js "https://dev.azure.com/o/p/_git/r")
  /\ Forall (fun c => In c Buffer.alphabet)
       (encodeRepositorySlug (js "https://dev.azure.com/o/p/_git/r"))
  /\ ~ In 47 (encodeRepositorySlug (js "https://dev.azure.com/o/p/_git/r"))
  /\ ~ In 92 (encodeRepositorySlug (js "https://dev.azure.com/o/p/_git/r"))
  /\ ~ In 46 (encodeRepositorySlug (js "https://dev.azure.com/o/p/_git/r"))
  /\ ~ In 61 (encodeRepositorySlug (js "https://dev.azure.com/o/p/_git/r"))
  /\ (encodeRepositorySlug (js "https://dev.azure.com/o/p/_git/r") = []
      <-> js "https://dev.azure.com/o/p/_git/r" = []).
Proof.
  assert (H : Forall (fun c => c < 0x10000) (js "https://dev.azure.com/o/p/_git/r"))
    by (cbn; repeat constructor; lia).
  split; [exact H|].
  exact (slug_is_made_of_the_alphabet (js "https://dev.azure.com/o/p/_git/r") H).
Defined.

(** X2: the mirror paths of two repositories are different strings: for
    distinct well-formed URLs the path of any file in the mirror of the one
    differs from the path of any file in the mirror of the other.  Paths are
    compared as they are written, letter case included, as a file system
    that tells upper case from lower case does; two slugs may differ in the
    case of a letter alone. *)
Theorem mirrors_of_distinct_repositories_are_apart (env : Env)
    (u1 u2 f1 f2 : jsstring) :
  Buffer.well_formed u1 = true -> Buffer.well_formed u2 = true -> u1 <> u2 ->
  FS.joinPath (getRepositoryPath env u1) f1
  <> FS.joinPath (getRepositoryPath env u2) f2.
Proof.
  intros Hwf1 Hwf2 Hne Heq. apply Hne.
  rewrite !MirrorFacts.mirror_path_eq in Heq.
  apply app_inv_head in Heq. cbn [js app] in Heq.
  apply (app_inv_head [47; 114; 101; 112; 111; 115; 47]) in Heq.
  apply MirrorFacts.first_separator_inj in Heq as [Hslug _];
    try apply MirrorFacts.slug_no_slash.
  rewrite <- (MirrorFacts.decode_encode_slug u1 Hwf1),
          <- (MirrorFacts.decode_encode_slug u2 Hwf2).
  now rewrite Hslug.
Qed.

Lemma mirrors_of_distinct_repositories_are_apart_witness :
  FS.joinPath (getRepositoryPath Examples.envB (js Examples.R1)) (js "x.prompt.md")
  <> FS.joinPath (getRepositoryPath Examples.envB (js Examples.R2)) (js "x.prompt.md").
Proof.
  apply (mirrors_of_distinct_repositories_are_apart Examples.envB
           (js Examples.R1) (js Examples.R2));
    [reflexivity | reflexivity | compute_done].
Defined.

(** Letter case is all that tells some mirrors apart: the slugs of
    [github.com/oX/r] and [github.com/or/r] are different strings that are
    one string once capitals are folded. *)
Lemma slugs_differ_in_case_alone :
  encodeRepositorySlug (js "https://github.com/oX/r")
    <> encodeRepositorySlug (js "https://github.com/or/r")
  /\ map foldCase (encodeRepositorySlug (js "https://github.com/oX/r"))
     = map foldCase (encodeRepositorySlug (js "https://github.com/or/r")).
Proof. split; compute_done. Qed.

(** X3: the reverse lookup of the tree recovers the owner of a mirrored file:
    from the path of [f] in the mirror of a well-formed URL [u] it answers
    [u], as long as no directory above the mirror is itself named [repos]. *)
Theorem tree_lookup_recovers_repository (env : Env) (u f : jsstring) :
  findIndex (js "repos") (split1 47 (replaceAll1 92 47 (globalStoragePath env)))
    = None ->
  Buffer.well_formed u = true ->
  Tree.extractRepositoryUrlFromPath (FS.joinPath (getRepositoryPath env u) f)
  = Some u.
Proof.
  intros Hstorage Hwf.
  rewrite MirrorFacts.mirror_path_eq.
  unfold Tree.extractRepositoryUrlFromPath, Tree.decodeRepositoryUrl. cbv zeta.
  assert (Hslug : Forall (fun x => x <> 47 /\ x <> 92) (encodeRepositorySlug u))
    by apply RepairFacts.base64url_encode_no_separator.
  rewrite (RepairFacts.mirror_path_segments (globalStoragePath env) _ f Hslug).
  rewrite RepairFacts.findIndex_app by exact Hstorage.
  rewrite lookup_app_r by lia.
  replace (S (length (split1 47 (replaceAll1 92 47 (globalStoragePath env))))
           - length (split1 47 (replaceAll1 92 47 (globalStoragePath env))))%nat
    with 1%nat by lia.
  cbn [lookup list_lookup].
  now rewrite MirrorFacts.decode_encode_slug.
Qed.

Lemma tree_lookup_recovers_repository_witness :
  Tree.extractRepositoryUrlFromPath
    (FS.joinPath (getRepositoryPath Examples.envU (js Examples.Ru)) (js "x.prompt.md"))
  = Some (js Examples.Ru).
Proof.
  apply (tree_lookup_recovers_repository Examples.envU (js Examples.Ru)
           (js "x.prompt.md")); reflexivity.
Defined.

(* ===================================================================== *)
(** ** Which entries of a tree are synced *)
(* ===================================================================== *)

Module FilterFacts.

Lemma startsWith_In (s p : jsstring) (c : N) :
  startsWith s p = true -> In c p -> In c s.
Proof.
  revert s. induction p as [|x p IH]; intros [|y s] Hs Hin; cbn in *;
    try easy.
  apply andb_prop in Hs as [->%N.eqb_eq Hs].
  destruct Hin as [->|Hin]; [now left | right; now apply IH].
Qed.

Lemma normalizePath_plain (p : jsstring) :
  ~ In 47 p -> ~ In 92 p -> normalizePath p = p.
Proof.
  intros H47 H92. unfold normalizePath.
  rewrite RepairFacts.replaceAll1_absent.
  - destruct p as [|x p]; [reflexivity|]. cbn.
    destruct (N.eqb_spec x 47) as [->|_]; [|reflexivity].
    destruct H47. now left.
  - apply Forall_forall. intros x Hx ->. now apply H92, list_elem_of_In.
Qed.

(** Every directory the settings can enable ends in a slash, and is one
    of the five of [constant.ts]. *)
Lemma allowedPaths_cases (env : Env) (p : jsstring) :
  In p (allowedPaths env) ->
  normalizePath p = p /\ In 47 p
  /\ (syncChatmode env = true
        /\ In p [REPO_SYNC_CHAT_MODE_PATH; REPO_SYNC_CHAT_MODE_LEGACY_PATH;
                 REPO_SYNC_CHAT_MODE_LEGACY_SINGULAR_PATH]
      \/ syncInstructions env = true /\ p = REPO_SYNC_INSTRUCTIONS_PATH
      \/ syncPrompt env = true /\ p = REPO_SYNC_PROMPT_PATH).
Proof.
  unfold allowedPaths.
  intros [Hin|[Hin|Hin]%in_app_or]%in_app_or.
  - destruct (syncChatmode env); [|destruct Hin].
    destruct Hin as [<-|[<-|[<-|[]]]];
      (split; [reflexivity|]); (split; [cbn; tauto|]); left; cbn; tauto.
  - destruct (syncInstructions env); [|destruct Hin].
    destruct Hin as [<-|[]].
    split; [reflexivity|]. split; [cbn; tauto|]. right; left. tauto.
  - destruct (syncPrompt env); [|destruct Hin].
    destruct Hin as [<-|[]].
    split; [reflexivity|]. split; [cbn; tauto|]. right; right. tauto.
Qed.

(** What being kept by the filter means. *)
Lemma filterRelevantFiles_In (env : Env) (tree : list GitTreeItem)
    (item : GitTreeItem) :
  In item (filterRelevantFiles env tree)
  <-> In item tree
      /\ type item = js "blob"
      /\ (exists p, In p (allowedPaths env)
                    /\ startsWith (normalizePath (path item)) (normalizePath p) = true)
      /\ (endsWith (path item) (js ".md") = true
          \/ endsWith (path item) (js ".txt") = true).
Proof.
  unfold filterRelevantFiles. cbv zeta.
  destruct (length (allowedPaths env) =? 0)%nat eqn:Hlen.
  - apply Nat.eqb_eq, length_zero_iff_nil in Hlen. rewrite Hlen.
    split; [intros [] | intros (_ & _ & (p & [] & _) & _)].
  - rewrite filter_In. unfold isRelevantItem. cbv zeta.
    rewrite !andb_true_iff, orb_true_iff, str_eqb_true, existsb_exists.
    tauto.
Qed.

Lemma endsWith_spec (s p : jsstring) :
  endsWith s p = true <-> exists pre, s = pre ++ p.
Proof.
  unfold endsWith.
  assert (Hstarts : forall a b, startsWith a b = true <-> exists post, a = b ++ post).
  { intros a b. revert a. induction b as [|x b IH]; intros a.
    - split; [exists a; reflexivity | now destruct a].
    - destruct a as [|y a]; cbn.
      + split; [discriminate | intros [post [=]]].
      + rewrite andb_true_iff, N.eqb_eq, IH. split.
        * intros [-> [post ->]]. now exists post.
        * intros [post [= -> ->]]. split; [reflexivity | now exists post]. }
  rewrite Hstarts. split.
  - intros [post Heq]. exists (rev post).
    apply (f_equal (@rev N)) in Heq. rewrite rev_involutive in Heq.
    now rewrite Heq, rev_app_distr, rev_involutive.
  - intros [pre ->]. exists (rev pre). now rewrite rev_app_distr.
Qed.

(** A path is what lies in front of its base name, then the base name,
    which holds no slash. *)
Lemma getBasename_spec (p : jsstring) :
  ~ In 47 (FS.getBasename p)
  /\ exists pre, p = pre ++ FS.getBasename p
                 /\ (pre = [] \/ exists pre', pre = pre' ++ [47]).
Proof.
  unfold FS.getBasename.
  induction p as [|x p (Hno & pre & Hp & Hpre)].
  - split; [intros [] | exists []; split; [reflexivity | now left]].
  - cbn [split1].
    destruct (N.eqb_spec x 47) as [->|Hx].
    + assert (Hlast : List.last ([] :: split1 47 p) [] = List.last (split1 47 p) []).
      { pose proof (RepairFacts.split1_nonempty 47 p).
        now destruct (split1 47 p). }
      rewrite Hlast. split; [exact Hno|].
      exists (47 :: pre). split; [cbn; now f_equal|]. right.
      destruct Hpre as [->|[pre' ->]]; [now exists [] | now exists (47 :: pre')].
    + destruct (split1 47 p) as [|part parts] eqn:Hsplit;
        [now destruct (RepairFacts.split1_nonempty 47 p)|].
      destruct parts as [|part' parts].
      * cbn [List.last] in *. split.
        -- intros [Heq|Hin]; [now apply Hx | now apply Hno].
        -- exists []. split; [|now left]. cbn. f_equal.
           destruct Hpre as [->|[pre' ->]]; [exact Hp|].
           exfalso. apply Hno. rewrite Hp in Hsplit.
           apply (f_equal (@length jsstring)) in Hsplit.
           rewrite <- app_assoc in Hsplit. cbn [app] in Hsplit.
           rewrite RepairFacts.split1_app_sep, length_app in Hsplit.
           pose proof (RepairFacts.split1_nonempty 47 pre').
           pose proof (RepairFacts.split1_nonempty 47 part).
           destruct (split1 47 pre'), (split1 47 part); cbn in Hsplit;
             try easy; lia.
      * change (List.last ((x :: part) :: part' :: parts) [])
          with (List.last (part' :: parts) []).
        change (List.last (part :: part' :: parts) [])
          with (List.last (part' :: parts) []) in Hno, Hp.
        split; [exact Hno|].
        exists (x :: pre). split; [cbn; now f_equal|]. right.
        destruct Hpre as [->|[pre' ->]]; [|now exists (x :: pre')].
        exfalso.
        cbn [app] in Hp. rewrite Hp in Hsplit.
        rewrite RepairFacts.split1_no_sep in Hsplit; [discriminate|].
        apply Forall_forall. intros y Hy ->. now apply Hno, list_elem_of_In.
Qed.

End FilterFacts.

(** X4: a file at the root of a repository is never synced, whatever the
    settings: an entry whose path holds no separator is not kept. *)
Theorem root_files_are_never_synced (env : Env) (tree : list GitTreeItem)
    (item : GitTreeItem) :
  ~ In 47 (path item) -> ~ In 92 (path item) ->
  ~ In item (filterRelevantFiles env tree).
Proof.
  intros H47 H92 (_ & _ & (p & Hp & Hstarts) & _)%FilterFacts.filterRelevantFiles_In.
  destruct (FilterFacts.allowedPaths_cases env p Hp) as (Hnorm & Hslash & _).
  rewrite Hnorm, FilterFacts.normalizePath_plain in Hstarts by assumption.
  exact (H47 (FilterFacts.startsWith_In _ _ 47 Hstarts Hslash)).
Qed.

Lemma root_files_are_never_synced_witness :
  ~ In (Examples.blob "README.md")
       (filterRelevantFiles Examples.envU Examples.docsTree).
Proof.
  apply (root_files_are_never_synced Examples.envU Examples.docsTree
           (Examples.blob "README.md")); compute_done.
Defined.

(** X5: enabling one more kind of file never drops an entry: every entry kept
    under some settings is kept under settings that enable at least the
    same kinds. *)
Theorem enabling_a_kind_keeps_entries (env env' : Env)
    (tree : list GitTreeItem) (item : GitTreeItem) :
  (syncChatmode env = true -> syncChatmode env' = true) ->
  (syncInstructions env = true -> syncInstructions env' = true) ->
  (syncPrompt env = true -> syncPrompt env' = true) ->
  In item (filterRelevantFiles env tree) ->
  In item (filterRelevantFiles env' tree).
Proof.
  intros Hc Hi Hp. rewrite !FilterFacts.filterRelevantFiles_In.
  intros (Hin & Hblob & (p & Hallowed & Hstarts) & Hext).
  split; [exact Hin|]. split; [exact Hblob|]. split; [|exact Hext].
  exists p. split; [|exact Hstarts].
  destruct (FilterFacts.allowedPaths_cases env p Hallowed)
    as (_ & _ & [[Hon Hcase]|[[Hon ->]|[Hon ->]]]);
    unfold allowedPaths.
  - rewrite (Hc Hon). apply in_or_app. now left.
  - rewrite (Hi Hon). apply in_or_app. right. apply in_or_app. left. now left.
  - rewrite (Hp Hon). apply in_or_app. right. apply in_or_app. right. now left.
Qed.

Lemma enabling_a_kind_keeps_entries_witness :
  In (Examples.blob "prompts/b.md")
     (filterRelevantFiles
        {| process_platform := Linux; symlink_permitted := true;
           globalStoragePath := js "/g"; promptsDirectory := js "/p";
           repositoryConfigs := []; syncChatmode := false;
           syncInstructions := false; syncPrompt := true; hasContext := true |}
        Examples.pairTree)
  /\ In (Examples.blob "prompts/b.md")
        (filterRelevantFiles Examples.envU Examples.pairTree).
Proof.
  assert (H : In (Examples.blob "prompts/b.md")
                (filterRelevantFiles
                   {| process_platform := Linux; symlink_permitted := true;
                      globalStoragePath := js "/g"; promptsDirectory := js "/p";
                      repositoryConfigs := []; syncChatmode := false;
                      syncInstructions := false; syncPrompt := true;
                      hasContext := true |}
                   Examples.pairTree))
    by (vm_compute; left; reflexivity).
  split; [exact H|].
  revert H. apply enabling_a_kind_keeps_entries; cbn; congruence.
Defined.

(** What sync stores is a prompt file by name: the name under which a kept
    entry goes into the mirror, the part of its path after the last slash,
    ends in [.md] or [.txt]. *)
Theorem mirrored_names_are_prompt_files (env : Env) (tree : list GitTreeItem)
    (item : GitTreeItem) :
  In item (filterRelevantFiles env tree) ->
  isPromptFile (FS.getBasename (path item)) = true.
Proof.
  intros (_ & _ & _ & Hext)%FilterFacts.filterRelevantFiles_In.
  assert (Hkeep : forall ext, ~ In 47 ext -> ext <> [] ->
            endsWith (path item) ext = true ->
            endsWith (FS.getBasename (path item)) ext = true).
  { intros ext Hno Hne [pre Hpath]%FilterFacts.endsWith_spec.
    apply FilterFacts.endsWith_spec.
    destruct (FilterFacts.getBasename_spec (path item))
      as (Hbase & front & Hsplit & Hfront).
    set (base := FS.getBasename (path item)) in *.
    rewrite Hpath in Hsplit.
    (* the extension, free of slashes, lies inside the base name *)
    apply (f_equal (@rev N)) in Hsplit. rewrite !rev_app_distr in Hsplit.
    assert (Hcut : forall a b x y : jsstring,
              ~ In 47 a -> ~ In 47 b ->
              (y = [] \/ exists y', y = 47 :: y') ->
              a ++ x = b ++ y -> exists r, b = a ++ r).
    { clear. induction a as [|a0 a IH]; intros b x y Ha Hb Hy Heq.
      - now exists b.
      - destruct b as [|b0 b].
        + cbn in Heq. destruct Hy as [->|[y' ->]]; [discriminate|].
          injection Heq as -> _. destruct Ha. now left.
        + injection Heq as -> Heq.
          destruct (IH b x y) as [r ->]; auto.
          * intros H. apply Ha. now right.
          * intros H. apply Hb. now right.
          * now exists r. }
    destruct (Hcut (rev ext) (rev base) (rev pre) (rev front)) as [r Hr].
    - now rewrite <- in_rev.
    - now rewrite <- in_rev.
    - destruct Hfront as [->|[pre' ->]]; [now left | right].
      rewrite rev_app_distr. now exists (rev pre').
    - exact Hsplit.
    - exists (rev r). apply (f_equal (@rev N)) in Hr.
      rewrite rev_involutive, rev_app_distr, rev_involutive in Hr. exact Hr. }
  unfold isPromptFile. apply orb_true_iff.
  destruct Hext as [Hmd|Htxt]; [left | right]; apply Hkeep; try assumption;
    try discriminate; cbn; intuition discriminate.
Qed.

Lemma mirrored_names_are_prompt_files_witness :
  isPromptFile (FS.getBasename (path (Examples.blob "agents/a.md"))) = true.
Proof.
  apply (mirrored_names_are_prompt_files Examples.envU Examples.pairTree).
  vm_compute. left. reflexivity.
Defined.

(* ===================================================================== *)
(** ** What a pass reports and what it leaves on disk *)
(* ===================================================================== *)

Section ReportFacts.
Context {E : Type} {api : GitApi E}.

Lemma kept_or_written_refl (fs : filesystem) (p : jsstring) :
  kept_or_written fs fs p.
Proof. now left. Qed.

Lemma kept_or_written_trans (fs1 fs2 fs3 : filesystem) (p : jsstring) :
  kept_or_written fs1 fs2 p -> kept_or_written fs2 fs3 p ->
  kept_or_written fs1 fs3 p.
Proof.
  intros [H12|H12] [H23|H23]; unfold kept_or_written.
  - left. congruence.
  - now right.
  - right. destruct H12 as (c & Hc & H12). exists c. split; [exact Hc | congruence].
  - now right.
Qed.

(** One turn of the loop of [syncFiles]: the fetch fails and the loop ends
    with its count, or the loop goes on with the same count, or it goes on
    with one more; outside the activation directory a path is left alone or
    holds a text that is not empty. *)
Lemma syncFilesLoop_step (env : Env) (gitApi owner repo branch repositoryUrl : jsstring)
    (file : GitTreeItem) (rest : list GitTreeItem) (n : nat) (w : World E) :
  exists w1,
    (forall p, (forall name, p <> activationPath env name) ->
       kept_or_written (files w) (files w1) p)
    /\ (syncFilesLoop env gitApi owner repo branch repositoryUrl (file :: rest) n w
        = (Ok n, w1)
        \/ syncFilesLoop env gitApi owner repo branch repositoryUrl (file :: rest) n w
           = syncFilesLoop env gitApi owner repo branch repositoryUrl rest n w1
        \/ syncFilesLoop env gitApi owner repo branch repositoryUrl (file :: rest) n w
           = syncFilesLoop env gitApi owner repo branch repositoryUrl rest (S n) w1).
Proof.
  destruct w as [fs e gp].
  remember (syncFilesLoop env gitApi owner repo branch repositoryUrl
              (file :: rest) n {| files := fs; ext := e; gitProviders := gp |})
    as run eqn:Hrun.
  cbn [syncFilesLoop] in Hrun.
  unfold bind at 1, try_catch at 1, bind at 1, onExt in Hrun.
  cbn [files ext gitProviders] in Hrun.
  destruct (getFileContent gitApi owner repo (path file) branch e)
    as [[c|err] e1].
  - unfold ret at 1 in Hrun. cbv zeta in Hrun.
    destruct (truthy c) eqn:Ht; cbn [negb] in Hrun.
    2:{ exists {| files := fs; ext := e1; gitProviders := gp |}.
        split; [|right; left; exact Hrun].
        intros p _. apply kept_or_written_refl. }
    unfold bind at 1, try_catch at 1, bind at 1, onFiles at 1 in Hrun.
    cbn [files ext gitProviders] in Hrun. rewrite shouldUpdateFile_spec in Hrun.
    destruct (bool_decide _); cbn [negb] in Hrun.
    { exists {| files := fs; ext := e1; gitProviders := gp |}.
      split; [|right; left; exact Hrun].
      intros p _. apply kept_or_written_refl. }
    unfold bind at 1, onFiles at 1 in Hrun. cbn [files ext gitProviders] in Hrun.
    unfold FS.writeFileContent in Hrun.
    destruct (FS.writepath FS.max_links fs _) as [q|].
    + unfold bind at 1, onFiles at 1 in Hrun. cbn [files ext gitProviders] in Hrun.
      destruct (FrameFacts.updateActivePromptSymlink_frame env
                  (FS.getBasename (path file)) repositoryUrl
                  (<[q := File c]> fs)) as (fs2 & Hupd & Hframe).
      rewrite Hupd in Hrun.
      exists {| files := fs2; ext := e1; gitProviders := gp |}.
      split; [|right; right; exact Hrun].
      intros p Hp. cbn [files]. unfold kept_or_written.
      rewrite Hframe by exact Hp.
      destruct (decide (p = q)) as [->|Hne].
      * right. exists c. split; [|apply lookup_insert_eq].
        intros ->. discriminate.
      * left. now apply lookup_insert_ne.
    + exists {| files := fs; ext := e1; gitProviders := gp |}.
      split; [|right; left; exact Hrun].
      intros p _. apply kept_or_written_refl.
  - eexists. split; [|left; exact Hrun].
    intros p _. apply kept_or_written_refl.
Qed.

(** The loop of [syncFiles] returns; its count grows by at most the number
    of entries. *)
Lemma syncFilesLoop_bound (env : Env) (gitApi owner repo branch repositoryUrl : jsstring)
    (todo : list GitTreeItem) (n : nat) (w : World E) :
  exists n' w',
    syncFilesLoop env gitApi owner repo branch repositoryUrl todo n w = (Ok n', w')
    /\ (n <= n' <= n + length todo)%nat
    /\ forall p, (forall name, p <> activationPath env name) ->
         kept_or_written (files w) (files w') p.
Proof.
  revert n w. induction todo as [|file rest IH]; intros n w.
  - exists n, w. split; [reflexivity|]. split; [cbn; lia|].
    intros p _. apply kept_or_written_refl.
  - destruct (syncFilesLoop_step env gitApi owner repo branch repositoryUrl
                file rest n w) as (w1 & Hfiles & [->|[->| ->]]).
    + exists n, w1. split; [reflexivity|]. split; [cbn; lia | exact Hfiles].
    + destruct (IH n w1) as (n' & w' & -> & Hn & Hfiles').
      exists n', w'. split; [reflexivity|]. split; [cbn; lia|].
      intros p Hp. eapply kept_or_written_trans; eauto.
    + destruct (IH (S n) w1) as (n' & w' & -> & Hn & Hfiles').
      exists n', w'. split; [reflexivity|]. split; [cbn; lia|].
      intros p Hp. eapply kept_or_written_trans; eauto.
Qed.

(** The three shapes of a turn. *)
Lemma syncRepository_shape (env : Env) (entry : RepoConfig) (w : World E) :
  exists turn w',
    syncRepository env entry w = (Ok turn, w')
    /\ (turn = noRelevantFiles (url entry)
        \/ (exists n, turn = synced (url entry) n)
        \/ exists message, turn = failed (url entry) message)
    /\ forall p, (forall name, p <> activationPath env name) ->
         kept_or_written (files w) (files w') p.
Proof.
  unfold syncRepository, try_catch, syncRepositoryBody, bind.
  pose proof (fetchTree_keeps_files env entry w) as Hfetch.
  destruct (fetchTree env entry w) as [[[[[g o] r] tree]|err] w1];
    cbn [snd] in Hfetch.
  - destruct (length (filterRelevantFiles env tree) =? 0)%nat.
    + eexists _, _. split; [reflexivity|]. split; [now left|].
      intros p _. left. now rewrite Hfetch.
    + unfold syncFiles, bind, onFiles, FS.ensureDirectoryExists, ret.
      cbn [files ext gitProviders].
      destruct (syncFilesLoop_bound env g o r (branch entry)
                  (syncedRepositoryUrl g o r) (filterRelevantFiles env tree) 0%nat
                  {| files := files w1; ext := ext w1;
                     gitProviders := gitProviders w1 |})
        as (n & w' & -> & _ & Hfiles).
      eexists _, _. split; [reflexivity|]. split; [right; left; now exists n|].
      intros p Hp. specialize (Hfiles p Hp). cbn [files] in Hfiles.
      now rewrite Hfetch in Hfiles.
  - eexists _, _. split; [reflexivity|]. split; [right; right; now eexists|].
    intros p _. left. now rewrite Hfetch.
Qed.

(** The loop over the repositories keeps its accumulators in agreement. *)
Lemma syncRepositoriesLoop_tallied (env : Env) (entries : list RepoConfig)
    (results : list RepositorySyncResult) (total : nat) (errs : list jsstring)
    (w : World E) :
  tallied results total errs ->
  exists results' total' errs' w',
    syncRepositoriesLoop env entries results total errs w
    = (Ok (results', total', errs'), w')
    /\ tallied results' total' errs'
    /\ forall p, (forall name, p <> activationPath env name) ->
         kept_or_written (files w) (files w') p.
Proof.
  revert results total errs w.
  induction entries as [|entry rest IH]; intros results total errs w Hinv.
  - exists results, total, errs, w. split; [reflexivity|]. split; [exact Hinv|].
    intros p _. apply kept_or_written_refl.
  - cbn [syncRepositoriesLoop]. unfold bind.
    destruct (syncRepository_shape env entry w) as (turn & w1 & -> & Hshape & Hfiles).
    destruct (IH (results ++ [pushed turn]) (total + added turn)%nat
                (errs ++ reported turn) w1)
      as (results' & total' & errs' & w' & -> & Hinv' & Hfiles').
    { destruct Hinv as (Htotal & Herrs & Hall). unfold tallied.
      rewrite map_app, list_sum_app, List.filter_app, !length_app, Forall_app.
      destruct Hshape as [->|[[n ->]| [message ->]]]; cbn;
        (split; [lia|]); (split; [lia|]); (split; [exact Hall|]);
        repeat constructor; eauto. }
    exists results', total', errs', w'. split; [reflexivity|].
    split; [exact Hinv'|].
    intros p Hp. eapply kept_or_written_trans; eauto.
Qed.

Lemma forallb_filter_negb {A} (f : A -> bool) (l : list A) :
  forallb f l = true <-> List.filter (fun x => negb (f x)) l = [].
Proof.
  induction l as [|x l IH]; [easy|]. cbn.
  destruct (f x); cbn; [exact IH | easy].
Qed.

(** X6: the numbers of a report add up: a pass returns a report whose total is
    the sum of the counts of its entries, and an entry that failed counts
    nothing. *)
Theorem report_total_is_sum_of_entries (env : Env) (repos : list jsstring)
    (w : World E) :
  exists report w',
    syncMultipleRepositories env repos w = (Ok report, w')
    /\ totalItemsUpdated report
       = list_sum (map itemsUpdated (repositories report))
    /\ Forall (fun r => success r = false -> itemsUpdated r = 0%nat)
         (repositories report).
Proof.
  destruct (syncRepositoriesLoop_tallied env (repositoryConfigs env) [] 0%nat [] w)
    as (results & total & errs & w' & Hrun & (Htotal & _ & Hall) & _).
  { repeat split; constructor. }
  eexists _, w'.
  split; [exact (syncMultipleRepositories_eq env repos _ _ _ _ _ Hrun)|].
  cbn [totalItemsUpdated repositories]. split; [exact Htotal|].
  eapply Forall_impl; [exact Hall|]. cbn. intros r Hr Hfail.
  rewrite Hfail in Hr. tauto.
Qed.

(** X7: the messages of a report match its failures: there is one message per
    failed repository, the pass succeeds as a whole exactly when there is no
    message, and an entry carries an error exactly when it failed. *)
Theorem report_errors_match_failures (env : Env) (repos : list jsstring)
    (w : World E) :
  exists report w',
    syncMultipleRepositories env repos w = (Ok report, w')
    /\ length (errors report)
       = length (List.filter (fun r => negb (success r)) (repositories report))
    /\ (overallSuccess report = true <-> errors report = [])
    /\ Forall (fun r => success r = true <-> error r = None)
         (repositories report).
Proof.
  destruct (syncRepositoriesLoop_tallied env (repositoryConfigs env) [] 0%nat [] w)
    as (results & total & errs & w' & Hrun & (_ & Herrs & Hall) & _).
  { repeat split; constructor. }
  eexists _, w'.
  split; [exact (syncMultipleRepositories_eq env repos _ _ _ _ _ Hrun)|].
  cbn [errors repositories overallSuccess]. split; [exact Herrs|]. split.
  - rewrite forallb_filter_negb, <- !length_zero_iff_nil. now rewrite Herrs.
  - eapply Forall_impl; [exact Hall|]. cbn. intros r Hr.
    destruct (success r).
    + now split.
    + destruct Hr as [_ [m Hm]]. rewrite Hm. split; discriminate.
Qed.

(** X8: the loop of [syncFiles] never throws and never counts more than it
    goes over: a failed fetch ends it and a failed store is skipped, both
    inside their [try] blocks, so it returns, and its counter grows by no
    more than the number of entries. *)
Theorem syncFiles_loop_counts_at_most_its_entries (env : Env)
    (gitApi owner repo branch repositoryUrl : jsstring)
    (entries : list GitTreeItem) (itemsUpdated : nat) (w : World E) :
  exists n w',
    syncFilesLoop env gitApi owner repo branch repositoryUrl entries itemsUpdated w
    = (Ok n, w')
    /\ (itemsUpdated <= n <= itemsUpdated + length entries)%nat.
Proof.
  destruct (syncFilesLoop_bound env gitApi owner repo branch repositoryUrl
              entries itemsUpdated w) as (n & w' & Hrun & Hn & _).
  now exists n, w'.
Qed.

(** X9: a pass removes nothing from the mirror and writes no empty file: every
    path outside the activation directory is left as it was or holds a
    regular file with a text that is not empty, so a file that disappears
    upstream, or becomes empty there, stays in the mirror as it was. *)
Theorem pass_only_writes_text (env : Env) (repos : list jsstring) (w : World E) :
  exists report w',
    syncMultipleRepositories env repos w = (Ok report, w')
    /\ (forall p, (forall name, p <> activationPath env name) ->
          kept_or_written (files w) (files w') p)
    /\ (forall p, (forall name, p <> activationPath env name) ->
          is_Some (files w !! p) -> is_Some (files w' !! p)).
Proof.
  destruct (syncRepositoriesLoop_tallied env (repositoryConfigs env) [] 0%nat [] w)
    as (results & total & errs & w' & Hrun & _ & Hfiles).
  { repeat split; constructor. }
  eexists _, w'.
  split; [exact (syncMultipleRepositories_eq env repos _ _ _ _ _ Hrun)|].
  split; [exact Hfiles|].
  intros p Hp Hsome. destruct (Hfiles p Hp) as [->|(c & _ & ->)]; eauto.
Qed.

(** X10: a fetch that fails does not fail the repository: when the content of
    the first file to sync cannot be fetched, the turn ends there, leaves the
    disk alone and reports the repository as synced, with no item and no
    error. *)
Theorem failed_fetch_is_reported_as_success (env : Env) (entry : RepoConfig)
    (w w1 : World E) (gitApi owner repo : jsstring) (tree rest : list GitTreeItem)
    (file : GitTreeItem) (err : exn) (e' : E) :
  fetchTree env entry w = (Ok (gitApi, owner, repo, tree), w1) ->
  filterRelevantFiles env tree = file :: rest ->
  getFileContent gitApi owner repo (path file) (branch entry) (ext w1)
    = (Throw err, e') ->
  exists w',
    syncRepository env entry w = (Ok (synced (url entry) 0), w')
    /\ success (pushed (synced (url entry) 0)) = true
    /\ files w' = files w.
Proof.
  intros Hfetch Hfilter Hcontent.
  pose proof (fetchTree_keeps_files env entry w) as Hkeep.
  rewrite Hfetch in Hkeep. cbn [snd] in Hkeep.
  unfold syncRepository, try_catch, syncRepositoryBody, bind.
  rewrite Hfetch, Hfilter. cbn [length Nat.eqb].
  unfold syncFiles, bind, onFiles, FS.ensureDirectoryExists, ret.
  cbn [files ext gitProviders syncFilesLoop].
  unfold bind at 1, try_catch at 1, bind at 1, onExt.
  cbn [files ext gitProviders]. rewrite Hcontent.
  eexists. split; [reflexivity|]. split; [reflexivity|]. exact Hkeep.
Qed.

End ReportFacts.

Lemma failed_fetch_is_reported_as_success_witness :
  exists w',
    syncRepository (api := Cases.failingApi Examples.pairTree) Examples.envU
      (Examples.repo Examples.Ru) Examples.emptyWorld
    = (Ok (synced (js Examples.Ru) 0), w')
    /\ success (pushed (synced (js Examples.Ru) 0)) = true
    /\ files w' = files Examples.emptyWorld.
Proof.
  apply (failed_fetch_is_reported_as_success (api := Cases.failingApi Examples.pairTree)
           Examples.envU (Examples.repo Examples.Ru) Examples.emptyWorld
           {| files := ∅; ext := tt; gitProviders := {[js Examples.Ru]} |}
           (js Examples.Ru) (js "o") (js "r") Examples.pairTree
           [Examples.blob "prompts/b.md"] (Examples.blob "agents/a.md")
           (JsError (js "rate limit exceeded")) tt); reflexivity.
Defined.

(* ===================================================================== *)
(** ** Writing a mirror file, identifiers and workspace names *)
(* ===================================================================== *)

Module WriteFacts.

(** Where a write lands is where a read arrives afterwards. *)
Lemma writepath_realpath (n : nat) (fs : filesystem) (p q c : jsstring) :
  FS.writepath n fs p = Some q ->
  FS.realpath n (<[q := File c]> fs) p = Some q.
Proof.
  revert p. induction n as [|n IH]; intros p; [discriminate|].
  cbn [FS.writepath FS.realpath].
  destruct (fs !! p) as [[c0|t]|] eqn:Hp.
  - intros [= <-]. now rewrite lookup_insert_eq.
  - intros Hw. destruct (decide (p = q)) as [->|Hne].
    + rewrite lookup_insert_eq. reflexivity.
    + rewrite lookup_insert_ne, Hp by congruence. now apply IH.
  - intros [= <-]. now rewrite lookup_insert_eq.
Qed.

End WriteFacts.

(** X11: writing a file and asking at once whether it needs an update: the
    text is read back as written, also through a chain of links, and the
    answer is no. *)
Theorem written_file_needs_no_update (p content : jsstring)
    (fs fs' : filesystem) :
  FS.writeFileContent p content fs = (Ok tt, fs') ->
  FS.readFileContent p fs' = (Ok content, fs')
  /\ shouldUpdateFile p content fs' = (Ok false, fs').
Proof.
  unfold FS.writeFileContent.
  destruct (FS.writepath FS.max_links fs p) as [q|] eqn:Hq; [|discriminate].
  intros [= <-].
  assert (Hstat : FS.stat (<[q := File content]> fs) p = Some content).
  { unfold FS.stat.
    rewrite (WriteFacts.writepath_realpath _ _ _ _ content Hq).
    now rewrite lookup_insert_eq. }
  split.
  - unfold FS.readFileContent. now rewrite Hstat.
  - rewrite shouldUpdateFile_spec, Hstat. now rewrite bool_decide_eq_true_2.
Qed.

Lemma written_file_needs_no_update_witness :
  FS.readFileContent (activationPath Examples.envU (js "x.prompt.md"))
    (<[Examples.mirrored Examples.envU Examples.Ru "x.prompt.md" := File (js "new")]>
       Examples.fsActive)
  = (Ok (js "new"),
     <[Examples.mirrored Examples.envU Examples.Ru "x.prompt.md" := File (js "new")]>
       Examples.fsActive)
  /\ shouldUpdateFile (activationPath Examples.envU (js "x.prompt.md")) (js "new")
       (<[Examples.mirrored Examples.envU Examples.Ru "x.prompt.md" := File (js "new")]>
          Examples.fsActive)
     = (Ok false,
        <[Examples.mirrored Examples.envU Examples.Ru "x.prompt.md" := File (js "new")]>
          Examples.fsActive).
Proof.
  apply (written_file_needs_no_update
           (activationPath Examples.envU (js "x.prompt.md")) (js "new")
           Examples.fsActive).
  reflexivity.
Defined.

Module IdentifierFacts.

Lemma split1_parts (c : N) (s : jsstring) :
  Forall (fun part => ~ In c part) (split1 c s).
Proof.
  induction s as [|x s IH]; cbn [split1].
  - repeat constructor. intros [].
  - destruct (N.eqb_spec x c) as [->|Hx].
    + constructor; [intros [] | exact IH].
    + destruct (split1 c s) as [|part parts]; [repeat constructor; cbn; tauto|].
      apply Forall_cons in IH as [Hpart Hparts].
      constructor; [|exact Hparts].
      intros [Heq|Hin]; [now apply Hx | now apply Hpart].
Qed.

Lemma dash_name (a b : jsstring) :
  ~ In 47 a -> ~ In 47 b -> dash a b <> [] /\ ~ In 47 (dash a b).
Proof.
  intros Ha Hb. unfold dash. split.
  - destruct a; discriminate.
  - rewrite !in_app_iff. cbn. intros [H|[[H|[]]|H]]; [tauto | discriminate | tauto].
Qed.

Lemma filter_parts (c : N) (f : jsstring -> bool) (s : jsstring) :
  Forall (fun part => ~ In c part /\ f part = true) (List.filter f (split1 c s)).
Proof.
  apply Forall_forall. intros part Hin%list_elem_of_In%filter_In.
  destruct Hin as [Hin Hf]. split; [|exact Hf].
  pose proof (split1_parts c s) as Hall. rewrite Forall_forall in Hall.
  now apply Hall, list_elem_of_In.
Qed.

Lemma stripPrefix_startsWith (p s : jsstring) :
  stripPrefix p s = None <-> startsWith s p = false.
Proof.
  revert s. induction p as [|x p IH]; intros [|y s]; cbn; try easy.
  destruct (x =? y); cbn; [apply IH | easy].
Qed.

Lemma stripPrefix_app (p s : jsstring) : stripPrefix p (p ++ s) = Some s.
Proof.
  induction p as [|x p IH]; [reflexivity|]. cbn. now rewrite N.eqb_refl.
Qed.

Lemma startsWith_app (p s : jsstring) : startsWith (p ++ s) p = true.
Proof.
  induction p as [|x p IH]; [now destruct s|]. cbn. now rewrite N.eqb_refl.
Qed.

(** A text that does not hold the separator is not split. *)
Lemma splitOn_aux_absent (fuel : nat) (sep cur s : jsstring) :
  includes s sep = false ->
  splitOn_aux fuel sep cur s = [rev cur ++ s].
Proof.
  revert cur s. induction fuel as [|fuel IH]; intros cur s Hs; [reflexivity|].
  cbn [splitOn_aux]. destruct s as [|x s]; [now rewrite app_nil_r|].
  cbn [includes] in Hs. apply orb_false_iff in Hs as [Hstart Hrest].
  apply stripPrefix_startsWith in Hstart. rewrite Hstart, IH by exact Hrest.
  cbn [rev]. now rewrite <- app_assoc.
Qed.

Lemma includes_spec (s p : jsstring) :
  includes s p = true <-> exists a b, s = a ++ p ++ b.
Proof.
  induction s as [|x s IH]; cbn [includes].
  - rewrite orb_false_r. split.
    + intros H. destruct p; [now exists [], [] | discriminate].
    + intros (a & b & Heq). symmetry in Heq.
      apply app_eq_nil in Heq as [_ [-> _]%app_eq_nil]. reflexivity.
  - rewrite orb_true_iff, IH. split.
    + intros [Hstart|(a & b & ->)].
      * assert (Hpre : exists post, x :: s = p ++ post).
        { clear IH. revert Hstart. generalize (x :: s) as t. clear.
          induction p as [|y p IH]; intros t Ht; [now exists t|].
          destruct t as [|z t]; [discriminate|]. cbn in Ht.
          apply andb_prop in Ht as [->%N.eqb_eq Ht].
          destruct (IH t Ht) as [post ->]. now exists post. }
        destruct Hpre as [post Hpost]. now exists [], post.
      * now exists (x :: a), b.
    + intros (a & b & Heq). destruct a as [|y a].
      * left. cbn [app] in Heq. rewrite Heq. apply startsWith_app.
      * right. injection Heq as _ ->. now exists a, b.
Qed.

(** The identifier is read off the segments of the URL. *)
Lemma getRepositoryIdentifier_shape (u : jsstring) :
  identifier_shape (getRepositoryIdentifier u).
Proof.
  unfold getRepositoryIdentifier. cbv zeta.
  set (identifier := removeSuffix _ _).
  assert (Hfallback :
    identifier_shape
      match rev (List.filter truthy (split1 47 identifier)) with
      | last :: prev :: _ => dash prev last
      | [last] => last
      | [] => js "repo"
      end).
  { pose proof (filter_parts 47 truthy identifier) as Hall.
    apply Forall_rev in Hall.
    destruct (rev (List.filter truthy (split1 47 identifier))) as [|a [|b l]].
    - apply shape_one; [discriminate | cbn; intuition discriminate].
    - apply Forall_cons in Hall as [[Ha Ht] _]. apply shape_one; [|exact Ha].
      intros ->. discriminate.
    - apply Forall_cons in Hall as [[Ha _] [[Hb _] _]%Forall_cons].
      now apply shape_two. }
  assert (Hazure :
    match
      (if includes identifier (js "dev.azure.com/") then
         match List.filter (fun p => truthy p && negb (str_eqb p (js "_git")))
                 (split1 47 identifier) with
         | _ :: p1 :: p2 :: p3 :: _ => Some (dash p1 (dash p2 p3))
         | _ => None
         end
       else None)
    with
    | Some r => identifier_shape r
    | None => True
    end).
  { destruct (includes identifier (js "dev.azure.com/")); [|exact I].
    pose proof (filter_parts 47
                  (fun p => truthy p && negb (str_eqb p (js "_git"))) identifier)
      as Hall.
    destruct (List.filter (fun p => truthy p && negb (str_eqb p (js "_git")))
                (split1 47 identifier)) as [|p0 [|p1 [|p2 [|p3 l]]]];
      try exact I.
    apply Forall_cons in Hall
      as [_ [[H1 _] [[H2 _] [[H3 _] _]%Forall_cons]%Forall_cons]%Forall_cons].
    now apply shape_three. }
  destruct (includes identifier (js "github.com/")).
  - destruct (splitOn (js "github.com/") identifier) as [|s0 [|after l]].
    + destruct (if includes identifier (js "dev.azure.com/") then _ else _);
        [exact Hazure | exact Hfallback].
    + destruct (if includes identifier (js "dev.azure.com/") then _ else _);
        [exact Hazure | exact Hfallback].
    + pose proof (split1_parts 47 after) as Hall.
      destruct (split1 47 after) as [|p0 [|p1 l']].
      * destruct (if includes identifier (js "dev.azure.com/") then _ else _);
          [exact Hazure | exact Hfallback].
      * destruct (if includes identifier (js "dev.azure.com/") then _ else _);
          [exact Hazure | exact Hfallback].
      * apply Forall_cons in Hall as [H0 [H1 _]%Forall_cons].
        now apply shape_two.
  - destruct (if includes identifier (js "dev.azure.com/") then _ else _);
      [exact Hazure | exact Hfallback].
Qed.

Lemma identifier_shape_no_slash (s : jsstring) :
  identifier_shape s -> ~ In 47 s.
Proof.
  intros [a b Ha Hb|a b c Ha Hb Hc|a _ Ha]; [| |exact Ha].
  - now apply dash_name.
  - apply dash_name; [exact Ha|]. now apply dash_name.
Qed.

(** What is cut off the end of a text lies after its last separator. *)
Lemma endsWith_after_sep (c : N) (a b ext : jsstring) :
  ~ In c ext -> endsWith (a ++ c :: b) ext = true -> endsWith b ext = true.
Proof.
  intros Hext [pre Heq]%FilterFacts.endsWith_spec.
  apply FilterFacts.endsWith_spec.
  assert (Hcut : forall e t y z : jsstring,
            ~ In c e -> e ++ y = t ++ c :: z -> exists r, t = e ++ r).
  { clear. induction e as [|e0 e IH]; intros t y z He Heq; [now exists t|].
    destruct t as [|t0 t].
    - injection Heq as -> _. destruct He. now left.
    - injection Heq as -> Heq. destruct (IH t y z) as [r ->]; eauto.
      intros H. apply He. now right. }
  apply (f_equal (@rev N)) in Heq.
  rewrite !rev_app_distr in Heq. cbn [rev] in Heq. rewrite <- app_assoc in Heq.
  destruct (Hcut (rev ext) (rev b) (rev pre) (rev a)) as [r Hr].
  - now rewrite <- in_rev.
  - symmetry. exact Heq.
  - exists (rev r). apply (f_equal (@rev N)) in Hr.
    now rewrite rev_involutive, rev_app_distr, rev_involutive in Hr.
Qed.

Lemma splitOn_aux_head (fuel : nat) (sep cur tail : jsstring) :
  sep <> [] ->
  splitOn_aux (S fuel) sep cur (sep ++ tail)
  = rev cur :: splitOn_aux fuel sep [] tail.
Proof.
  intros Hsep. destruct sep as [|x sep]; [now destruct Hsep|].
  cbn [splitOn_aux app].
  change (x :: sep ++ tail) with ((x :: sep) ++ tail).
  now rewrite stripPrefix_app.
Qed.

Lemma splitOn_head (sep tail : jsstring) :
  sep <> [] -> includes tail sep = false ->
  splitOn sep (sep ++ tail) = [[]; tail].
Proof.
  intros Hsep Htail. unfold splitOn.
  now rewrite splitOn_aux_head, splitOn_aux_absent.
Qed.

(** Two cuts of one text at a separator the front part does not hold. *)
Lemma separator_cases (c : N) (o r x y : jsstring) :
  ~ In c o -> o ++ c :: r = x ++ c :: y ->
  x = o /\ y = r \/ exists z, r = z ++ c :: y.
Proof.
  revert x. induction o as [|o0 o IH]; intros x Ho Heq.
  - destruct x as [|x0 x].
    + left. now injection Heq as ->.
    + right. injection Heq as -> ->. now exists x.
  - destruct x as [|x0 x].
    + injection Heq as -> _. destruct Ho. now left.
    + injection Heq as -> Heq.
      destruct (IH x) as [[-> ->]|[z ->]]; eauto.
      intros H. apply Ho. now right.
Qed.

End IdentifierFacts.

(** X12: the identifier of a repository is a name: whatever the URL, it is
    not empty and holds no slash. *)
Theorem identifier_is_a_name (u : jsstring) :
  getRepositoryIdentifier u <> [] /\ ~ In 47 (getRepositoryIdentifier u).
Proof.
  pose proof (IdentifierFacts.getRepositoryIdentifier_shape u) as Hshape.
  split; [|now apply IdentifierFacts.identifier_shape_no_slash].
  destruct Hshape as [a b _ _|a b c _ _ _|a Ha _]; [| |exact Ha].
  - unfold dash. now destruct a.
  - unfold dash. now destruct a.
Qed.

(** X13: a workspace name stays a file name: when the name of the mirrored file
    holds no slash, neither does the name it is activated under, suffixed or
    not. *)
Theorem workspace_name_holds_no_slash (env : Env) (f u : jsstring)
    (fs : filesystem) :
  ~ In 47 f ->
  exists name,
    getUniqueWorkspaceName env f u fs = (Ok name, fs) /\ ~ In 47 name.
Proof.
  intros Hf. unfold getUniqueWorkspaceName, bind.
  rewrite NameFacts.reposWithFile_spec.
  destruct (length _ <=? 1)%nat; [now exists f|].
  eexists. split; [reflexivity|].
  destruct (NameFacts.suffixedName_shape f) as (pre & post & Hsplit & ->).
  pose proof (IdentifierFacts.identifier_shape_no_slash _
                (IdentifierFacts.getRepositoryIdentifier_shape u)) as Hid.
  rewrite <- Hsplit in Hf. rewrite in_app_iff in Hf.
  change (js "@") with [64]. cbn [app].
  rewrite in_app_iff. cbn [In]. rewrite in_app_iff.
  intros [H|[H|[H|H]]]; [tauto | discriminate | tauto | tauto].
Qed.

Lemma workspace_name_holds_no_slash_witness :
  exists name,
    getUniqueWorkspaceName Examples.envB (js "x.prompt.md") (js Examples.R1)
      Examples.fsB = (Ok name, Examples.fsB)
    /\ ~ In 47 name.
Proof.
  apply (workspace_name_holds_no_slash Examples.envB (js "x.prompt.md")
           (js Examples.R1) Examples.fsB).
  compute_done.
Defined.

(** X14: the identifier of a GitHub repository is its owner and its name joined
    by a dash: [https://github.com/o/r] gives [o-r]. *)
Theorem github_identifier_is_owner_dash_name (o r : jsstring) :
  ~ In 47 o -> ~ In 47 r ->
  endsWith o (js "github.com") = false -> endsWith r (js ".git") = false ->
  getRepositoryIdentifier (js "https://github.com/" ++ o ++ js "/" ++ r)
  = o ++ js "-" ++ r.
Proof.
  intros Ho Hr Hhost Hgit.
  set (tail := o ++ js "/" ++ r).
  assert (Htail : includes tail (js "github.com/") = false).
  { destruct (includes tail (js "github.com/")) eqn:Hinc; [|reflexivity].
    apply IdentifierFacts.includes_spec in Hinc as (a & b & Heq).
    change (js "github.com/" ++ b) with (js "github.com" ++ 47 :: b) in Heq.
    rewrite app_assoc in Heq. unfold tail in Heq. cbn [js app] in Heq.
    fold (js "github.com") in Heq.
    destruct (IdentifierFacts.separator_cases 47 o r _ _ Ho Heq)
      as [[Hx _]|[z ->]].
    - assert (endsWith o (js "github.com") = true)
        by (apply FilterFacts.endsWith_spec; now exists a).
      congruence.
    - destruct Hr. apply in_or_app. right. now left. }
  assert (Hsuffix : endsWith (js "github.com/" ++ tail) (js ".git") = false).
  { destruct (endsWith (js "github.com/" ++ tail) (js ".git")) eqn:Hends;
      [|reflexivity].
    change (js "github.com/" ++ tail) with ((js "github.com/" ++ o) ++ 47 :: r) in Hends.
    apply IdentifierFacts.endsWith_after_sep in Hends; [congruence|].
    cbn. intuition discriminate. }
  unfold getRepositoryIdentifier. cbv zeta.
  assert (Hid : removeSuffix (js ".git")
                  (removePrefix (js "www.")
                     (removeProtocol (js "https://github.com/" ++ tail)))
                = js "github.com/" ++ tail).
  { unfold removeProtocol.
    change (js "https://github.com/" ++ tail)
      with (js "https://" ++ js "github.com/" ++ tail).
    rewrite IdentifierFacts.stripPrefix_app.
    assert (Hwww : removePrefix (js "www.") (js "github.com/" ++ tail)
                   = js "github.com/" ++ tail) by reflexivity.
    rewrite Hwww. unfold removeSuffix. now rewrite Hsuffix. }
  rewrite Hid.
  assert (Hinc : includes (js "github.com/" ++ tail) (js "github.com/") = true)
    by (apply IdentifierFacts.includes_spec; now exists [], tail).
  rewrite Hinc, IdentifierFacts.splitOn_head by (exact Htail || discriminate).
  unfold tail. cbn [js app].
  rewrite RepairFacts.split1_app_sep.
  rewrite !RepairFacts.split1_no_sep
    by (apply Forall_forall; intros x Hx%list_elem_of_In ->; contradiction).
  reflexivity.
Qed.

Lemma github_identifier_is_owner_dash_name_witness :
  getRepositoryIdentifier (js "https://github.com/" ++ js "nventive" ++ js "/"
                             ++ js "Promptitude")
  = js "nventive" ++ js "-" ++ js "Promptitude".
Proof.
  apply (github_identifier_is_owner_dash_name (js "nventive") (js "Promptitude"));
    compute_done.
Defined.

(** X15: the bare name is kept exactly when at most one configured entry has the
    file in its mirror; entries are counted as they are listed, a repository
    listed twice counts twice. *)
Theorem bare_name_iff_at_most_one_mirror (env : Env) (f u : jsstring)
    (fs : filesystem) :
  getUniqueWorkspaceName env f u fs = (Ok f, fs)
  <-> (length (List.filter (fun rc => mirrorHas env fs (url rc) f)
                 (repositoryConfigs env)) <= 1)%nat.
Proof.
  unfold getUniqueWorkspaceName, bind.
  rewrite NameFacts.reposWithFile_spec. cbn [app]. rewrite length_map.
  destruct (Nat.leb_spec (length (List.filter (fun rc => mirrorHas env fs (url rc) f)
                                    (repositoryConfigs env))) 1) as [Hle|Hgt].
  - split; [intros _; exact Hle | reflexivity].
  - split; [|lia]. unfold ret. intros [= Heq].
    now apply NameFacts.suffixedName_changes in Heq.
Qed.

(** X16: a repository listed twice, as it is when two of its branches are
    configured, collides with itself: a file of its mirror is activated
    under the suffixed name although no other repository has it. *)
Theorem repository_listed_twice_gets_suffix (env : Env) (fs : filesystem)
    (pre mid post : list RepoConfig) (rc1 rc2 : RepoConfig) (f u : jsstring) :
  repositoryConfigs env = pre ++ rc1 :: mid ++ rc2 :: post ->
  url rc1 = url rc2 ->
  mirrorHas env fs (url rc1) f = true ->
  getUniqueWorkspaceName env f u fs
  = (Ok (suffixedName f (getRepositoryIdentifier u)), fs).
Proof.
  intros Hconfigs Hsame Hmirror.
  unfold getUniqueWorkspaceName, bind.
  rewrite NameFacts.reposWithFile_spec. cbn [app]. rewrite length_map, Hconfigs.
  rewrite List.filter_app. cbn [List.filter]. rewrite Hmirror.
  rewrite List.filter_app. cbn [List.filter]. rewrite <- Hsame, Hmirror.
  rewrite !length_app. cbn [length]. rewrite length_app. cbn [length].
  destruct (Nat.leb_spec (length (List.filter (fun rc => mirrorHas env fs (url rc) f) pre)
       + S (length (List.filter (fun rc => mirrorHas env fs (url rc) f) mid)
            + S (length (List.filter (fun rc => mirrorHas env fs (url rc) f) post)))) 1);
    [lia | reflexivity].
Qed.

Lemma repository_listed_twice_gets_suffix_witness :
  getUniqueWorkspaceName
    (Examples.machine Linux true
       [ {| url := js Examples.Ru; branch := js "main" |};
         {| url := js Examples.Ru; branch := js "next" |} ])
    (js "x.prompt.md") (js Examples.Ru) Examples.fsMirror
  = (Ok (suffixedName (js "x.prompt.md") (getRepositoryIdentifier (js Examples.Ru))),
     Examples.fsMirror).
Proof.
  apply (repository_listed_twice_gets_suffix
           (Examples.machine Linux true
              [ {| url := js Examples.Ru; branch := js "main" |};
                {| url := js Examples.Ru; branch := js "next" |} ])
           Examples.fsMirror [] [] []
           {| url := js Examples.Ru; branch := js "main" |}
           {| url := js Examples.Ru; branch := js "next" |});
    [reflexivity | reflexivity | compute_done].
Defined.

(* ===================================================================== *)
(** ** Activation in general: overwriting, failing, reading back *)
(* ===================================================================== *)

Module LinkFacts.

Lemma realpath_S (k : nat) (fs : filesystem) (p : jsstring) :
  FS.realpath (S k) fs p
  = match fs !! p with
    | Some (Symlink t) => FS.realpath k fs t
    | Some (File _) => Some p
    | None => None
    end.
Proof. reflexivity. Qed.

Lemma realpath_mono (m k : nat) (fs : filesystem) (p q : jsstring) :
  FS.realpath m fs p = Some q -> (m <= k)%nat -> FS.realpath k fs p = Some q.
Proof.
  revert k p. induction m as [|m IH]; intros k p; [discriminate|].
  destruct k as [|k]; [lia|]. cbn [FS.realpath].
  destruct (fs !! p) as [[c|t]|]; try easy.
  intros H Hle. apply IH; [exact H | lia].
Qed.

Lemma realpath_file (k : nat) (fs : filesystem) (p q : jsstring) :
  FS.realpath k fs p = Some q -> exists c, fs !! q = Some (File c).
Proof.
  revert p. induction k as [|k IH]; intros p; [discriminate|].
  cbn [FS.realpath]. destruct (fs !! p) as [[c|t]|] eqn:Hp; try easy.
  - intros [= <-]. eauto.
  - apply IH.
Qed.

(** Following links in two disks that differ at [t] alone: the same path is
    reached, or [t] is met on the way. *)
Lemma realpath_visit (fs fs1 : filesystem) (t : jsstring) :
  (forall p, p <> t -> fs1 !! p = fs !! p) ->
  forall k p q,
    FS.realpath k fs1 p = Some q ->
    FS.realpath k fs p = Some q
    \/ exists m, (m <= k)%nat /\ FS.realpath m fs1 t = Some q.
Proof.
  intros Hsame. induction k as [|k IH]; intros p q; [discriminate|].
  destruct (decide (p = t)) as [->|Hne]; [right; eauto|].
  cbn [FS.realpath]. rewrite (Hsame p Hne).
  destruct (fs !! p) as [[c|t']|]; try easy; [now left|].
  intros [H|(m & Hm & H)]%IH; [now left | right].
  exists m. split; [lia | exact H].
Qed.

(** A link put at [t] that is read to the end reads what its source read
    before. *)
Lemma link_reads_source (fs fs1 : filesystem) (t s : jsstring) :
  fs1 !! t = Some (Symlink s) ->
  (forall p, p <> t -> fs1 !! p = fs !! p) ->
  forall k q, FS.realpath k fs1 s = Some q -> FS.realpath k fs s = Some q.
Proof.
  intros Hlink Hsame k. induction k as [k IH] using lt_wf_ind. intros q H.
  destruct (realpath_visit fs fs1 t Hsame k s q H) as [Hdone|(m & Hm & Ht)];
    [exact Hdone|].
  destruct m as [|m]; [discriminate|].
  cbn [FS.realpath] in Ht. rewrite Hlink in Ht.
  apply (realpath_mono m); [|lia]. apply IH; [lia | exact Ht].
Qed.

Lemma stat_through_link (fs fs1 : filesystem) (t s c : jsstring) :
  fs1 !! t = Some (Symlink s) ->
  (forall p, p <> t -> fs1 !! p = fs !! p) ->
  FS.stat fs1 t = Some c -> FS.stat fs s = Some c.
Proof.
  intros Hlink Hsame Hstat. unfold FS.stat in Hstat.
  change FS.max_links with (S 39) in Hstat.
  rewrite realpath_S, Hlink in Hstat.
  destruct (FS.realpath 39 fs1 s) as [q|] eqn:Hq; [|discriminate Hstat].
  destruct (realpath_file _ _ _ _ Hq) as [c' Hc'].
  rewrite Hc' in Hstat. injection Hstat as ->.
  apply (link_reads_source fs fs1 t s Hlink Hsame) in Hq.
  apply (realpath_mono 39 FS.max_links) in Hq; [|unfold FS.max_links; lia].
  unfold FS.stat. rewrite Hq, <- (Hsame q); [now rewrite Hc'|].
  intros ->. congruence.
Qed.

Lemma realpath_delete (k : nat) (fs : filesystem) (t p q : jsstring) :
  FS.realpath k (delete t fs) p = Some q ->
  FS.realpath k fs p = Some q /\ fs !! q = delete t fs !! q.
Proof.
  revert p. induction k as [|k IH]; intros p; [discriminate|].
  cbn [FS.realpath].
  destruct (decide (p = t)) as [->|Hne]; [now rewrite lookup_delete_eq|].
  rewrite lookup_delete_ne by congruence.
  destruct (fs !! p) as [[c|t']|] eqn:Hp; try easy; [|apply IH].
  intros [= <-]. split; [reflexivity|]. now rewrite lookup_delete_ne by congruence.
Qed.

Lemma stat_delete (fs : filesystem) (t p c : jsstring) :
  FS.stat (delete t fs) p = Some c -> FS.stat fs p = Some c.
Proof.
  unfold FS.stat. intros Hstat.
  destruct (FS.realpath FS.max_links (delete t fs) p) as [q|] eqn:Hq;
    [|discriminate Hstat].
  apply realpath_delete in Hq as [-> ->]. exact Hstat.
Qed.

(** With something readable at the target, [createPromptSymlink] removes
    it and goes on as it does on the disk without it. *)
Lemma createPromptSymlink_present (env : Env) (source target : jsstring)
    (fs : filesystem) :
  is_Some (FS.stat fs target) ->
  createPromptSymlink env source target fs
  = createPromptSymlink env source target (delete target fs).
Proof.
  intros Hpresent.
  destruct (ActivationFacts.stat_is_Some_lookup _ _ Hpresent) as [node Hnode].
  unfold createPromptSymlink.
  unfold bind at 1. unfold FS.ensureDirectoryExists at 1, ret at 1.
  unfold bind at 1. rewrite ActivationFacts.fileExists_eq.
  rewrite (bool_decide_eq_true_2 _ Hpresent).
  unfold bind at 1. cbn [when]. unfold FS.delete at 1. rewrite Hnode.
  symmetry.
  unfold bind at 1. unfold FS.ensureDirectoryExists at 1, ret at 1.
  unfold bind at 1. rewrite ActivationFacts.fileExists_eq.
  rewrite (ActivationFacts.stat_absent _ _ (lookup_delete_eq fs target)).
  cbn [bool_decide decide_rel is_Some_dec when].
  unfold bind at 1, ret at 1. reflexivity.
Qed.

Lemma createPromptSymlink_cleared (env : Env) (source target : jsstring)
    (fs : filesystem) :
  createPromptSymlink env source target fs
  = createPromptSymlink env source target (cleared target fs).
Proof.
  unfold cleared.
  destruct (bool_decide_reflect (is_Some (FS.stat fs target))); [|reflexivity].
  now apply createPromptSymlink_present.
Qed.

Lemma cleared_absent (target : jsstring) (fs : filesystem) :
  FS.stat (cleared target fs) target = None.
Proof.
  unfold cleared.
  destruct (bool_decide_reflect (is_Some (FS.stat fs target))) as [|Hno].
  - apply ActivationFacts.stat_absent, lookup_delete_eq.
  - destruct (FS.stat fs target); [destruct Hno; eauto | reflexivity].
Qed.

Lemma stat_cleared (target p c : jsstring) (fs : filesystem) :
  FS.stat (cleared target fs) p = Some c -> FS.stat fs p = Some c.
Proof.
  unfold cleared. destruct (bool_decide _); [apply stat_delete | easy].
Qed.

(** How a run of [createPromptSymlink] that returns went: a link was put
    at the target, or, on win32 without the right to link, the text of the
    source was written there. *)
Lemma createPromptSymlink_ok (env : Env) (source target : jsstring)
    (fs fs1 : filesystem) :
  createPromptSymlink env source target fs = (Ok tt, fs1) ->
  (cleared target fs !! target = None
   /\ fs1 = <[target := Symlink source]> (cleared target fs)
   /\ is_Some (FS.stat fs1 target))
  \/ (exists c q,
        FS.stat (cleared target fs) source = Some c
        /\ FS.writepath FS.max_links (cleared target fs) target = Some q
        /\ fs1 = <[q := File c]> (cleared target fs)).
Proof.
  rewrite createPromptSymlink_cleared.
  generalize (cleared_absent target fs). generalize (cleared target fs).
  clear fs. intros fs Habsent.
  unfold createPromptSymlink, bind, FS.ensureDirectoryExists, ret.
  rewrite ActivationFacts.fileExists_eq, Habsent.
  cbn [bool_decide decide_rel is_Some_dec when ret].
  unfold try_catch at 1. unfold FS.symlink.
  destruct (symlink_permitted env); cbn [negb].
  - destruct (fs !! target) eqn:Hl;
      [cbn [isEPERM]; rewrite andb_false_r; unfold throw; discriminate|].
    rewrite ActivationFacts.fileExists_eq.
    destruct (bool_decide_reflect
                (is_Some (FS.stat (<[target:=Symlink source]> fs) target)));
      cbn [negb]; intros [= <-]; left; auto.
  - cbn [isEPERM]. rewrite andb_true_r.
    destruct (isWin32 env); [|discriminate].
    unfold try_catch, bind, FS.readFileContent.
    destruct (FS.stat fs source) as [c|] eqn:Hsrc; [|discriminate].
    unfold FS.writeFileContent.
    destruct (FS.writepath FS.max_links fs target) as [q|] eqn:Hq; [|discriminate].
    rewrite ActivationFacts.fileExists_eq.
    destruct (bool_decide _); cbn [negb]; intros [= <-].
    right. now exists c, q.
Qed.

(** What a run of [activatePrompt] that returns went through. *)
Lemma activatePrompt_ok (env : Env) (f u name : jsstring) (fs fs' : filesystem) :
  activatePrompt env f (Some u) fs = (Ok name, fs') ->
  is_Some (FS.stat fs (FS.joinPath (getRepositoryPath env u) f))
  /\ getUniqueWorkspaceName env f u fs = (Ok name, fs)
  /\ createPromptSymlink env (FS.joinPath (getRepositoryPath env u) f)
       (activationPath env name) fs = (Ok tt, fs').
Proof.
  intros Hact. unfold activatePrompt in Hact.
  destruct (truthy u); cbn [negb] in Hact; [|discriminate].
  unfold try_catch, bind in Hact. rewrite ActivationFacts.fileExists_eq in Hact.
  destruct (bool_decide_reflect
              (is_Some (FS.stat fs (FS.joinPath (getRepositoryPath env u) f))))
    as [Hsrc|]; cbn [negb] in Hact; [|discriminate].
  destruct (ActivationFacts.getUniqueWorkspaceName_reads env f u fs) as [nm Hnm].
  rewrite Hnm in Hact.
  destruct (createPromptSymlink env _ _ fs) as [[[]|e] fs1] eqn:Hc;
    [|discriminate].
  rewrite ActivationFacts.fileExists_eq in Hact.
  destruct (bool_decide _); cbn [negb] in Hact; [|discriminate].
  injection Hact as -> ->. auto.
Qed.

End LinkFacts.

(** X17: an activated prompt reads as its mirror file: when [activatePrompt]
    returns, the file at the workspace name it answers, read through the link
    or as the copy, has the text the mirror file had. *)
Theorem activated_prompt_reads_as_its_source (env : Env) (f u name : jsstring)
    (fs fs' : filesystem) :
  activatePrompt env f (Some u) fs = (Ok name, fs') ->
  exists c,
    FS.stat fs (FS.joinPath (getRepositoryPath env u) f) = Some c
    /\ FS.stat fs' (activationPath env name) = Some c.
Proof.
  intros (_ & _ & Hcreate)%LinkFacts.activatePrompt_ok.
  set (source := FS.joinPath (getRepositoryPath env u) f) in *.
  set (target := activationPath env name) in *.
  apply LinkFacts.createPromptSymlink_ok in Hcreate
    as [(Hnone & -> & [c Hc])|(c & q & Hsrc & Hq & ->)].
  - exists c. split; [|exact Hc].
    apply LinkFacts.stat_cleared with target.
    apply (LinkFacts.stat_through_link (cleared target fs)
             (<[target := Symlink source]> (cleared target fs)) target source c);
      [apply lookup_insert_eq | | exact Hc].
    intros p Hp. now apply lookup_insert_ne, not_eq_sym.
  - exists c. split; [now apply LinkFacts.stat_cleared with target|].
    unfold FS.stat.
    rewrite (WriteFacts.writepath_realpath _ _ _ _ c Hq).
    now rewrite lookup_insert_eq.
Qed.

Lemma activated_prompt_reads_as_its_source_witness :
  exists c,
    FS.stat Examples.fsTaken
      (FS.joinPath (getRepositoryPath Examples.envU (js Examples.Ru)) (js "x.prompt.md"))
    = Some c
    /\ FS.stat Examples.fsActive (activationPath Examples.envU (js "x.prompt.md"))
       = Some c.
Proof.
  apply (activated_prompt_reads_as_its_source Examples.envU (js "x.prompt.md")
           (js Examples.Ru) (js "x.prompt.md") Examples.fsTaken Examples.fsActive).
  compute_done.
Defined.

(** X18: an activation writes at one path: whether it returns or throws, and
    whether or not something readable was at the workspace name, every other
    path of the disk is as before.  (A link at that name whose target is gone
    is the one case left out.) *)
Theorem activation_changes_one_path (env : Env) (f u name : jsstring)
    (fs : filesystem) :
  getUniqueWorkspaceName env f u fs = (Ok name, fs) ->
  fs !! activationPath env name = None
    \/ is_Some (FS.stat fs (activationPath env name)) ->
  forall p, p <> activationPath env name ->
    (activatePrompt env f (Some u) fs).2 !! p = fs !! p.
Proof.
  intros Hname Htarget p Hp. unfold activatePrompt.
  destruct (truthy u); cbn [negb]; [|reflexivity].
  unfold try_catch, bind. rewrite ActivationFacts.fileExists_eq.
  destruct (bool_decide _); cbn [negb]; [|reflexivity].
  rewrite Hname. fold (activationPath env name).
  set (source := FS.joinPath (getRepositoryPath env u) f).
  assert (Hframe : (createPromptSymlink env source (activationPath env name) fs).2 !! p
                   = fs !! p).
  { destruct Htarget as [Hnone|Hpresent].
    - now apply FrameFacts.createPromptSymlink_frame.
    - rewrite LinkFacts.createPromptSymlink_present by exact Hpresent.
      rewrite FrameFacts.createPromptSymlink_frame
        by (apply lookup_delete_eq || exact Hp).
      now apply lookup_delete_ne, not_eq_sym. }
  destruct (createPromptSymlink env source (activationPath env name) fs)
    as [[[]|e] fs1]; cbn [snd] in Hframe; [|exact Hframe].
  rewrite ActivationFacts.fileExists_eq.
  destruct (bool_decide _); exact Hframe.
Qed.

Lemma activation_changes_one_path_witness :
  (activatePrompt Examples.envU (js "x.prompt.md") (Some (js Examples.Ru))
     Examples.fsTaken).2 !! Examples.mirrored Examples.envU Examples.Ru "x.prompt.md"
  = Examples.fsTaken !! Examples.mirrored Examples.envU Examples.Ru "x.prompt.md".
Proof.
  apply (activation_changes_one_path Examples.envU (js "x.prompt.md")
           (js Examples.Ru) (js "x.prompt.md") Examples.fsTaken).
  - compute_done.
  - right. compute_done.
  - intros Heq. vm_compute in Heq. discriminate Heq.
Defined.

(** X19: an activation that cannot link is not undone: where links are refused
    and the platform is not win32, activating over a readable file throws
    the refusal after the file has been removed. *)
Theorem refused_activation_removes_the_target (env : Env) (f u name : jsstring)
    (fs : filesystem) :
  symlink_permitted env = false -> isWin32 env = false ->
  u <> [] -> mirrorHas env fs u f = true ->
  getUniqueWorkspaceName env f u fs = (Ok name, fs) ->
  is_Some (FS.stat fs (activationPath env name)) ->
  activatePrompt env f (Some u) fs
  = (Throw (FsError EPERM (activationPath env name)),
     delete (activationPath env name) fs).
Proof.
  intros Hperm Hwin Hu Hmirror Hname Hpresent. unfold activatePrompt.
  assert (Htruthy : truthy u = true).
  { unfold truthy. apply negb_true_iff, str_eqb_false. exact Hu. }
  rewrite Htruthy. cbn [negb].
  unfold try_catch at 1, bind at 1. rewrite ActivationFacts.fileExists_eq.
  unfold mirrorHas in Hmirror. rewrite Hmirror. cbn [negb].
  unfold bind at 1. rewrite Hname. fold (activationPath env name).
  unfold bind at 1.
  rewrite LinkFacts.createPromptSymlink_present by exact Hpresent.
  unfold createPromptSymlink, bind, FS.ensureDirectoryExists, ret.
  rewrite ActivationFacts.fileExists_eq.
  rewrite (ActivationFacts.stat_absent _ _ (lookup_delete_eq fs _)).
  cbn [bool_decide decide_rel is_Some_dec when ret].
  unfold try_catch, FS.symlink. rewrite Hperm, Hwin. reflexivity.
Qed.

Lemma refused_activation_removes_the_target_witness :
  activatePrompt (Examples.machine Linux false [Examples.repo Examples.Ru])
    (js "x.prompt.md") (Some (js Examples.Ru)) Examples.fsTaken
  = (Throw (FsError EPERM (activationPath Examples.envU (js "x.prompt.md"))),
     delete (activationPath Examples.envU (js "x.prompt.md")) Examples.fsTaken).
Proof.
  apply (refused_activation_removes_the_target
           (Examples.machine Linux false [Examples.repo Examples.Ru])
           (js "x.prompt.md") (js Examples.Ru) (js "x.prompt.md") Examples.fsTaken);
    try reflexivity; compute_done.
Defined.

(** X20: deactivating twice is deactivating once: when [deactivatePrompt]
    returns, a second run on the disk it leaves returns as well and changes
    nothing. *)
Theorem deactivate_twice_is_once (env : Env) (name : jsstring)
    (fs fs' : filesystem) :
  deactivatePrompt env name fs = (Ok tt, fs') ->
  deactivatePrompt env name fs' = (Ok tt, fs').
Proof.
  rewrite !ActivationFacts.deactivatePrompt_eq,
    !ActivationFacts.removePromptSymlink_cases.
  set (target := activationPath env name).
  assert (Hgone : FS.stat (delete target fs) target = None).
  { apply ActivationFacts.stat_absent, lookup_delete_eq. }
  assert (Hnot : ~ is_Some (@None jsstring)) by (intros [c [=]]).
  destruct (bool_decide_reflect (is_Some (FS.stat fs target))) as [Hsome|Hnone].
  - destruct (fs !! target) as [[c|t]|] eqn:Hnode.
    + destruct (isWin32 env) eqn:Hwin; intros [= <-].
      * rewrite Hgone. now rewrite (bool_decide_eq_false_2 _ Hnot).
      * now rewrite (bool_decide_eq_true_2 _ Hsome), Hnode.
    + intros [= <-]. rewrite Hgone. now rewrite (bool_decide_eq_false_2 _ Hnot).
    + discriminate.
  - intros [= <-]. now rewrite (bool_decide_eq_false_2 _ Hnone).
Qed.

Lemma deactivate_twice_is_once_witness :
  deactivatePrompt Examples.envU (js "x.prompt.md") Examples.fsActive
    = (Ok tt, Examples.fsMirror)
  /\ deactivatePrompt Examples.envU (js "x.prompt.md") Examples.fsMirror
     = (Ok tt, Examples.fsMirror).
Proof.
  assert (Hrun : deactivatePrompt Examples.envU (js "x.prompt.md") Examples.fsActive
                 = (Ok tt, Examples.fsMirror)) by compute_done.
  split; [exact Hrun|].
  exact (deactivate_twice_is_once Examples.envU (js "x.prompt.md")
           Examples.fsActive Examples.fsMirror Hrun).
Defined.

(* ===================================================================== *)
(** ** The repair of one entry *)
(* ===================================================================== *)

Module RepairRun.

(** A run of [createPromptSymlink] that returns leaves something readable
    at the target. *)
Lemma createPromptSymlink_readable (env : Env) (source target : jsstring)
    (fs fs1 : filesystem) :
  createPromptSymlink env source target fs = (Ok tt, fs1) ->
  is_Some (FS.stat fs1 target).
Proof.
  intros [(_ & _ & Hex)|(c & q & _ & Hq & ->)]%LinkFacts.createPromptSymlink_ok;
    [exact Hex|].
  exists c. unfold FS.stat.
  rewrite (WriteFacts.writepath_realpath _ _ _ _ c Hq).
  now rewrite lookup_insert_eq.
Qed.

End RepairRun.

(** The entry is left as it is. *)
Ltac untouched fs :=
  exists false, fs; split; [reflexivity|];
  split; [reflexivity|]; split; [congruence | discriminate].

(** X21: the repair leaves everything alone but links whose target is gone: it
    never throws, it changes no path but the entry it looks at, it changes
    that one only when it is such a link with a name that does not start with
    a dot, and when it answers that it repaired, the entry can be read. *)
Theorem repair_touches_dangling_links_only (env : Env) (name : jsstring)
    (fs : filesystem) :
  exists repaired fs',
    fixBrokenSymlink env name fs = (Ok repaired, fs')
    /\ (forall p, p <> activationPath env name -> fs' !! p = fs !! p)
    /\ (fs' <> fs ->
        startsWith name (js ".") = false
        /\ exists t, fs !! activationPath env name = Some (Symlink t)
                     /\ FS.stat fs (activationPath env name) = None)
    /\ (repaired = true -> is_Some (FS.stat fs' (activationPath env name))).
Proof.
  unfold fixBrokenSymlink. fold (activationPath env name).
  destruct (startsWith name (js ".")) eqn:Hdot;
    [untouched fs|].
  unfold try_catch at 1, bind at 1, get at 1, FS.lstat.
  destruct (fs !! activationPath env name) as [[c|t]|] eqn:Hnode;
    try (untouched fs).
  destruct (FS.stat fs (activationPath env name)) eqn:Hstat;
    [untouched fs|].
  destruct (extractRepositoryUrlFromTargetPath (replaceAll1 92 47 t)) as [u|];
    [|untouched fs].
  destruct (truthy u);
    [|untouched fs].
  unfold bind at 1. rewrite ActivationFacts.fileExists_eq.
  destruct (bool_decide _);
    [|untouched fs].
  unfold bind at 1, FS.delete at 1. rewrite Hnode. unfold bind at 1.
  pose proof (FrameFacts.createPromptSymlink_frame env
                (FS.joinPath (getRepositoryPath env u) name)
                (activationPath env name) (delete (activationPath env name) fs)
                (lookup_delete_eq _ _)) as Hframe.
  destruct (createPromptSymlink env (FS.joinPath (getRepositoryPath env u) name)
              (activationPath env name) (delete (activationPath env name) fs))
    as [[[]|e] fs1] eqn:Hcreate; cbn [snd] in Hframe.
  - exists true, fs1. split; [reflexivity|]. split; [|split].
    + intros p Hp. rewrite Hframe by exact Hp.
      now apply lookup_delete_ne, not_eq_sym.
    + intros _. split; [reflexivity|]. now exists t.
    + intros _. exact (RepairRun.createPromptSymlink_readable _ _ _ _ _ Hcreate).
  - exists false, fs1. split; [reflexivity|]. split; [|split].
    + intros p Hp. rewrite Hframe by exact Hp.
      now apply lookup_delete_ne, not_eq_sym.
    + intros _. split; [reflexivity|]. now exists t.
    + discriminate.
Qed.

(* ===================================================================== *)
(** ** The cleanup of orphaned copies *)
(* ===================================================================== *)

Module CleanupFacts.

Lemma existsInRepo_spec (env : Env) (n : jsstring) (repos : list RepoConfig)
    (fs : filesystem) :
  existsInRepo env n repos fs
  = (Ok (existsb (fun rc => mirrorHas env fs (url rc) n) repos), fs).
Proof.
  induction repos as [|rc rest IH]; [reflexivity|].
  cbn [existsInRepo existsb]. unfold bind.
  rewrite ActivationFacts.fileExists_eq. unfold mirrorHas at 1.
  destruct (bool_decide _); [reflexivity | exact IH].
Qed.

Lemma size_delete_present (fs : filesystem) (p : jsstring) :
  is_Some (fs !! p) -> size fs = S (size (delete p fs)).
Proof.
  intros Hp. rewrite (map_size_delete_Some p fs Hp).
  destruct (size fs) eqn:Hsize; [|reflexivity].
  apply map_size_empty_iff in Hsize. subst fs.
  rewrite lookup_empty in Hp. now destruct Hp.
Qed.

(** One turn: nothing changes, or the regular file of the entry is removed
    and counted. *)
Lemma cleanupOrphanedEntry_cases (env : Env) (tree : option (list PromptInfo.t))
    (entry : Dirent.t) (removed : nat) (errors : list jsstring) (fs : filesystem) :
  (exists errors',
     cleanupOrphanedEntry env tree entry removed errors fs
     = (Ok (removed, errors'), fs))
  \/ (cleanupOrphanedEntry env tree entry removed errors fs
      = (Ok (S removed, errors), delete (activationPath env (Dirent.name entry)) fs)
      /\ Dirent.isDirectory entry = false
      /\ startsWith (Dirent.name entry) (js ".") = false
      /\ (exists c, fs !! activationPath env (Dirent.name entry) = Some (File c))
      /\ existsb (fun rc => mirrorHas env fs (url rc) (Dirent.name entry))
           (repositoryConfigs env) = true).
Proof.
  remember (cleanupOrphanedEntry env tree entry removed errors fs) as run eqn:Hrun.
  unfold cleanupOrphanedEntry in Hrun.
  fold (activationPath env (Dirent.name entry)) in Hrun.
  destruct (Dirent.isDirectory entry) eqn:Hdir; cbn [orb] in Hrun;
    [left; eexists; exact Hrun|].
  destruct (startsWith (Dirent.name entry) (js ".")) eqn:Hdot;
    [left; eexists; exact Hrun|].
  unfold try_catch, bind at 1, get, FS.lstat in Hrun.
  destruct (fs !! activationPath env (Dirent.name entry)) as [[c|t]|] eqn:Hnode;
    [|left; eexists; exact Hrun | left; eexists; exact Hrun].
  unfold bind at 1 in Hrun. rewrite existsInRepo_spec in Hrun.
  destruct (existsb _ (repositoryConfigs env)) eqn:Hin;
    [|left; eexists; exact Hrun].
  destruct (isWin32 env && _); [left; eexists; exact Hrun|].
  unfold bind, FS.delete in Hrun. rewrite Hnode in Hrun. right.
  split; [exact Hrun|]. split; [reflexivity|]. split; [reflexivity|].
  split; [now exists c | reflexivity].
Qed.

Lemma kept_or_removed_trans (env : Env) (entries : list Dirent.t)
    (fs1 fs2 fs3 : filesystem) (p : jsstring) :
  kept_or_removed env entries fs1 fs2 p -> kept_or_removed env entries fs2 fs3 p ->
  kept_or_removed env entries fs1 fs3 p.
Proof.
  unfold kept_or_removed.
  intros [H12|[H12 Hwhy]] [H23|[H23 (entry & c & Hin & Hdir & Hdot & Hp & Hfile)]].
  - left. congruence.
  - right. split; [exact H23|]. exists entry, c. rewrite <- H12. auto.
  - right. split; [congruence | exact Hwhy].
  - right. split; [exact H23 | exact Hwhy].
Qed.

Lemma kept_or_removed_more (env : Env) (entry : Dirent.t) (entries : list Dirent.t)
    (fs fs' : filesystem) (p : jsstring) :
  kept_or_removed env entries fs fs' p ->
  kept_or_removed env (entry :: entries) fs fs' p.
Proof.
  intros [H|[H (e & c & Hin & Hrest)]]; [now left | right].
  split; [exact H|]. exists e, c. split; [now right | exact Hrest].
Qed.

Lemma reads_within_delete (fs : filesystem) (t : jsstring) :
  reads_within fs (delete t fs).
Proof. intros p c. apply LinkFacts.stat_delete. Qed.

(** The loop: it returns, removes only what a turn may remove, counts
    every removal once, and what can still be read reads as before. *)
Lemma cleanupOrphanedLoop_run (env : Env) (tree : option (list PromptInfo.t))
    (entries : list Dirent.t) (removed : nat) (errors : list jsstring)
    (fs : filesystem) :
  exists removed' errors' fs',
    cleanupOrphanedLoop env tree entries removed errors fs
    = (Ok (removed', errors'), fs')
    /\ (forall p, kept_or_removed env entries fs fs' p)
    /\ (size fs + removed = size fs' + removed')%nat
    /\ reads_within fs fs'.
Proof.
  revert removed errors fs.
  induction entries as [|entry rest IH]; intros removed errors fs.
  - exists removed, errors, fs. split; [reflexivity|].
    split; [now left|]. split; [reflexivity | now intros p c].
  - cbn [cleanupOrphanedLoop]. unfold bind.
    destruct (cleanupOrphanedEntry_cases env tree entry removed errors fs)
      as [[errors1 ->]|(-> & Hdir & Hdot & [c Hfile] & _)].
    + destruct (IH removed errors1 fs)
        as (removed' & errors' & fs' & -> & Hframe & Hsize & Hreads).
      exists removed', errors', fs'. split; [reflexivity|].
      split; [|split; assumption].
      intros p. apply kept_or_removed_more, Hframe.
    + destruct (IH (S removed) errors
                  (delete (activationPath env (Dirent.name entry)) fs))
        as (removed' & errors' & fs' & -> & Hframe & Hsize & Hreads).
      exists removed', errors', fs'. split; [reflexivity|]. split; [|split].
      * intros p.
        apply (kept_or_removed_trans env (entry :: rest) fs
                 (delete (activationPath env (Dirent.name entry)) fs) fs' p);
          [|apply kept_or_removed_more, Hframe].
        destruct (decide (p = activationPath env (Dirent.name entry))) as [->|Hne].
        -- right. split; [apply lookup_delete_eq|].
           exists entry, c. repeat split; auto. now left.
        -- left. now apply lookup_delete_ne, not_eq_sym.
      * rewrite (size_delete_present fs (activationPath env (Dirent.name entry)))
          by eauto. lia.
      * intros p c' Hstat.
        apply (reads_within_delete fs (activationPath env (Dirent.name entry)) p c').
        now apply Hreads.
Qed.

Lemma cleanupOrphanedPrompts_eq (env : Env) (tree : option (list PromptInfo.t))
    (entries : list Dirent.t) (fs : filesystem) :
  cleanupOrphanedPrompts env tree entries fs
  = cleanupOrphanedLoop env tree entries 0%nat [] fs.
Proof.
  unfold cleanupOrphanedPrompts, try_catch, bind, FS.ensureDirectoryExists, ret.
  now destruct (cleanupOrphanedLoop env tree entries 0%nat [] fs) as [[?|?] ?].
Qed.

End CleanupFacts.

(** X22: the cleanup removes regular files of the listing and nothing else: it
    returns; a path is left as it was or held the regular file of a listed
    entry that is neither a directory nor hidden, so links, the mirror and
    what is not listed stay; and the count it answers is the number of files
    that are gone. *)
Theorem cleanup_removes_listed_regular_files_only (env : Env)
    (treeProvider : option (list PromptInfo.t)) (entries : list Dirent.t)
    (fs : filesystem) :
  exists removed errors fs',
    cleanupOrphanedPrompts env treeProvider entries fs = (Ok (removed, errors), fs')
    /\ (forall p, kept_or_removed env entries fs fs' p)
    /\ (forall p t, fs !! p = Some (Symlink t) -> fs' !! p = Some (Symlink t))
    /\ size fs = (size fs' + removed)%nat.
Proof.
  rewrite CleanupFacts.cleanupOrphanedPrompts_eq.
  destruct (CleanupFacts.cleanupOrphanedLoop_run env treeProvider entries 0%nat [] fs)
    as (removed & errors & fs' & -> & Hframe & Hsize & _).
  exists removed, errors, fs'. split; [reflexivity|]. split; [exact Hframe|].
  split; [|lia].
  intros p t Hlink.
  destruct (Hframe p) as [->|[_ (entry & c & _ & _ & _ & _ & Hfile)]];
    [exact Hlink | congruence].
Qed.

(** X23: the cleanup keeps what the user wrote under a name of their own: a
    path of the prompts directory whose name no configured mirror holds is
    left as it was, whatever the listing. *)
Theorem cleanup_keeps_names_no_mirror_holds (env : Env)
    (treeProvider : option (list PromptInfo.t)) (entries : list Dirent.t)
    (fs : filesystem) (n : jsstring) :
  (forall rc, In rc (repositoryConfigs env) -> mirrorHas env fs (url rc) n = false) ->
  (cleanupOrphanedPrompts env treeProvider entries fs).2 !! activationPath env n
  = fs !! activationPath env n.
Proof.
  intros Hnone. rewrite CleanupFacts.cleanupOrphanedPrompts_eq.
  assert (Hgen : forall entries removed errors fs0,
            reads_within fs fs0 ->
            (cleanupOrphanedLoop env treeProvider entries removed errors fs0).2
              !! activationPath env n
            = fs0 !! activationPath env n).
  { clear entries. induction entries as [|entry rest IH];
      intros removed errors fs0 Hreads; [reflexivity|].
    cbn [cleanupOrphanedLoop]. unfold bind.
    destruct (CleanupFacts.cleanupOrphanedEntry_cases env treeProvider entry
                removed errors fs0)
      as [[errors1 ->]|(-> & _ & _ & _ & Hin)].
    - now apply IH.
    - rewrite IH.
      + apply lookup_delete_ne. intros Heq.
        apply existsb_exists in Hin as (rc & Hrc & Hhas).
        unfold activationPath, FS.joinPath in Heq.
        apply app_inv_head in Heq. injection Heq as Heq.
        rewrite Heq in Hhas.
        specialize (Hnone rc Hrc). unfold mirrorHas in Hnone, Hhas.
        apply bool_decide_eq_true in Hhas as [c Hc].
        apply Hreads in Hc. rewrite Hc in Hnone.
        apply bool_decide_eq_false in Hnone. apply Hnone. eauto.
      + intros p c Hstat. apply Hreads.
        now apply (CleanupFacts.reads_within_delete fs0
                     (activationPath env (Dirent.name entry)) p c). }
  apply Hgen. now intros p c.
Qed.

Lemma cleanup_keeps_names_no_mirror_holds_witness :
  (cleanupOrphanedPrompts Examples.envU None
     [ {| Dirent.name := js "notes.md"; Dirent.isDirectory := false |} ]
     (<[activationPath Examples.envU (js "notes.md") := File (js "mine")]>
        Examples.fsMirror)).2
    !! activationPath Examples.envU (js "notes.md")
  = (<[activationPath Examples.envU (js "notes.md") := File (js "mine")]>
       Examples.fsMirror) !! activationPath Examples.envU (js "notes.md").
Proof.
  apply (cleanup_keeps_names_no_mirror_holds Examples.envU None
           [ {| Dirent.name := js "notes.md"; Dirent.isDirectory := false |} ]
           (<[activationPath Examples.envU (js "notes.md") := File (js "mine")]>
              Examples.fsMirror) (js "notes.md")).
  intros rc [<-|[]]. compute_done.
Defined.

(** X24: the cleanup cannot tell a file of the user from a copy: off win32, a
    regular file of the prompts directory that bears the name of a file in
    some configured mirror is removed and counted, whoever wrote it. *)
Theorem cleanup_removes_a_file_named_as_a_mirrored_one (env : Env)
    (treeProvider : option (list PromptInfo.t)) (fs : filesystem)
    (n c u : jsstring) :
  isWin32 env = false ->
  startsWith n (js ".") = false ->
  fs !! activationPath env n = Some (File c) ->
  configured env u -> mirrorHas env fs u n = true ->
  cleanupOrphanedPrompts env treeProvider
    [ {| Dirent.name := n; Dirent.isDirectory := false |} ] fs
  = (Ok (1%nat, []), delete (activationPath env n) fs).
Proof.
  intros Hwin Hdot Hfile Hconf Hmirror.
  rewrite CleanupFacts.cleanupOrphanedPrompts_eq.
  cbn [cleanupOrphanedLoop]. unfold bind at 1.
  unfold cleanupOrphanedEntry. cbn [Dirent.isDirectory Dirent.name orb].
  rewrite Hdot. fold (activationPath env n).
  unfold try_catch, bind at 1, get, FS.lstat. rewrite Hfile.
  unfold bind at 1. rewrite CleanupFacts.existsInRepo_spec.
  assert (Hin : existsb (fun rc => mirrorHas env fs (url rc) n)
                  (repositoryConfigs env) = true).
  { apply existsb_exists. unfold configured in Hconf.
    apply in_map_iff in Hconf as (rc & <- & Hrc). eauto. }
  rewrite Hin, Hwin. cbn [andb].
  unfold bind, FS.delete. now rewrite Hfile.
Qed.

Lemma cleanup_removes_a_file_named_as_a_mirrored_one_witness :
  cleanupOrphanedPrompts Examples.envU None
    [ {| Dirent.name := js "x.prompt.md"; Dirent.isDirectory := false |} ]
    Examples.fsTaken
  = (Ok (1%nat, []),
     delete (activationPath Examples.envU (js "x.prompt.md")) Examples.fsTaken).
Proof.
  apply (cleanup_removes_a_file_named_as_a_mirrored_one Examples.envU None
           Examples.fsTaken (js "x.prompt.md") (js "mine") (js Examples.Ru));
    try reflexivity; compute_done.
Defined.

(* ===================================================================== *)
(** ** The configured repositories *)
(* ===================================================================== *)

Module ConfigFacts.
Import Config.

Lemma trimStart_head (s : jsstring) :
  trimStart s = [] \/ exists c r, trimStart s = c :: r /\ isWhiteSpace c = false.
Proof.
  induction s as [|c r IH]; [now left|]. cbn [trimStart].
  destruct (isWhiteSpace c) eqn:Hc; [exact IH | right; eauto].
Qed.

Lemma trimStart_fixed (s : jsstring) :
  trimStart s = s <-> s = [] \/ exists c r, s = c :: r /\ isWhiteSpace c = false.
Proof.
  split.
  - intros H. rewrite <- H. apply trimStart_head.
  - intros [->|(c & r & -> & Hc)]; [reflexivity|]. cbn. now rewrite Hc.
Qed.

Lemma trimStart_idem (s : jsstring) : trimStart (trimStart s) = trimStart s.
Proof. apply trimStart_fixed, trimStart_head. Qed.

Lemma trimStart_snoc (l : jsstring) (c : N) :
  isWhiteSpace c = false -> exists l', trimStart (l ++ [c]) = l' ++ [c].
Proof.
  intros Hc. induction l as [|x l IH].
  - exists []. cbn. now rewrite Hc.
  - cbn [app trimStart]. destruct (isWhiteSpace x); [exact IH|].
    now exists (x :: l).
Qed.

(** A string is trimmed when neither end can be cut. *)
Lemma trim_fixed (s : jsstring) :
  trimStart s = s -> trimStart (rev s) = rev s -> trim s = s.
Proof.
  intros Hstart Hend. unfold trim, trimEnd.
  now rewrite Hstart, Hend, rev_involutive.
Qed.

Lemma trim_trimmed (s : jsstring) :
  trimStart (trim s) = trim s /\ trimStart (rev (trim s)) = rev (trim s).
Proof.
  unfold trim, trimEnd. split.
  - destruct (trimStart_head s) as [->|(c & r & -> & Hc)]; [reflexivity|].
    cbn [rev]. destruct (trimStart_snoc (rev r) c Hc) as [l' ->].
    rewrite rev_app_distr. cbn. now rewrite Hc.
  - rewrite rev_involutive. apply trimStart_idem.
Qed.

Lemma trim_idem (s : jsstring) : trim (trim s) = trim s.
Proof. destruct (trim_trimmed s). now apply trim_fixed. Qed.

Lemma existsb_str_eqb (x : jsstring) (l : list jsstring) :
  existsb (str_eqb x) l = true <-> In x l.
Proof.
  rewrite existsb_exists. split.
  - intros (y & Hy & ->%str_eqb_true). exact Hy.
  - intros H. exists x. split; [exact H | now apply str_eqb_true].
Qed.

Lemma uniqueFrom_In (seen l : list jsstring) (x : jsstring) :
  In x (uniqueFrom seen l) <-> In x l /\ ~ In x seen.
Proof.
  revert seen. induction l as [|y l IH]; intros seen; cbn [uniqueFrom].
  - cbn. tauto.
  - destruct (existsb (str_eqb y) seen) eqn:Hy.
    + apply existsb_str_eqb in Hy. rewrite IH. cbn. split.
      * tauto.
      * intros [[->|H] Hx]; [contradiction | tauto].
    + assert (Hy' : ~ In y seen).
      { intros H. apply existsb_str_eqb in H. congruence. }
      cbn [In]. rewrite IH. cbn [In]. split.
      * intros [->|[H Hx]]; [tauto|]. split; [tauto|]. tauto.
      * intros [[->|H] Hx]; [now left|].
        destruct (decide (y = x)) as [->|Hne]; [now left | right].
        split; [exact H|]. intros [Heq|Hin]; tauto.
Qed.

Lemma uniqueFrom_NoDup (seen l : list jsstring) :
  List.NoDup (uniqueFrom seen l).
Proof.
  revert seen. induction l as [|y l IH]; intros seen; cbn [uniqueFrom];
    [constructor|].
  destruct (existsb (str_eqb y) seen); [apply IH|].
  constructor; [|apply IH].
  rewrite uniqueFrom_In. cbn. tauto.
Qed.

Lemma uniqueFrom_fixed (seen l : list jsstring) :
  List.NoDup l -> (forall x, In x l -> ~ In x seen) -> uniqueFrom seen l = l.
Proof.
  revert seen. induction l as [|y l IH]; intros seen Hnd Hseen; [reflexivity|].
  cbn [uniqueFrom]. apply List.NoDup_cons_iff in Hnd as [Hy Hnd].
  destruct (existsb (str_eqb y) seen) eqn:Hex.
  - apply existsb_str_eqb in Hex. destruct (Hseen y); [now left | exact Hex].
  - f_equal. apply IH; [exact Hnd|].
    intros x Hx [<-|Hin]; [contradiction|].
    apply (Hseen x); [now right | exact Hin].
Qed.

(** The list the getter returns, entry by entry. *)
Lemma repositories_In (repository : list (option jsstring)) (e : jsstring) :
  In e (repositories repository).1
  <-> e <> [] /\ exists r, In r repository /\ trim (default [] r) = e.
Proof.
  unfold repositories. cbn [fst]. rewrite uniqueFrom_In, filter_In, in_map_iff.
  split.
  - intros [[(r & <- & Hr) Hlen] _]. split; [|eauto].
    intros Heq. rewrite Heq in Hlen. discriminate.
  - intros [Hne (r & Hr & <-)]. split; [|intros []]. split; [eauto|].
    destruct (trim (default [] r)); [contradiction | reflexivity].
Qed.

End ConfigFacts.

Lemma repositories_are_clean_in (repository : list (option jsstring)) :
  List.NoDup (Config.repositories repository).1
  /\ Forall (fun e => e <> [] /\ Config.trim e = e) (Config.repositories repository).1.
Proof.
  split; [apply ConfigFacts.uniqueFrom_NoDup|].
  apply Forall_forall. intros e He%list_elem_of_In%ConfigFacts.repositories_In.
  destruct He as [Hne (r & _ & <-)]. split; [exact Hne|].
  apply ConfigFacts.trim_idem.
Qed.

(** X25: the repositories the getter returns are clean: no entry comes twice,
    none is empty, each is trimmed, and the entries are exactly the trimmed
    forms of the stored ones that are not blank. *)
Theorem repositories_are_clean (repository : list (option jsstring)) :
  List.NoDup (Config.repositories repository).1
  /\ Forall (fun e => e <> [] /\ Config.trim e = e) (Config.repositories repository).1
  /\ forall e, In e (Config.repositories repository).1
       <-> e <> [] /\ exists r, In r repository /\ Config.trim (default [] r) = e.
Proof.
  split; [apply ConfigFacts.uniqueFrom_NoDup|].
  split; [|apply ConfigFacts.repositories_In].
  apply Forall_forall. intros e He%list_elem_of_In%ConfigFacts.repositories_In.
  destruct He as [Hne (r & _ & <-)]. split; [exact Hne|].
  apply ConfigFacts.trim_idem.
Qed.

(** X26: rewriting the setting settles it: once the list the getter returned is
    stored, the getter returns that list again and asks for no rewrite. *)
Theorem stored_repositories_are_read_back (repository : list (option jsstring)) :
  Config.repositories (map Some (Config.repositories repository).1)
  = ((Config.repositories repository).1, false).
Proof.
  destruct (repositories_are_clean_in repository) as (Hnd & Hall).
  set (l := (Config.repositories repository).1) in *.
  unfold Config.repositories at 1. cbv zeta.
  rewrite map_map. cbn [default from_option]. unfold id.
  assert (Hsan : List.filter (fun r => (0 <? length r)%nat)
                   (map (fun x => Config.trim x) l) = l).
  { clear Hnd. induction l as [|e l IH]; [reflexivity|].
    apply Forall_cons in Hall as [[Hne Htrim] Hall].
    cbn [map List.filter]. rewrite Htrim.
    destruct e; [contradiction|]. cbn [length Nat.ltb Nat.leb].
    f_equal. now apply IH. }
  rewrite Hsan, ConfigFacts.uniqueFrom_fixed by (exact Hnd || tauto).
  now rewrite length_map, Nat.eqb_refl.
Qed.

(** X27: the branch of a configured entry is never blank: it is not empty
    and it is trimmed, [main] standing in for a branch that is missing or
    blank; the URL holds no bar, and an entry without a bar is its own URL on
    [main]. *)
Theorem configured_branch_is_never_blank (entry : jsstring) :
  branch (Config.repositoryConfig entry) <> []
  /\ Config.trim (branch (Config.repositoryConfig entry))
     = branch (Config.repositoryConfig entry)
  /\ ~ In 124 (url (Config.repositoryConfig entry))
  /\ (~ In 124 entry ->
      Config.repositoryConfig entry = {| url := entry; branch := js "main" |}).
Proof.
  unfold Config.repositoryConfig. cbv zeta. cbn [url branch].
  pose proof (IdentifierFacts.split1_parts 124 entry) as Hparts.
  pose proof (RepairFacts.split1_nonempty 124 entry) as Hne.
  split; [|split; [|split]].
  - destruct (split1 124 entry !! 1%nat) as [b|]; [|discriminate].
    destruct (truthy b && truthy (Config.trim b)) eqn:Hb; [|discriminate].
    apply andb_prop in Hb as [_ Hb]. intros Heq. rewrite Heq in Hb. discriminate.
  - destruct (split1 124 entry !! 1%nat) as [b|]; [|reflexivity].
    destruct (truthy b && truthy (Config.trim b)); [|reflexivity].
    apply ConfigFacts.trim_idem.
  - destruct (split1 124 entry) as [|u rest]; [contradiction|].
    cbn [nth]. now apply Forall_cons in Hparts as [Hu _].
  - intros Hbar. rewrite RepairFacts.split1_no_sep; [reflexivity|].
    apply Forall_forall. intros x Hx%list_elem_of_In ->. contradiction.
Qed.

(** X28: deduplication is by whole entry, not by repository: the same URL
    configured on two branches stays as two entries, both with that URL. *)
Theorem two_branches_of_one_repository_are_two_entries (u a b : jsstring) :
  ~ In 124 u -> a <> b ->
  Config.trim (u ++ js "|" ++ a) = u ++ js "|" ++ a ->
  Config.trim (u ++ js "|" ++ b) = u ++ js "|" ++ b ->
  map url (Config.repositoryConfigs
             [Some (u ++ js "|" ++ a); Some (u ++ js "|" ++ b)])
  = [u; u].
Proof.
  intros Hu Hab Ha Hb.
  assert (Hlen : forall x, (0 <? length (u ++ js "|" ++ x))%nat = true).
  { intros x. rewrite length_app. cbn [js app length].
    apply Nat.ltb_lt. lia. }
  assert (Hurl : forall x, url (Config.repositoryConfig (u ++ js "|" ++ x)) = u).
  { intros x. unfold Config.repositoryConfig. cbv zeta. cbn [url js app].
    rewrite RepairFacts.split1_app_sep, RepairFacts.split1_no_sep; [reflexivity|].
    apply Forall_forall. intros y Hy%list_elem_of_In ->. contradiction. }
  unfold Config.repositoryConfigs, Config.repositories. cbv zeta.
  cbn [fst map default from_option]. unfold id.
  rewrite Ha, Hb. cbn [List.filter]. rewrite !Hlen.
  cbn [Config.uniqueFrom existsb orb].
  assert (Hne : str_eqb (u ++ js "|" ++ b) (u ++ js "|" ++ a) = false).
  { apply str_eqb_false. intros Heq. apply app_inv_head in Heq.
    injection Heq as Heq. congruence. }
  rewrite Hne. cbn [map orb]. now rewrite !Hurl.
Qed.

Lemma two_branches_of_one_repository_are_two_entries_witness :
  map url (Config.repositoryConfigs
             [Some (js "https://github.com/o/r" ++ js "|" ++ js "main");
              Some (js "https://github.com/o/r" ++ js "|" ++ js "next")])
  = [js "https://github.com/o/r"; js "https://github.com/o/r"].
Proof.
  apply (two_branches_of_one_repository_are_two_entries
           (js "https://github.com/o/r") (js "main") (js "next"));
    compute_done.
Defined.

(* ===================================================================== *)
(** ** Toggling a prompt from the tree *)
(* ===================================================================== *)

(** X29: a toggle whose activation throws leaves the prompt marked active: the
    flag is flipped when the command starts, flipped back where the
    activation is caught, and flipped once more where the command catches the
    error thrown on; the command itself returns, and the disk is as the
    failed activation left it. *)
Theorem failed_activation_leaves_prompt_marked_active (env : Env)
    (s : Commands.Session) (u : jsstring) (e : exn) (fs1 : filesystem) :
  PromptInfo.active (Commands.prompt s) = false ->
  PromptInfo.repositoryUrl (Commands.prompt s) = Some u -> u <> [] ->
  activatePrompt env (PromptInfo.name (Commands.prompt s)) (Some u) (Commands.disk s)
    = (Throw e, fs1) ->
  exists s',
    Commands.toggleSelection env true s = (Ok tt, s')
    /\ Commands.prompt s' = Commands.withActive true (Commands.prompt s)
    /\ PromptInfo.active (Commands.prompt s') = true
    /\ PromptInfo.path (Commands.prompt s) ∈ Commands.activePrompts s'
    /\ Commands.disk s' = fs1.
Proof.
  intros Hinactive Hurl Hu Hthrow.
  assert (Htruthy : truthy u = true).
  { unfold truthy. apply negb_true_iff, str_eqb_false. exact Hu. }
  destruct s as [fs [n p a r w] active].
  cbn [Commands.prompt Commands.disk Commands.activePrompts PromptInfo.active
       PromptInfo.path PromptInfo.name PromptInfo.repositoryUrl
       PromptInfo.workspaceName] in *.
  subst a r.
  unfold Commands.toggleSelection, Commands.treeToggleSelection, Commands.onDisk,
    try_catch, bind, get, modify, throw, ret, when.
  cbn [Commands.prompt Commands.disk Commands.activePrompts PromptInfo.active
       PromptInfo.path Commands.withActive PromptInfo.name
       PromptInfo.repositoryUrl PromptInfo.workspaceName].
  rewrite Htruthy.
  cbn [Commands.prompt Commands.disk Commands.activePrompts PromptInfo.active
       PromptInfo.path Commands.withActive PromptInfo.name
       PromptInfo.repositoryUrl PromptInfo.workspaceName].
  rewrite Hthrow.
  cbn [Commands.prompt Commands.disk Commands.activePrompts PromptInfo.active
       PromptInfo.path Commands.withActive PromptInfo.name
       PromptInfo.repositoryUrl PromptInfo.workspaceName].
  eexists. split; [reflexivity|].
  cbn [Commands.prompt Commands.disk Commands.activePrompts PromptInfo.active
       PromptInfo.path].
  repeat split. set_solver.
Qed.

Lemma failed_activation_leaves_prompt_marked_active_witness :
  exists s',
    Commands.toggleSelection Examples.envU true
      {| Commands.disk := ∅;
         Commands.prompt :=
           {| PromptInfo.name := js "x.prompt.md";
              PromptInfo.path := activationPath Examples.envU (js "x.prompt.md");
              PromptInfo.active := false;
              PromptInfo.repositoryUrl := Some (js Examples.Ru);
              PromptInfo.workspaceName := Some (js "x.prompt.md") |};
         Commands.activePrompts := ∅ |}
    = (Ok tt, s')
    /\ Commands.prompt s'
       = Commands.withActive true
           {| PromptInfo.name := js "x.prompt.md";
              PromptInfo.path := activationPath Examples.envU (js "x.prompt.md");
              PromptInfo.active := false;
              PromptInfo.repositoryUrl := Some (js Examples.Ru);
              PromptInfo.workspaceName := Some (js "x.prompt.md") |}
    /\ PromptInfo.active (Commands.prompt s') = true
    /\ activationPath Examples.envU (js "x.prompt.md") ∈ Commands.activePrompts s'
    /\ Commands.disk s' = ∅.
Proof.
  apply (failed_activation_leaves_prompt_marked_active Examples.envU
           {| Commands.disk := ∅;
              Commands.prompt :=
                {| PromptInfo.name := js "x.prompt.md";
                   PromptInfo.path := activationPath Examples.envU (js "x.prompt.md");
                   PromptInfo.active := false;
                   PromptInfo.repositoryUrl := Some (js Examples.Ru);
                   PromptInfo.workspaceName := Some (js "x.prompt.md") |};
              Commands.activePrompts := ∅ |}
           (js Examples.Ru)
           (JsError (js "Source file does not exist: "
                       ++ Examples.mirrored Examples.envU Examples.Ru "x.prompt.md"))
           ∅);
    try reflexivity; compute_done.
Defined.

(* ===================================================================== *)
(** ** Duplicating a prompt *)
(* ===================================================================== *)

From Stdlib Require DecimalNat.

Module DuplicateFacts.
Import Commands.

Lemma uintChars_inj (d1 d2 : Decimal.uint) :
  uintChars d1 = uintChars d2 -> d1 = d2.
Proof.
  revert d2. induction d1; intros []; cbn; try discriminate;
    try reflexivity; intros [= H]; f_equal; now apply IHd1.
Qed.

Lemma decimal_inj (i j : nat) : decimal i = decimal j -> i = j.
Proof.
  intros H%uintChars_inj.
  rewrite <- (DecimalNat.Unsigned.of_to i), <- (DecimalNat.Unsigned.of_to j).
  now rewrite H.
Qed.

Lemma decimal_nonempty (i : nat) : decimal i <> [].
Proof.
  unfold decimal. intros H.
  assert (Hnil : Nat.to_uint i = Decimal.Nil) by now apply uintChars_inj.
  apply (f_equal Nat.of_uint) in Hnil.
  rewrite DecimalNat.Unsigned.of_to in Hnil. cbn in Hnil. subst i.
  discriminate.
Qed.

Lemma copyMark_inj (i j : nat) : copyMark i = copyMark j -> i = j.
Proof.
  destruct i, j; cbn [copyMark]; intros H; try reflexivity.
  - symmetry in H. now apply decimal_nonempty in H.
  - now apply decimal_nonempty in H.
  - now apply decimal_inj.
Qed.

(** The loop leaves the disk alone; when it answers a name, nothing
    readable is at it, and when it runs out of turns, every name it tried
    was taken. *)
Lemma uniqueCopyName_run (fuel : nat) (env : Env)
    (baseName extension : jsstring) (i : nat) (fs : filesystem) :
  exists found,
    uniqueCopyName fuel env baseName extension
      (baseName ++ js "_copy" ++ copyMark i ++ extension) (S i) fs
    = (Ok found, fs)
    /\ match found with
       | Some newName =>
           FS.stat fs (FS.joinPath (promptsDirectory env) newName) = None
       | None =>
           forall j, (j < fuel)%nat ->
             is_Some (FS.stat fs
                        (FS.joinPath (promptsDirectory env)
                           (baseName ++ js "_copy" ++ copyMark (i + j) ++ extension)))
       end.
Proof.
  revert i. induction fuel as [|fuel IH]; intros i.
  - exists None. split; [reflexivity | intros j Hj; lia].
  - cbn [uniqueCopyName]. unfold bind. rewrite ActivationFacts.fileExists_eq.
    destruct (bool_decide_reflect
                (is_Some (FS.stat fs
                            (FS.joinPath (promptsDirectory env)
                               (baseName ++ js "_copy" ++ copyMark i ++ extension)))))
      as [Htaken|Hfree].
    + destruct (IH (S i)) as (found & Hrun & Hfound).
      cbn [copyMark] in Hrun. rewrite Hrun.
      exists found. split; [reflexivity|].
      destruct found as [newName|]; [exact Hfound|].
      intros [|j] Hj.
      * now rewrite Nat.add_0_r.
      * replace (i + S j)%nat with (S i + j)%nat by lia. apply Hfound. lia.
    + eexists. split; [reflexivity|]. cbn.
      destruct (FS.stat fs _); [destruct Hfree; eauto | reflexivity].
Qed.

(** More names than the disk has entries cannot all be taken. *)
Lemma some_name_is_free (env : Env) (baseName extension : jsstring)
    (fs : filesystem) :
  ~ forall j, (j < S (size fs))%nat ->
      is_Some (FS.stat fs
                 (FS.joinPath (promptsDirectory env)
                    (baseName ++ js "_copy" ++ copyMark j ++ extension))).
Proof.
  intros Hall.
  set (pathOf := fun j : nat =>
         FS.joinPath (promptsDirectory env)
           (baseName ++ js "_copy" ++ copyMark j ++ extension)).
  set (tried := map pathOf (seq 0 (S (size fs)))).
  assert (Hnd : NoDup tried).
  { apply NoDup_fmap_2; [|apply NoDup_ListNoDup, seq_NoDup].
    intros i j Heq. unfold pathOf, FS.joinPath in Heq.
    do 4 apply app_inv_head in Heq.
    apply app_inv_tail in Heq. now apply copyMark_inj. }
  assert (Hsub : (list_to_set tried : gset (list N)) ⊆ dom fs).
  { intros p [j [-> Hj]]%elem_of_list_to_set%list_elem_of_fmap.
    apply elem_of_dom, ActivationFacts.stat_is_Some_lookup, Hall.
    apply list_elem_of_In, in_seq in Hj. lia. }
  apply subseteq_size in Hsub.
  rewrite size_list_to_set, size_dom in Hsub by exact Hnd.
  unfold tried in Hsub. rewrite length_map, length_seq in Hsub. lia.
Qed.

(** Where a write through links ends there is nothing, or a regular file
    that a read reaches as well. *)
Lemma writepath_end (n : nat) (fs : filesystem) (p q : jsstring) :
  FS.writepath n fs p = Some q ->
  fs !! q = None \/ FS.realpath n fs p = Some q.
Proof.
  revert p. induction n as [|n IH]; intros p; [discriminate|].
  cbn [FS.writepath FS.realpath].
  destruct (fs !! p) as [[c|t]|] eqn:Hp.
  - intros [= <-]. now right.
  - apply IH.
  - intros [= <-]. now left.
Qed.

End DuplicateFacts.

(** X30: duplicating a prompt never overwrites: with as many turns as the disk
    has entries and one more, the command ends; every entry of the disk is
    left as it was; and when it tells the new name, nothing readable was at
    that name before and the text of the prompt is read there afterwards. *)
Theorem duplicate_never_overwrites (env : Env) (promptInfo : PromptInfo.t)
    (fs : filesystem) :
  exists shown fs',
    Commands.duplicatePrompt (S (size fs)) env promptInfo fs = (Ok (Some shown), fs')
    /\ (forall p, is_Some (fs !! p) -> fs' !! p = fs !! p)
    /\ match shown with
       | Ok newName =>
           FS.stat fs (FS.joinPath (promptsDirectory env) newName) = None
           /\ exists c,
                FS.stat fs (PromptInfo.path promptInfo) = Some c
                /\ FS.stat fs' (FS.joinPath (promptsDirectory env) newName) = Some c
       | Throw _ => fs' = fs
       end.
Proof.
  unfold Commands.duplicatePrompt. cbv zeta.
  set (baseName := Commands.stripExtension (PromptInfo.name promptInfo)).
  set (extension := substringFrom (length baseName) (PromptInfo.name promptInfo)).
  destruct (DuplicateFacts.uniqueCopyName_run (S (size fs)) env baseName extension
              0 fs) as (found & Hrun & Hfound).
  cbn [Commands.copyMark app] in Hrun.
  unfold try_catch, bind at 1. rewrite Hrun.
  destruct found as [newName|].
  2:{ destruct (DuplicateFacts.some_name_is_free env baseName extension fs).
      exact Hfound. }
  unfold bind at 1, FS.readFileContent.
  destruct (FS.stat fs (PromptInfo.path promptInfo)) as [c|] eqn:Hsrc.
  2:{ eexists _, fs. split; [reflexivity|]. split; [reflexivity | reflexivity]. }
  unfold bind, FS.writeFileContent.
  destruct (FS.writepath FS.max_links fs (FS.joinPath (promptsDirectory env) newName))
    as [q|] eqn:Hq.
  2:{ eexists _, fs. split; [reflexivity|]. split; [reflexivity | reflexivity]. }
  assert (Hfree : fs !! q = None).
  { destruct (DuplicateFacts.writepath_end _ _ _ _ Hq) as [Hnone|Hreal];
      [exact Hnone|].
    unfold FS.stat in Hfound. rewrite Hreal in Hfound.
    destruct (LinkFacts.realpath_file _ _ _ _ Hreal) as [c0 Hc0].
    rewrite Hc0 in Hfound. discriminate. }
  eexists _, _. split; [reflexivity|]. split; [|split; [exact Hfound|]].
  - intros p [node Hp]. apply lookup_insert_ne. congruence.
  - exists c. split; [reflexivity|]. unfold FS.stat.
    rewrite (WriteFacts.writepath_realpath _ _ _ _ c Hq).
    now rewrite lookup_insert_eq.
Qed.
